(** * ProcessList: a shallow embedding of [state/processList.go]

    The per-directory-block process list of a federated node: the
    per-leader message queues (VMs), the membership lists, the
    minute-to-leader map, admission ([AddToProcessList]), the processor
    ([Process]) and the missing-message scheduler ([Ask]).

    Go values are modelled as follows.
    - [int], [int64], [uint32], [uint64] are [Z]; arithmetic that can wrap
      is written with [uint32], [uint64] and [int64] below.
    - [[]byte] is [list byte]; an [IHash] is the list of its bytes.
    - slices are lists, read and written by index with stdpp's lookup and
      insert; an index out of range is a Go panic, modelled by [Panic].
    - Go maps are [gmap]; a nil map is [None].
    - a nil pointer or nil interface is [None].
    - [p.State] is the record [State]; the argument [state] of [Process] is
      taken to be that same object, the state the list was built from.
    - the receiver [p] is non-nil except in [Complete], whose nil case is
      modelled; the other methods that test [p == nil] return at once on a
      nil receiver. *)

From Stdlib Require Import ZArith Lia.
From Stdlib Require Import Strings.Byte.
From stdpp Require Import base numbers option list sorting countable gmap.

Local Open Scope Z_scope.

(** ** Machine integers *)

Definition uint32 (z : Z) : Z := z mod 2 ^ 32.
Definition uint64 (z : Z) : Z := z mod 2 ^ 64.
Definition int64 (z : Z) : Z := (z + 2 ^ 63) mod 2 ^ 64 - 2 ^ 63.

(** ** Panics *)

Inductive Result (A : Type) : Type :=
  | Ok (a : A)
  | Panic.
Arguments Ok {A} a.
Arguments Panic {A}.

#[global] Instance Result_ret : MRet Result := λ A a, Ok a.
#[global] Instance Result_bind : MBind Result :=
  λ A B f m, match m with Ok a => f a | Panic => Panic end.

(** [l[i]] for a Go [int] index: out of range panics. *)
Definition index {A} (l : list A) (i : Z) : Result A :=
  if i <? 0 then Panic
  else match l !! Z.to_nat i with Some x => Ok x | None => Panic end.

(** [l[i] = x] for a Go [int] index: out of range panics. *)
Definition assign {A} (l : list A) (i : Z) (x : A) : Result (list A) :=
  if (i <? 0) || (Z.of_nat (length l) <=? i) then Panic
  else Ok (<[Z.to_nat i := x]> l).

Definition len {A} (l : list A) : Z := Z.of_nat (length l).

(** ** Bytes and hashes *)

#[global] Instance byte_eq_dec : EqDecision byte.
Proof.
  intros a b. destruct (Byte.eqb a b) eqn:E.
  - left. by apply Byte.byte_dec_bl.
  - right. intros H. apply Byte.byte_dec_lb in H. congruence.
Defined.

#[global] Instance byte_countable : Countable byte :=
  inj_countable Byte.to_N Byte.of_N Byte.of_to_N.

Definition Hash : Type := list byte.

Definition byteval (b : byte) : Z := Z.of_N (Byte.to_N b).

(** [bytes.Compare]: lexicographic order on byte strings, -1, 0 or 1. *)
Fixpoint bytes_Compare (a b : list byte) : Z :=
  match a, b with
  | [], [] => 0
  | [], _ :: _ => -1
  | _ :: _, [] => 1
  | x :: a', y :: b' =>
      if byteval x <? byteval y then -1
      else if byteval y <? byteval x then 1
      else bytes_Compare a' b'
  end.

(** ** Servers *)

Record Server : Type := mkServer {
  ChainID : Hash;
  Online : bool
}.

#[global] Instance Server_eq_dec : EqDecision Server.
Proof. solve_decision. Defined.

(** The inner loop of [SortServers]: [for j := 0; j < len(servers)-1-i; j++],
    run here for [k] iterations starting at index [j]. *)
Fixpoint SortServers_inner (k : nat) (j : nat) (servers : list Server) (done : bool)
  : list Server * bool :=
  match k with
  | O => (servers, done)
  | S k' =>
      match servers !! j, servers !! S j with
      | Some s1, Some s2 =>
          if 0 <? bytes_Compare (ChainID s1) (ChainID s2) then
            SortServers_inner k' (S j) (<[S j := s1]> (<[j := s2]> servers)) false
          else SortServers_inner k' (S j) servers done
      | _, _ => (servers, done)
      end
  end.

(** The outer loop of [SortServers]: [for i := 0; i < len(servers)-1; i++],
    run for [n] iterations starting at [i], leaving early when a pass made no
    swap. *)
Fixpoint SortServers_outer (n : nat) (i : nat) (servers : list Server) : list Server :=
  match n with
  | O => servers
  | S n' =>
      let '(servers', done) :=
        SortServers_inner (length servers - 1 - i) 0 servers true in
      if done then servers' else SortServers_outer n' (S i) servers'
  end.

Definition SortServers (servers : list Server) : list Server :=
  SortServers_outer (length servers - 1) 0 servers.

(** ** The minute-to-leader map *)

(** [serverMap [10][64]int], zero-initialised. *)
Definition ServerMap_zero : list (list Z) := replicate 10 (replicate 64 0).

(** Inner loop of [MakeMap]: [for j := 0; j < numberFedServers; j++], writing
    row [i]. Returns the table and [indx]. *)
Fixpoint MakeMap_row (k : nat) (n : Z) (i : nat) (j : nat)
    (serverMap : list (list Z)) (indx : Z) : list (list Z) * Z :=
  match k with
  | O => (serverMap, indx)
  | S k' =>
      let serverMap' := alter (λ row, <[j := indx]> row) i serverMap in
      MakeMap_row k' n i (S j) serverMap' ((indx + 1) `rem` n)
  end.

(** Outer loop of [MakeMap]: [for i := 0; i < 10; i++]. *)
Fixpoint MakeMap_rows (k : nat) (n : Z) (i : nat)
    (serverMap : list (list Z)) (indx : Z) : list (list Z) :=
  match k with
  | O => serverMap
  | S k' =>
      let indx1 := (indx + 1) `rem` n in
      let '(serverMap', indx2) := MakeMap_row (Z.to_nat n) n i 0 serverMap indx1 in
      MakeMap_rows k' n (S i) serverMap' indx2
  end.

(** [MakeMap(numberFedServers, dbheight)]. A row has 64 columns, so the write
    [serverMap[i][j]] panics for 65 or more servers. *)
Definition MakeMap (numberFedServers : Z) (dbheight : Z) : Result (list (list Z)) :=
  if 0 <? numberFedServers then
    if 64 <? numberFedServers then Panic
    else
      let indx := int64 (uint32 (dbheight * 131)) `rem` numberFedServers in
      Ok (MakeMap_rows 10 numberFedServers 0 ServerMap_zero indx)
  else Ok ServerMap_zero.


(** ** Timestamps *)

(** Modelled from the spec: the [Timestamp] primitive (the type is declared
    outside this file) is a "monotonic millisecond clock": a non-negative
    count of milliseconds, read in milliseconds or in whole seconds. *)
Definition Timestamp : Type := Z.
Definition GetTimeMilli (t : Timestamp) : Z := t.
Definition GetTimeSeconds (t : Timestamp) : Z := t `div` 1000.

(** ** Messages and acknowledgements *)

(** An [interfaces.IMsg] as this file reads it: its three hashes, its
    timestamp and its type. The local and peer-to-peer flags set by
    [SetLocal] and [SetPeer2Peer] are never read here and are left out. *)
Record Msg : Type := mkMsg {
  msg_Hash : Hash;          (* GetHash() *)
  msg_MsgHash : Hash;       (* GetMsgHash() *)
  msg_RepeatHash : Hash;    (* GetRepeatHash() *)
  msg_Timestamp : Timestamp;(* GetTimestamp() *)
  msg_Type : Z              (* Type() *)
}.

(** A [messages.Ack]: the fields this file reads. [ack_MsgHash] is the result
    of [GetMsgHash()], which may be nil. *)
Record Ack : Type := mkAck {
  VMIndex : Z;
  ack_DBHeight : Z;
  ack_Height : nat;
  SerialHash : Hash;
  MessageHash : Hash;
  LeaderChainID : Hash;
  SaltNumber : Z;
  Response : bool;
  ack_Timestamp : Timestamp;
  Minute : Z;
  ack_MsgHash : option Hash;
  ack_Hash : Hash
}.

(** Modelled from the spec: [messages.NewMissingMsg] is declared outside this
    file; it builds "MissingMsg(state, vmIndex=i, dbHeight=H,
    askFor=len(list))", to which [Ask] appends the heights of the null
    slots. *)
Record MissingMsg : Type := mkMissingMsg {
  mm_VMIndex : Z;
  mm_DBHeight : Z;
  mm_AskFor : Z;
  ProcessListHeight : list Z
}.

Definition NewMissingMsg (vmIndex : Z) (dbHeight : Z) (processlistHeight : Z) : MissingMsg :=
  mkMissingMsg vmIndex dbHeight processlistHeight [].

(** What [SendOut] puts on the wire. *)
Inductive OutMsg : Type :=
  | OutMsgOf (m : Msg)
  | OutAck (a : Ack)
  | OutMissing (mm : MissingMsg).

(** The internal messages handed to the elections queue, each carrying
    [(node, dbHeight, chainID)]; the node name is constant and left out. *)
Inductive ElectionMsg : Type :=
  | AddLeaderInternal (dbheight : Z) (id : Hash)
  | AddAuditInternal (dbheight : Z) (id : Hash)
  | RemoveLeaderInternal (dbheight : Z) (id : Hash)
  | RemoveAuditInternal (dbheight : Z) (id : Hash).

(** ** Virtual machines *)

Record VM : Type := mkVM {
  List : list (option Msg);
  ListAck : list (option Ack);
  Height : Z;
  EomMinuteIssued : Z;
  LeaderMinute : Z;
  Synced : bool;
  heartBeat : Z;
  Signed : bool;
  WhenFaulted : Z;
  FaultFlag : Z;
  MMRequests : option (gmap Z bool);
  MM_AskTime : Z;
  ProcessTime : Timestamp
}.

Definition set_List (f : list (option Msg) → list (option Msg)) (vm : VM) : VM :=
  mkVM (f (List vm)) (ListAck vm) (Height vm) (EomMinuteIssued vm) (LeaderMinute vm)
    (Synced vm) (heartBeat vm) (Signed vm) (WhenFaulted vm) (FaultFlag vm)
    (MMRequests vm) (MM_AskTime vm) (ProcessTime vm).
Definition set_ListAck (f : list (option Ack) → list (option Ack)) (vm : VM) : VM :=
  mkVM (List vm) (f (ListAck vm)) (Height vm) (EomMinuteIssued vm) (LeaderMinute vm)
    (Synced vm) (heartBeat vm) (Signed vm) (WhenFaulted vm) (FaultFlag vm)
    (MMRequests vm) (MM_AskTime vm) (ProcessTime vm).
Definition set_Height (h : Z) (vm : VM) : VM :=
  mkVM (List vm) (ListAck vm) h (EomMinuteIssued vm) (LeaderMinute vm)
    (Synced vm) (heartBeat vm) (Signed vm) (WhenFaulted vm) (FaultFlag vm)
    (MMRequests vm) (MM_AskTime vm) (ProcessTime vm).
Definition set_heartBeat (h : Z) (vm : VM) : VM :=
  mkVM (List vm) (ListAck vm) (Height vm) (EomMinuteIssued vm) (LeaderMinute vm)
    (Synced vm) h (Signed vm) (WhenFaulted vm) (FaultFlag vm)
    (MMRequests vm) (MM_AskTime vm) (ProcessTime vm).
Definition set_Fault (whenFaulted faultFlag : Z) (vm : VM) : VM :=
  mkVM (List vm) (ListAck vm) (Height vm) (EomMinuteIssued vm) (LeaderMinute vm)
    (Synced vm) (heartBeat vm) (Signed vm) whenFaulted faultFlag
    (MMRequests vm) (MM_AskTime vm) (ProcessTime vm).
Definition set_MM (requests : option (gmap Z bool)) (askTime : Z) (vm : VM) : VM :=
  mkVM (List vm) (ListAck vm) (Height vm) (EomMinuteIssued vm) (LeaderMinute vm)
    (Synced vm) (heartBeat vm) (Signed vm) (WhenFaulted vm) (FaultFlag vm)
    requests askTime (ProcessTime vm).
Definition set_ProcessTime (t : Timestamp) (vm : VM) : VM :=
  mkVM (List vm) (ListAck vm) (Height vm) (EomMinuteIssued vm) (LeaderMinute vm)
    (Synced vm) (heartBeat vm) (Signed vm) (WhenFaulted vm) (FaultFlag vm)
    (MMRequests vm) (MM_AskTime vm) t.

(** [new(VM)] as [NewProcessList] initialises it. *)
Definition newVM (now : Timestamp) : VM :=
  mkVM [] [] 0 0 0 true 0 false 0 0 None 0 now.

(** [m[k]] on a possibly nil [map[int]bool]: absent keys read as false. *)
Definition mapget (m : option (gmap Z bool)) (k : Z) : bool :=
  match m with
  | None => false
  | Some m => default false (m !! k)
  end.

(** The indices [i] with [list[i] == nil], ascending, from index [i0] on. *)
Fixpoint nilSlots (i0 : Z) (l : list (option Msg)) : list Z :=
  match l with
  | [] => []
  | None :: l' => i0 :: nilSlots (i0 + 1) l'
  | Some _ :: l' => nilSlots (i0 + 1) l'
  end.

(** ** What lies outside this file *)

(** The replay filter, the hash of two hashes, the node's salt, the effect of
    processing a message, the bound on the inbound queue and the election
    messages of the fault driver are taken as given. [ReplayT] is the state
    of the replay filter and [W] the part of the node that messages act on. *)
Class Outside (ReplayT W : Type) : Type := {
  (** [Replay.Valid(INTERNAL_REPLAY, hash, timestamp, now)]: is the message
      new and inside the time window? *)
  Replay_Valid : ReplayT → Hash → Timestamp → Timestamp → bool;
  (** [Replay.IsTSValid_(INTERNAL_REPLAY, hash, timestamp, now)]: records the
      hash. *)
  Replay_IsTSValid_ : ReplayT → Hash → Timestamp → Timestamp → ReplayT;
  (** [primitives.CreateHash(a, b)]; [None] is the error result. *)
  CreateHash : Hash → Hash → option Hash;
  (** [State.GetSalt(timestamp)]. *)
  GetSalt : Timestamp → Z;
  (** [msg.Process(dbheight, state)]: its answer and its effect on the part
      of the node that this file does not own (VM fields are single-writer). *)
  MsgProcess : Msg → Z → W → bool * W;
  (** [constants.INMSGQUEUE_MED]. *)
  INMSGQUEUE_MED : Z;
  (** The messages [FaultCheck] hands to the elections queue. *)
  FaultCheck_emits : list VM → list ElectionMsg
}.

(** ** The node state and the process list *)

Section ProcessList.

Context {ReplayT W : Type} `{!Outside ReplayT W}.

(** [p.State]: the fields and capabilities this file uses. [GetTimestamp()]
    reads the wall clock: the [k]-th reading is [clock k], and [ticks] counts
    the readings made so far. [ResetRequests] counts the calls of
    [State.Reset()]; [sent] is the outbound traffic, latest first. *)
Record State : Type := mkState {
  IdentityChainID : Hash;
  NetworkBootStrapIdentity : Hash;
  OneLeader : bool;
  Syncing : bool;
  WaitForEntries : bool;
  EntryDBHeightComplete : Z;
  HighestSavedBlk : Z;
  HighestAck : Z;
  PLProcessHeight : Z;
  MissingRequestAskCnt : Z;
  inMsgQueue_Length : Z;
  Acks : gmap Hash Ack;
  Holding : gmap Hash Msg;
  Replay : ReplayT;
  electionsQueue : list ElectionMsg;
  sent : list OutMsg;
  ResetRequests : nat;
  clock : nat → Timestamp;
  ticks : nat;
  world : W
}.

Definition set_HighestAck (x : Z) (st : State) : State :=
  mkState (IdentityChainID st) (NetworkBootStrapIdentity st) (OneLeader st) (Syncing st) (WaitForEntries st) (EntryDBHeightComplete st) (HighestSavedBlk st) x (PLProcessHeight st) (MissingRequestAskCnt st) (inMsgQueue_Length st) (Acks st) (Holding st) (Replay st) (electionsQueue st) (sent st) (ResetRequests st) (clock st) (ticks st) (world st).
Definition set_PLProcessHeight (x : Z) (st : State) : State :=
  mkState (IdentityChainID st) (NetworkBootStrapIdentity st) (OneLeader st) (Syncing st) (WaitForEntries st) (EntryDBHeightComplete st) (HighestSavedBlk st) (HighestAck st) x (MissingRequestAskCnt st) (inMsgQueue_Length st) (Acks st) (Holding st) (Replay st) (electionsQueue st) (sent st) (ResetRequests st) (clock st) (ticks st) (world st).
Definition set_MissingRequestAskCnt (x : Z) (st : State) : State :=
  mkState (IdentityChainID st) (NetworkBootStrapIdentity st) (OneLeader st) (Syncing st) (WaitForEntries st) (EntryDBHeightComplete st) (HighestSavedBlk st) (HighestAck st) (PLProcessHeight st) x (inMsgQueue_Length st) (Acks st) (Holding st) (Replay st) (electionsQueue st) (sent st) (ResetRequests st) (clock st) (ticks st) (world st).
Definition set_Acks (x : gmap Hash Ack) (st : State) : State :=
  mkState (IdentityChainID st) (NetworkBootStrapIdentity st) (OneLeader st) (Syncing st) (WaitForEntries st) (EntryDBHeightComplete st) (HighestSavedBlk st) (HighestAck st) (PLProcessHeight st) (MissingRequestAskCnt st) (inMsgQueue_Length st) x (Holding st) (Replay st) (electionsQueue st) (sent st) (ResetRequests st) (clock st) (ticks st) (world st).
Definition set_Holding (x : gmap Hash Msg) (st : State) : State :=
  mkState (IdentityChainID st) (NetworkBootStrapIdentity st) (OneLeader st) (Syncing st) (WaitForEntries st) (EntryDBHeightComplete st) (HighestSavedBlk st) (HighestAck st) (PLProcessHeight st) (MissingRequestAskCnt st) (inMsgQueue_Length st) (Acks st) x (Replay st) (electionsQueue st) (sent st) (ResetRequests st) (clock st) (ticks st) (world st).
Definition set_Replay (x : ReplayT) (st : State) : State :=
  mkState (IdentityChainID st) (NetworkBootStrapIdentity st) (OneLeader st) (Syncing st) (WaitForEntries st) (EntryDBHeightComplete st) (HighestSavedBlk st) (HighestAck st) (PLProcessHeight st) (MissingRequestAskCnt st) (inMsgQueue_Length st) (Acks st) (Holding st) x (electionsQueue st) (sent st) (ResetRequests st) (clock st) (ticks st) (world st).
Definition set_electionsQueue (x : list ElectionMsg) (st : State) : State :=
  mkState (IdentityChainID st) (NetworkBootStrapIdentity st) (OneLeader st) (Syncing st) (WaitForEntries st) (EntryDBHeightComplete st) (HighestSavedBlk st) (HighestAck st) (PLProcessHeight st) (MissingRequestAskCnt st) (inMsgQueue_Length st) (Acks st) (Holding st) (Replay st) x (sent st) (ResetRequests st) (clock st) (ticks st) (world st).
Definition set_sent (x : list OutMsg) (st : State) : State :=
  mkState (IdentityChainID st) (NetworkBootStrapIdentity st) (OneLeader st) (Syncing st) (WaitForEntries st) (EntryDBHeightComplete st) (HighestSavedBlk st) (HighestAck st) (PLProcessHeight st) (MissingRequestAskCnt st) (inMsgQueue_Length st) (Acks st) (Holding st) (Replay st) (electionsQueue st) x (ResetRequests st) (clock st) (ticks st) (world st).
Definition set_ResetRequests (x : nat) (st : State) : State :=
  mkState (IdentityChainID st) (NetworkBootStrapIdentity st) (OneLeader st) (Syncing st) (WaitForEntries st) (EntryDBHeightComplete st) (HighestSavedBlk st) (HighestAck st) (PLProcessHeight st) (MissingRequestAskCnt st) (inMsgQueue_Length st) (Acks st) (Holding st) (Replay st) (electionsQueue st) (sent st) x (clock st) (ticks st) (world st).
Definition set_ticks (x : nat) (st : State) : State :=
  mkState (IdentityChainID st) (NetworkBootStrapIdentity st) (OneLeader st) (Syncing st) (WaitForEntries st) (EntryDBHeightComplete st) (HighestSavedBlk st) (HighestAck st) (PLProcessHeight st) (MissingRequestAskCnt st) (inMsgQueue_Length st) (Acks st) (Holding st) (Replay st) (electionsQueue st) (sent st) (ResetRequests st) (clock st) x (world st).
Definition set_world (x : W) (st : State) : State :=
  mkState (IdentityChainID st) (NetworkBootStrapIdentity st) (OneLeader st) (Syncing st) (WaitForEntries st) (EntryDBHeightComplete st) (HighestSavedBlk st) (HighestAck st) (PLProcessHeight st) (MissingRequestAskCnt st) (inMsgQueue_Length st) (Acks st) (Holding st) (Replay st) (electionsQueue st) (sent st) (ResetRequests st) (clock st) (ticks st) x.

(** The [ProcessList] struct: the fields the functions below use. The block
    accumulators, the signatures and the entry maps are not touched by them. *)
Record ProcessList : Type := mkProcessList {
  DBHeight : Z;
  State_ : State;
  VMs : list VM;
  ServerMap : list (list Z);
  FedServers : list Server;
  AuditServers : list Server;
  OldMsgs : gmap Hash Msg;
  OldAcks : gmap Hash Ack;
  NextHeightToProcess : list Z
}.

Definition set_DBHeight (x : Z) (p : ProcessList) : ProcessList :=
  mkProcessList x (State_ p) (VMs p) (ServerMap p) (FedServers p) (AuditServers p) (OldMsgs p) (OldAcks p) (NextHeightToProcess p).
Definition set_State (x : State) (p : ProcessList) : ProcessList :=
  mkProcessList (DBHeight p) x (VMs p) (ServerMap p) (FedServers p) (AuditServers p) (OldMsgs p) (OldAcks p) (NextHeightToProcess p).
Definition set_VMs (x : list VM) (p : ProcessList) : ProcessList :=
  mkProcessList (DBHeight p) (State_ p) x (ServerMap p) (FedServers p) (AuditServers p) (OldMsgs p) (OldAcks p) (NextHeightToProcess p).
Definition set_ServerMap (x : list (list Z)) (p : ProcessList) : ProcessList :=
  mkProcessList (DBHeight p) (State_ p) (VMs p) x (FedServers p) (AuditServers p) (OldMsgs p) (OldAcks p) (NextHeightToProcess p).
Definition set_FedServers (x : list Server) (p : ProcessList) : ProcessList :=
  mkProcessList (DBHeight p) (State_ p) (VMs p) (ServerMap p) x (AuditServers p) (OldMsgs p) (OldAcks p) (NextHeightToProcess p).
Definition set_AuditServers (x : list Server) (p : ProcessList) : ProcessList :=
  mkProcessList (DBHeight p) (State_ p) (VMs p) (ServerMap p) (FedServers p) x (OldMsgs p) (OldAcks p) (NextHeightToProcess p).
Definition set_OldMsgs (x : gmap Hash Msg) (p : ProcessList) : ProcessList :=
  mkProcessList (DBHeight p) (State_ p) (VMs p) (ServerMap p) (FedServers p) (AuditServers p) x (OldAcks p) (NextHeightToProcess p).
Definition set_OldAcks (x : gmap Hash Ack) (p : ProcessList) : ProcessList :=
  mkProcessList (DBHeight p) (State_ p) (VMs p) (ServerMap p) (FedServers p) (AuditServers p) (OldMsgs p) x (NextHeightToProcess p).
Definition set_NextHeightToProcess (x : list Z) (p : ProcessList) : ProcessList :=
  mkProcessList (DBHeight p) (State_ p) (VMs p) (ServerMap p) (FedServers p) (AuditServers p) (OldMsgs p) (OldAcks p) x.

(** A field update through the pointer [vm := p.VMs[i]]. *)
Definition updVM (i : Z) (f : VM → VM) (p : ProcessList) : ProcessList :=
  set_VMs (alter f (Z.to_nat i) (VMs p)) p.

Definition updState (f : State → State) (p : ProcessList) : ProcessList :=
  set_State (f (State_ p)) p.

(** [p.State.GetTimestamp()]: the next reading of the clock. *)
Definition GetTimestamp (p : ProcessList) : Timestamp * ProcessList :=
  let st := State_ p in
  (clock st (ticks st), set_State (set_ticks (S (ticks st)) st) p).

(** [State.Reset()] is declared outside this file; the call is recorded. *)
Definition State_Reset (p : ProcessList) : ProcessList :=
  updState (λ st, set_ResetRequests (S (ResetRequests st)) st) p.

(** [msg.SendOut(state, msg)]. *)
Definition SendOut (o : OutMsg) (p : ProcessList) : ProcessList :=
  updState (λ st, set_sent (o :: sent st) st) p.

(** [p.State.electionsQueue.Enqueue(msg)]. *)
Definition Enqueue (e : ElectionMsg) (p : ProcessList) : ProcessList :=
  updState (λ st, set_electionsQueue (electionsQueue st ++ [e]) st) p.

(** ** Completion and the VM index of a hash *)

(** The loop of [Complete]: [for i := 0; i < len(p.FedServers); i++], with [k]
    iterations left. *)
Fixpoint Complete_loop (k : nat) (i : Z) (p : ProcessList) : Result bool :=
  match k with
  | O => Ok true
  | S k' =>
      vm ← index (VMs p) i;
      if LeaderMinute vm <? 10 then Ok false
      else if Height vm <? len (List vm) then Ok false
      else Complete_loop k' (i + 1) p
  end.

(** [p.Complete()], where [p] may be nil. *)
Definition Complete (p : option ProcessList) : Result bool :=
  match p with
  | None => Ok false
  | Some p =>
      if DBHeight p <=? HighestSavedBlk (State_ p) then Ok true
      else Complete_loop (length (FedServers p)) 0 p
  end.

(** The sum [v += uint64(b)] over the bytes of [hash]. *)
Definition sumBytes (hash : list byte) : Z :=
  foldl (λ v b, uint64 (v + byteval b)) 0 hash.

(** [p.VMIndexFor(hash)]; the remainder by zero is a run-time panic. *)
Definition VMIndexFor (p : ProcessList) (hash : list byte) : Result Z :=
  if OneLeader (State_ p) then Ok 0
  else
    let v := sumBytes hash in
    let n := uint64 (len (FedServers p)) in
    if n =? 0 then Panic else Ok (int64 (v `mod` n)).

(** ** Membership *)

(** The search loop shared by [GetFedServerIndexHash] and
    [GetAuditServerIndexHash]: the first index whose chain-id equals [scid],
    or the length of the list. *)
Fixpoint indexHash (i : Z) (servers : list Server) (scid : Hash) : bool * Z :=
  match servers with
  | [] => (false, i)
  | fs :: rest =>
      if bytes_Compare scid (ChainID fs) =? 0 then (true, i)
      else indexHash (i + 1) rest scid
  end.

Definition GetFedServerIndexHash (p : ProcessList) (identityChainID : Hash) : bool * Z :=
  indexHash 0 (FedServers p) identityChainID.

Definition GetAuditServerIndexHash (p : ProcessList) (identityChainID : Hash) : bool * Z :=
  indexHash 0 (AuditServers p) identityChainID.

Definition SortFedServers (p : ProcessList) : ProcessList :=
  set_FedServers (SortServers (FedServers p)) p.

Definition SortAuditServers (p : ProcessList) : ProcessList :=
  set_AuditServers (SortServers (AuditServers p)) p.

(** [p.MakeMap()]. *)
Definition MakeMap_ (p : ProcessList) : Result ProcessList :=
  serverMap ← MakeMap (len (FedServers p)) (DBHeight p);
  Ok (set_ServerMap serverMap p).

(** [append(l[:i], l[i+1:]...)]. *)
Definition splice {A} (i : Z) (l : list A) : list A :=
  take (Z.to_nat i) l ++ drop (S (Z.to_nat i)) l.

(** [l = append(l, nil); copy(l[i+1:], l[i:]); l[i] = x]. *)
Definition insertAt {A} (i : Z) (x : A) (l : list A) : list A :=
  take (Z.to_nat i) l ++ x :: drop (Z.to_nat i) l.

Definition RemoveAuditServerHash (identityChainID : Hash) (p : ProcessList) : ProcessList :=
  let '(found, i) := GetAuditServerIndexHash p identityChainID in
  if negb found then p
  else
    let p := Enqueue (RemoveAuditInternal (DBHeight p) identityChainID) p in
    set_AuditServers (splice i (AuditServers p)) p.

Definition RemoveFedServerHash (identityChainID : Hash) (p : ProcessList) : Result ProcessList :=
  let '(found, i) := GetFedServerIndexHash p identityChainID in
  if negb found then Ok (RemoveAuditServerHash identityChainID p)
  else
    let p := Enqueue (RemoveLeaderInternal (DBHeight p) identityChainID) p in
    let p := set_FedServers (splice i (FedServers p)) p in
    MakeMap_ p.

Definition AddFedServer (identityChainID : Hash) (p : ProcessList) : Result (Z * ProcessList) :=
  let p := SortFedServers p in
  let '(found, i) := GetFedServerIndexHash p identityChainID in
  if found then Ok (i, p)
  else if i <? 0 then Ok (i, p)
  else
    let '(auditFound, _) := GetAuditServerIndexHash p identityChainID in
    let p := if auditFound then RemoveAuditServerHash identityChainID p else p in
    let p := Enqueue (AddLeaderInternal (DBHeight p) identityChainID) p in
    let p := set_FedServers (insertAt i (mkServer identityChainID true) (FedServers p)) p in
    p ← MakeMap_ p;
    Ok (i, p).

Definition AddAuditServer (identityChainID : Hash) (p : ProcessList) : Result (Z * ProcessList) :=
  let '(found, i) := GetAuditServerIndexHash p identityChainID in
  if found then Ok (i, p)
  else
    let '(fedFound, _) := GetFedServerIndexHash p identityChainID in
    p ← (if fedFound then RemoveFedServerHash identityChainID p else Ok p);
    let p := Enqueue (AddAuditInternal (DBHeight p) identityChainID) p in
    let p := set_AuditServers (insertAt i (mkServer identityChainID true) (AuditServers p)) p in
    Ok (i, p).

(** ** The missing-message scheduler *)

Definition isnil {A} (o : option A) : bool :=
  match o with None => true | Some _ => false end.

(** [deltaT := now - vm.MM_AskTime]. *)
Definition deltaT (now : Z) (vm : VM) : Z := int64 (now - MM_AskTime vm).

(** The request [Ask] builds: [NewMissingMsg] plus the height of every nil
    slot. *)
Definition missingMsgRequest (vmIndex : Z) (dbHeight : Z) (vm : VM) : MissingMsg :=
  let r := NewMissingMsg vmIndex dbHeight (uint32 (len (List vm))) in
  mkMissingMsg (mm_VMIndex r) (mm_DBHeight r) (mm_AskFor r)
    (ProcessListHeight r ++ (uint32 <$> nilSlots 0 (List vm))).

(** The fresh [MMRequests] map: the next slot and every nil slot. *)
Definition freshRequests (vm : VM) : gmap Z bool :=
  foldl (λ m i, <[i := true]> m) (<[len (List vm) := true]> ∅) (nilSlots 0 (List vm)).

Definition Ask (vmIndex : Z) (height : Z) (p : ProcessList) : Result ProcessList :=
  let '(t, p) := GetTimestamp p in
  let now := GetTimeMilli t in
  if vmIndex <? 0 then Panic
  else
    vm ← index (VMs p) vmIndex;
    if isnil (MMRequests vm) || negb (mapget (MMRequests vm) height)
       || (2000 <=? deltaT now vm) then
      if mapget (MMRequests vm) height
         && (INMSGQUEUE_MED <? inMsgQueue_Length (State_ p)) then Ok p
      else
        let p := SendOut (OutMissing (missingMsgRequest vmIndex (DBHeight p) vm)) p in
        let p := updVM vmIndex (set_MM (Some (freshRequests vm)) now) p in
        Ok (updState (λ st,
              set_MissingRequestAskCnt (int64 (MissingRequestAskCnt st + 1)) st) p)
    else Ok p.

(** ** Fault hooks *)

(** Modelled from the spec: [markFault], [markNoFault] and [FaultCheck] live in
    another file of the package. "markFault(p, i, flag) sets vm.whenFaulted =
    now (if zero) and vm.faultFlag = flag." *)
Definition markFault (i : Z) (flag : Z) (p : ProcessList) : Result ProcessList :=
  let '(t, p) := GetTimestamp p in
  vm ← index (VMs p) i;
  let whenFaulted := if WhenFaulted vm =? 0 then GetTimeMilli t else WhenFaulted vm in
  Ok (updVM i (set_Fault whenFaulted flag) p).

(** Modelled from the spec: "markNoFault(p, i) clears vm.whenFaulted and
    vm.faultFlag." *)
Definition markNoFault (i : Z) (p : ProcessList) : Result ProcessList :=
  vm ← index (VMs p) i;
  Ok (updVM i (set_Fault 0 0) p).

(** Modelled from the spec: "FaultCheck(p) is the periodic driver"; the
    election protocol is outside the core, which only sees that "elections
    messages are emitted through state.electionsQueue.enqueue(...)". The
    messages it emits are given by [FaultCheck_emits]. *)
Definition FaultCheck (p : ProcessList) : ProcessList :=
  foldl (λ p e, Enqueue e p) p (FaultCheck_emits (VMs p)).

(** ** The processor *)

(** How one turn of [VMListLoop] ends: the slot was processed and the loop
    goes on, the loop is left ([break VMListLoop]), or [Process] returns. *)
Inductive SlotOutcome : Type :=
  | Advance (p : ProcessList)
  | Break (p : ProcessList)
  | Return (p : ProcessList).

(** [vm.List[j] = nil]. *)
Definition clearSlot (i : Z) (j : Z) (p : ProcessList) : ProcessList :=
  updVM i (set_List (λ l, <[Z.to_nat j := None]> l)) p.

(** The body of [VMListLoop] from the entry-block gate on: the slot's ack has
    passed the serial-hash check. *)
Definition processSlot (i : Z) (j : Z) (msg : Msg) (p : ProcessList) : Result SlotOutcome :=
  vm ← index (VMs p) i;
  let diff := uint32 (DBHeight p - EntryDBHeightComplete (State_ p)) in
  if negb (WaitForEntries (State_ p))
     || ((LeaderMinute vm <? 2) && (diff <=? 3)) || (diff <=? 2) then
    next ← assign (NextHeightToProcess p) i (j + 1);
    let p := set_NextHeightToProcess next p in
    let '(now, p) := GetTimestamp p in
    if negb (Replay_Valid (Replay (State_ p)) (msg_RepeatHash msg) (msg_Timestamp msg) now)
    then Ok (Break (clearSlot i j p))
    else
      let p := updVM i (set_ProcessTime now) p in
      let '(ok, w) := MsgProcess msg (DBHeight p) (world (State_ p)) in
      let p := updState (set_world w) p in
      if ok then
        let p := updVM i (set_heartBeat 0) p in
        let p := updVM i (set_Height (j + 1)) p in
        let p := updState (λ st, set_Replay
          (Replay_IsTSValid_ (Replay st) (msg_RepeatHash msg) (msg_Timestamp msg) now) st) p in
        let p := updState (λ st, set_Replay
          (Replay_IsTSValid_ (Replay st) (msg_MsgHash msg) (msg_Timestamp msg) now) st) p in
        let p := updState (λ st, set_Acks (delete (msg_MsgHash msg) (Acks st)) st) p in
        let p := updState (λ st, set_Holding (delete (msg_MsgHash msg) (Holding st)) st) p in
        Ok (Advance p)
      else Ok (Break p)
  else Ok (Break p).

(** One turn of [VMListLoop] at slot [j] of VM [i]. A nil ack behind a
    non-nil message is a nil dereference. *)
Definition slot (i : Z) (j : Z) (p : ProcessList) : Result SlotOutcome :=
  vm ← index (VMs p) i;
  entry ← index (List vm) j;
  match entry with
  | None => p ← Ask i j p; Ok (Break p)
  | Some msg =>
      ack ← index (ListAck vm) j;
      match ack with
      | None => Panic
      | Some thisAck =>
          if Height vm =? 0 then processSlot i j msg p
          else
            lastAck ← index (ListAck vm) (Height vm - 1);
            match lastAck with
            | None => Panic
            | Some last =>
                match CreateHash (MessageHash last) (MessageHash thisAck) with
                | None =>
                    p ← Ask i j (clearSlot i j p);
                    Ok (Break p)
                | Some expectedSerialHash =>
                    if negb (bool_decide (expectedSerialHash = SerialHash thisAck))
                    then Ok (Return (State_Reset p))
                    else processSlot i j msg p
                end
            end
      end
  end.

(** How the loop over the slots of one VM ends. *)
Inductive Exit : Type := Fallthrough | Returned.

(** [VMListLoop]: [for j := vm.Height; j < len(vm.List); j++], from [j] on,
    with at most [fuel] turns. *)
Fixpoint VMListLoop (fuel : nat) (i : Z) (j : Z) (p : ProcessList) (progress : bool)
  : Result (Exit * ProcessList * bool) :=
  match fuel with
  | O => Ok (Fallthrough, p, progress)
  | S fuel' =>
      vm ← index (VMs p) i;
      if j <? len (List vm) then
        o ← slot i j p;
        match o with
        | Advance p' => VMListLoop fuel' i (j + 1) p' true
        | Break p' => Ok (Fallthrough, p', progress)
        | Return p' => Ok (Returned, p', progress)
        end
      else Ok (Fallthrough, p, progress)
  end.

(** The number of slots of VM [i] from [j] on: the turns the loop can take. *)
Definition slotsLeft (i : Z) (j : Z) (p : ProcessList) : nat :=
  match index (VMs p) i with
  | Ok vm => Z.to_nat (len (List vm) - j)
  | Panic => O
  end.

(** The part of the body of the loop over the federated servers that comes
    before [VMListLoop]: fault bookkeeping and the asks for a VM that is
    caught up. [now] was read before the loop. *)
Definition enterVM (i : Z) (now : Timestamp) (p : ProcessList) : Result ProcessList :=
  vm ← index (VMs p) i;
  p ← (if negb (Syncing (State_ p)) then markNoFault i p
       else if negb (Synced vm) then
              if WhenFaulted vm =? 0 then markFault i 0 p else Ok p
            else if FaultFlag vm =? 0 then markNoFault i p else Ok p);
  let p := FaultCheck p in
  vm ← index (VMs p) i;
  p ← (if (Height vm =? len (List vm)) && Syncing (State_ p) && negb (Synced vm)
       then Ask i (Height vm) p else Ok p);
  vm ← index (VMs p) i;
  if (Height vm =? len (List vm))
     && (2000 <? int64 (GetTimeMilli now - GetTimeMilli (ProcessTime vm)))
  then Ask i (Height vm) p else Ok p.

(** The loop over the federated servers:
    [for i := 0; i < len(p.FedServers); i++], from [i] on with [k] servers
    left. *)
Fixpoint FedLoop (k : nat) (i : Z) (now : Timestamp) (p : ProcessList) (progress : bool)
  : Result (bool * ProcessList) :=
  match k with
  | O => Ok (progress, p)
  | S k' =>
      p ← enterVM i now p;
      vm ← index (VMs p) i;
      r ← VMListLoop (slotsLeft i (Height vm) p) i (Height vm) p progress;
      match r with
      | (Returned, p, progress) => Ok (progress, p)
      | (Fallthrough, p, progress) => FedLoop k' (i + 1) now p progress
      end
  end.

(** [p.Process(state)], returning [progress]. *)
Definition Process (p : ProcessList) : Result (bool * ProcessList) :=
  let dbht := HighestSavedBlk (State_ p) in
  if DBHeight p <=? dbht then Ok (true, p)
  else
    let p := updState (set_PLProcessHeight (DBHeight p)) p in
    let '(now, p) := GetTimestamp p in
    FedLoop (length (FedServers p)) 0 now p false.

(** ** Admission *)

(** The closure [toss] of [AddToProcessList]. *)
Definition toss (ack : Ack) (p : ProcessList) : ProcessList :=
  let p := updState (λ st, set_Holding (delete (ack_Hash ack) (Holding st)) st) p in
  updState (λ st, set_Acks (delete (ack_Hash ack) (Acks st)) st) p.

(** Is slot [h] of [vm] already filled:
    [len(vm.List) > int(ack.Height) && vm.List[ack.Height] != nil]. *)
Definition filled (vm : VM) (h : nat) : option Msg :=
  if Z.of_nat h <? len (List vm) then mjoin (List vm !! h) else None.

(** [AddToProcessList] after the self-identity check. *)
Definition stage (ack : Ack) (m : Msg) (p : ProcessList) : Result ProcessList :=
  let '(now, p) := GetTimestamp p in
  vm ← index (VMs p) (VMIndex ack);
  let h := ack_Height ack in
  if negb (isnil (filled vm h))
     && negb (Replay_Valid (Replay (State_ p)) (msg_RepeatHash m) (msg_Timestamp m) now)
  then Ok (toss ack p)
  else if negb (ack_DBHeight ack =? DBHeight p) then Ok p
  else
    match filled vm h with
    | Some stored =>
        if bool_decide (msg_MsgHash stored = msg_MsgHash m) then Ok (toss ack p)
        else Ok (updVM (VMIndex ack) (set_List (λ l, <[h := None]> l)) p)
    | None =>
        let p := updVM (VMIndex ack) (set_heartBeat 0) p in
        let p := updState (λ st, set_Acks (delete (msg_MsgHash m) (Acks st)) st) p in
        let p := updState (λ st, set_Holding (delete (msg_MsgHash m) (Holding st)) st) p in
        let p := SendOut (OutMsgOf m) p in
        let p := SendOut (OutAck ack) p in
        let grow := (S h - length (List vm))%nat in
        let p := updVM (VMIndex ack) (set_List (λ l, l ++ replicate grow None)) p in
        let p := updVM (VMIndex ack) (set_ListAck (λ l, l ++ replicate grow None)) p in
        let p := updState (λ st, set_Acks (delete (msg_MsgHash m) (Acks st)) st) p in
        vm ← index (VMs p) (VMIndex ack);
        list ← assign (List vm) (Z.of_nat h) (Some m);
        let p := updVM (VMIndex ack) (set_List (λ _, list)) p in
        vm ← index (VMs p) (VMIndex ack);
        listAck ← assign (ListAck vm) (Z.of_nat h) (Some ack);
        let p := updVM (VMIndex ack) (set_ListAck (λ _, listAck)) p in
        let p := set_OldMsgs (<[msg_Hash m := m]> (OldMsgs p)) p in
        Ok (set_OldAcks (<[msg_MsgHash m := ack]> (OldAcks p)) p)
    end.

(** [p.AddToProcessList(ack, m)] for a non-nil [p] (a nil [p] returns at
    once); [ack] may be nil. *)
Definition AddToProcessList (ack : option Ack) (m : Msg) (p : ProcessList) : Result ProcessList :=
  match ack with
  | None => Ok p
  | Some ack =>
      if isnil (ack_MsgHash ack) then Ok p
      else
        let p :=
          if (HighestAck (State_ p) <? ack_DBHeight ack) && (0 <? Minute ack)
          then updState (set_HighestAck (ack_DBHeight ack)) p else p in
        if negb (Response ack)
           && bool_decide (LeaderChainID ack = IdentityChainID (State_ p)) then
          let '(now, p) := GetTimestamp p in
          if 120 <? int64 (GetTimeSeconds now - GetTimeSeconds (ack_Timestamp ack))
          then Ok p
          else if negb (GetSalt (ack_Timestamp ack) =? SaltNumber ack) then Panic
          else stage ack m p
        else stage ack m p
  end.

(** ** Construction *)

(** [NewProcessList(state, previous, dbheight)]. The block accumulators are
    opaque to this development and are not built. The bootstrap server is
    added while [DBHeight] is still zero, as in the source. The servers
    carried over are shared with [previous], whose copies the source marks
    online or offline too; [previous] is not returned here. *)
Definition NewProcessList (state : State) (previous : option ProcessList) (dbheight : Z)
  : Result ProcessList :=
  let pl := mkProcessList 0 state [] ServerMap_zero [] [] ∅ ∅ (replicate 64 0) in
  pl ← match previous with
       | Some previous =>
           let pl := set_FedServers (FedServers previous) pl in
           let pl := set_AuditServers
             ((λ a, mkServer (ChainID a)
                      (bool_decide (IdentityChainID state = ChainID a)))
                <$> AuditServers previous) pl in
           let pl := set_FedServers
             ((λ f, mkServer (ChainID f) true) <$> FedServers pl) pl in
           Ok (SortFedServers pl)
       | None =>
           r ← AddFedServer (NetworkBootStrapIdentity state) pl;
           Ok r.2
       end;
  let '(now, pl) := GetTimestamp pl in
  let pl := set_VMs (replicate 65 (newVM now)) pl in
  let pl := set_DBHeight dbheight pl in
  pl ← MakeMap_ pl;
  let pl := set_OldMsgs ∅ pl in
  Ok (set_OldAcks ∅ pl).

(** ** Histories *)

(** Two VMs with the same queue: the same messages, acks and height. The
    other fields (minute, sync and fault marks) belong to other writers. *)
Definition sameQueue (vm vm' : VM) : Prop :=
  List vm' = List vm ∧ ListAck vm' = ListAck vm ∧ Height vm' = Height vm.

(** The process lists a node can hold: built by [NewProcessList], then
    changed by admissions and processor runs, and in between by the rest of
    the node, which keeps the identity and the VM queues. *)
Inductive Reachable : ProcessList → Prop :=
  | reach_new state previous dbheight p :
      NewProcessList state previous dbheight = Ok p → Reachable p
  | reach_add p ack m p' :
      Reachable p → AddToProcessList ack m p = Ok p' → Reachable p'
  | reach_process p progress p' :
      Reachable p → Process p = Ok (progress, p') → Reachable p'
  | reach_outside p p' :
      Reachable p →
      IdentityChainID (State_ p') = IdentityChainID (State_ p) →
      Forall2 sameQueue (VMs p) (VMs p') →
      Reachable p'.

(** ** Readings and invariants *)

(** The timestamp that the next [GetTimestamp()] returns, and its
    milliseconds. *)
Definition nextTime (p : ProcessList) : Timestamp := clock (State_ p) (ticks (State_ p)).
Definition nextNow (p : ProcessList) : Z := GetTimeMilli (nextTime p).

(** [now.GetTimeSeconds() - ack.Timestamp.GetTimeSeconds()]. *)
Definition ackAge (now : Timestamp) (ack : Ack) : Z :=
  int64 (GetTimeSeconds now - GetTimeSeconds (ack_Timestamp ack)).

(** The invariant of a VM queue that the code keeps: the two slices have the
    same length, the height lies within them, a slot with a message has its
    ack, and every processed slot has its ack. *)
Definition VMInv (vm : VM) : Prop :=
  length (List vm) = length (ListAck vm)
  ∧ 0 ≤ Height vm ≤ len (List vm)
  ∧ (∀ (i : nat) m, List vm !! i = Some (Some m) → ∃ a, ListAck vm !! i = Some (Some a))
  ∧ (∀ i : nat, Z.of_nat i < Height vm → ∃ a, ListAck vm !! i = Some (Some a)).

(** The invariant as the specification words it: a slot is nil in [list]
    exactly when it is nil in [listAck], and every processed slot has both
    its message and its ack. *)
Definition VMInv_claimed (vm : VM) : Prop :=
  length (List vm) = length (ListAck vm)
  ∧ 0 ≤ Height vm ≤ len (List vm)
  ∧ (∀ i : nat, List vm !! i = Some None ↔ ListAck vm !! i = Some None)
  ∧ (∀ i : nat, Z.of_nat i < Height vm →
       (∃ m, List vm !! i = Some (Some m)) ∧ ∃ a, ListAck vm !! i = Some (Some a)).

(** An ack that passes the salt test of the self-identity check of a node
    with the given identity. *)
Definition saltOK (identity : Hash) (ack : Ack) : Prop :=
  Response ack = false → LeaderChainID ack = identity →
  GetSalt (ack_Timestamp ack) = SaltNumber ack.

(** A VM queue in good order, with every stored ack passing the salt test. *)
Definition QueueOK (identity : Hash) (vm : VM) : Prop :=
  VMInv vm ∧ ∀ (i : nat) a, ListAck vm !! i = Some (Some a) → saltOK identity a.

(** The pair [(ack, m)] is stored at slot [ack.Height] of VM [ack.VMIndex]. *)
Definition stored (p : ProcessList) (ack : Ack) (m : Msg) : Prop :=
  ∃ vm, index (VMs p) (VMIndex ack) = Ok vm
        ∧ List vm !! ack_Height ack = Some (Some m)
        ∧ ListAck vm !! ack_Height ack = Some (Some ack).

(** What every function below leaves alone: the federated servers, the
    height and the identity of the node. *)
Definition sameBase (p p' : ProcessList) : Prop :=
  FedServers p' = FedServers p ∧ DBHeight p' = DBHeight p
  ∧ IdentityChainID (State_ p') = IdentityChainID (State_ p).

(** [p'] is [p] up to [sameBase], except that VM [i] has changed as [R]
    allows. *)
Definition touches (i : Z) (R : VM → VM → Prop) (p p' : ProcessList) : Prop :=
  sameBase p p'
  ∧ ∃ vm vm', index (VMs p) i = Ok vm
              ∧ VMs p' = <[Z.to_nat i := vm']> (VMs p) ∧ R vm vm'.

(** The process list held by a slot outcome, and whether the slot was
    processed. *)
Definition outcome_list (o : SlotOutcome) : ProcessList :=
  match o with Advance p | Break p | Return p => p end.

Definition advanced (o : SlotOutcome) : bool :=
  match o with Advance _ => true | _ => false end.

(** What one turn of [VMListLoop] at slot [j] may do to its VM: the acks
    stay, slots are cleared at most, and the height moves to [j + 1] exactly
    when the slot, which then holds a message and an ack, was processed. *)
Definition slotR (j : Z) (adv : bool) (vm vm' : VM) : Prop :=
  ListAck vm' = ListAck vm
  ∧ length (List vm') = length (List vm)
  ∧ (∀ (k : nat) m, List vm' !! k = Some (Some m) → List vm !! k = Some (Some m))
  ∧ if adv then
      Height vm' = j + 1 ∧ 0 ≤ j ∧ List vm' = List vm
      ∧ (∃ m, List vm !! Z.to_nat j = Some (Some m))
      ∧ (∃ a, ListAck vm !! Z.to_nat j = Some (Some a))
    else Height vm' = Height vm.

(** ** The course of one [Process] call *)

(** Where a [Process] call is: at the head of the loop over the federated
    servers, about to test [i < len(p.FedServers)], or at the head of
    [VMListLoop] for VM [i], about to test [j < len(vm.List)]. *)
Inductive Loc : Type :=
  | AtVM (i : nat)
  | AtSlot (i : nat) (j : Z).

(** The reading of the clock that [Process] takes before its loop. *)
Definition Process_now (p0 : ProcessList) : Timestamp :=
  (GetTimestamp (updState (set_PLProcessHeight (DBHeight p0)) p0)).1.

(** [Reaches p0 loc p progress]: the call [Process] on [p0] arrives at [loc]
    with the process list [p] and the result variable [progress]. *)
Inductive Reaches (p0 : ProcessList) : Loc → ProcessList → bool → Prop :=
  | reaches_loop :
      (DBHeight p0 <=? HighestSavedBlk (State_ p0)) = false →
      Reaches p0 (AtVM 0)
        (GetTimestamp (updState (set_PLProcessHeight (DBHeight p0)) p0)).2 false
  | reaches_enter i p progress p' vm :
      Reaches p0 (AtVM i) p progress →
      (i < length (FedServers p))%nat →
      enterVM (Z.of_nat i) (Process_now p0) p = Ok p' →
      index (VMs p') (Z.of_nat i) = Ok vm →
      Reaches p0 (AtSlot i (Height vm)) p' progress
  | reaches_advance i j p progress vm p' :
      Reaches p0 (AtSlot i j) p progress →
      index (VMs p) (Z.of_nat i) = Ok vm →
      j < len (List vm) →
      slot (Z.of_nat i) j p = Ok (Advance p') →
      Reaches p0 (AtSlot i (j + 1)) p' true
  | reaches_break i j p progress vm p' :
      Reaches p0 (AtSlot i j) p progress →
      index (VMs p) (Z.of_nat i) = Ok vm →
      j < len (List vm) →
      slot (Z.of_nat i) j p = Ok (Break p') →
      Reaches p0 (AtVM (S i)) p' progress
  | reaches_end i j p progress vm :
      Reaches p0 (AtSlot i j) p progress →
      index (VMs p) (Z.of_nat i) = Ok vm →
      len (List vm) ≤ j →
      Reaches p0 (AtVM (S i)) p progress.

(** What [Process] still does from a place on. *)
Definition resume (now : Timestamp) (loc : Loc) (p : ProcessList) (progress : bool)
  : Result (bool * ProcessList) :=
  match loc with
  | AtVM i => FedLoop (length (FedServers p) - i) (Z.of_nat i) now p progress
  | AtSlot i j =>
      r ← VMListLoop (slotsLeft (Z.of_nat i) j p) (Z.of_nat i) j p progress;
      match r with
      | (Returned, p, progress) => Ok (progress, p)
      | (Fallthrough, p, progress) =>
          FedLoop (length (FedServers p) - S i) (Z.of_nat (S i)) now p progress
      end
  end.

End ProcessList.

Arguments State : clear implicits.
Arguments ProcessList : clear implicits.

(** ** Who leads which VM *)

(** [serverMap[minute][i]] on the [[10][64]int] table: either index out of
    range panics. *)
Definition ServerMap_at (serverMap : list (list Z)) (minute i : Z) : Result Z :=
  row ← index serverMap minute;
  index row i.

(** The loop of [FedServerVM]: [for i := 0; i < numberOfFedServers; i++],
    from [i] on with [k] turns left. *)
Fixpoint FedServerVM_loop (k : nat) (i : Z) (serverMap : list (list Z))
    (minute fedIndex : Z) : Result Z :=
  match k with
  | O => Ok (-1)
  | S k' =>
      fedix ← ServerMap_at serverMap minute i;
      if fedix =? fedIndex then Ok i
      else FedServerVM_loop k' (i + 1) serverMap minute fedIndex
  end.

(** [FedServerVM(serverMap, numberOfFedServers, minute, fedIndex)]. *)
Definition FedServerVM (serverMap : list (list Z))
    (numberOfFedServers minute fedIndex : Z) : Result Z :=
  FedServerVM_loop (Z.to_nat numberOfFedServers) 0 serverMap minute fedIndex.

(** A [DBSig]: a directory-block signature with the VM its signer leads in
    minute 0. The signature itself is opaque here. *)
Record DBSig : Type := mkDBSig {
  dbsig_ChainID : Hash;
  Signature : list byte;
  dbsig_VMIndex : Z
}.

(** The inner loop of [SortDBSigs]:
    [for j := 0; j < len(p.DBSignatures)-1-i; j++], for [k] turns from [j]. *)
Fixpoint SortDBSigs_inner (k : nat) (j : nat) (sigs : list DBSig) (done : bool)
  : list DBSig * bool :=
  match k with
  | O => (sigs, done)
  | S k' =>
      match sigs !! j, sigs !! S j with
      | Some s1, Some s2 =>
          if dbsig_VMIndex s2 <? dbsig_VMIndex s1 then
            SortDBSigs_inner k' (S j) (<[S j := s1]> (<[j := s2]> sigs)) false
          else SortDBSigs_inner k' (S j) sigs done
      | _, _ => (sigs, done)
      end
  end.

(** The outer loop of [SortDBSigs]: [for i := 0; i < len(p.DBSignatures)-1; i++],
    for [n] turns from [i], returning when a pass made no swap. *)
Fixpoint SortDBSigs_outer (n : nat) (i : nat) (sigs : list DBSig) : list DBSig :=
  match n with
  | O => sigs
  | S n' =>
      let '(sigs', done) := SortDBSigs_inner (length sigs - 1 - i) 0 sigs true in
      if done then sigs' else SortDBSigs_outer n' (S i) sigs'
  end.

Section Queries.

Context {ReplayT W : Type} `{!Outside ReplayT W}.
Implicit Types (p : ProcessList ReplayT W).

(** The loop of [GetVirtualServers]: [for i := 0; i < len(p.FedServers); i++],
    from [i] on with [k] turns left. *)
Fixpoint GetVirtualServers_loop (k : nat) (i : Z) p (minute fedIndex : Z)
  : Result (bool * Z) :=
  match k with
  | O => Ok (false, -1)
  | S k' =>
      fedix ← ServerMap_at (ServerMap p) minute i;
      if fedix =? fedIndex then Ok (true, i)
      else GetVirtualServers_loop k' (i + 1) p minute fedIndex
  end.

(** [p.GetVirtualServers(minute, identityChainID)]: the answer, and the
    process list, whose server map the call rebuilds. *)
Definition GetVirtualServers (minute : Z) (identityChainID : Hash) p
  : Result (bool * Z * ProcessList ReplayT W) :=
  let '(found, fedIndex) := GetFedServerIndexHash p identityChainID in
  if negb found then Ok (false, -1, p)
  else
    p ← MakeMap_ p;
    r ← GetVirtualServers_loop (length (FedServers p)) 0 p minute fedIndex;
    Ok (r, p).

(** [p.FedServerFor(minute, hash)]; [None] is the nil server. *)
Definition FedServerFor (minute : Z) (hash : list byte) p : Result (option Server) :=
  vs ← VMIndexFor p hash;
  if vs <? 0 then Ok None
  else
    fedIndex ← ServerMap_at (ServerMap p) minute vs;
    s ← index (FedServers p) fedIndex;
    Ok (Some s).

(** ** Reading the queues *)

(** [p.GetAckAt(vmIndex, height)]. *)
Definition GetAckAt (vmIndex height : Z) p : Result (option Ack) :=
  vm ← index (VMs p) vmIndex;
  if (height <? 0) || (len (ListAck vm) <=? height) then Ok None
  else index (ListAck vm) height.

(** [p.GetAck(vmIndex)]. *)
Definition GetAck (vmIndex : Z) p : Result (option Ack) :=
  vm ← index (VMs p) vmIndex;
  GetAckAt vmIndex (Height vm) p.

(** The loop of [HasMessage]: [for i := 0; i < len(p.FedServers); i++]. *)
Fixpoint HasMessage_loop (k : nat) (i : Z) p : Result bool :=
  match k with
  | O => Ok false
  | S k' =>
      vm ← index (VMs p) i;
      if 0 <? len (List vm) then Ok true else HasMessage_loop k' (i + 1) p
  end.

Definition HasMessage p : Result bool :=
  HasMessage_loop (length (FedServers p)) 0 p.

(** [p.AddOldMsgs(m)], [p.DeleteOldMsgs(key)] and [p.GetOldMsgs(key)]; the
    last one answers nil on a nil list. *)
Definition AddOldMsgs (m : Msg) p : ProcessList ReplayT W :=
  set_OldMsgs (<[msg_Hash m := m]> (OldMsgs p)) p.

Definition DeleteOldMsgs (key : Hash) p : ProcessList ReplayT W :=
  set_OldMsgs (delete key (OldMsgs p)) p.

Definition GetOldMsgs (key : Hash) (p : option (ProcessList ReplayT W)) : option Msg :=
  p ← p; OldMsgs p !! key.

(** The loop of [GetLeaderTimestamp] over [p.VMs[0].List]. A nil slot is a
    nil interface, and [msg.Type()] on it is a nil dereference. *)
Fixpoint GetLeaderTimestamp_loop (DIRECTORY_BLOCK_SIGNATURE_MSG : Z)
    (l : list (option Msg)) : Result Timestamp :=
  match l with
  | [] => Ok 0
  | None :: _ => Panic
  | Some msg :: l' =>
      if msg_Type msg =? DIRECTORY_BLOCK_SIGNATURE_MSG then Ok (msg_Timestamp msg)
      else GetLeaderTimestamp_loop DIRECTORY_BLOCK_SIGNATURE_MSG l'
  end.

(** [p.GetLeaderTimestamp()]. The message type
    [constants.DIRECTORY_BLOCK_SIGNATURE_MSG] is declared outside this file
    and is a parameter here; [new(primitives.Timestamp)] is the zero
    timestamp. *)
Definition GetLeaderTimestamp (DIRECTORY_BLOCK_SIGNATURE_MSG : Z) p : Result Timestamp :=
  vm ← index (VMs p) 0;
  GetLeaderTimestamp_loop DIRECTORY_BLOCK_SIGNATURE_MSG (List vm).

(** [p.TrimVMList(height, vmIndex)]. The slice expression [List[:height]]
    may reach past the length of the slice, up to its capacity: [spare] is
    what the backing array holds behind the slice, so the capacity is
    [len(List) + len(spare)], and a [height] above it panics. *)
Definition TrimVMList (height : Z) (vmIndex : Z) (spare : list (option Msg)) p
  : Result (ProcessList ReplayT W) :=
  vm ← index (VMs p) vmIndex;
  if negb (height <? uint32 (len (List vm))) then
    if len (List vm) + len spare <? height then Panic
    else Ok (updVM vmIndex (set_List (λ l, take (Z.to_nat height) (l ++ spare))) p)
  else Ok p.

(** ** Directory-block signatures *)

(** The fields of the [ProcessList] struct that hold the directory-block
    signatures and their tally, next to the fields of [ProcessList] above. *)
Record Signing : Type := mkSigning {
  PL : ProcessList ReplayT W;
  DBSignatures : list DBSig;
  diffSigTally : Z
}.

Definition set_PL (x : ProcessList ReplayT W) (s : Signing) : Signing :=
  mkSigning x (DBSignatures s) (diffSigTally s).
Definition set_DBSignatures (x : list DBSig) (s : Signing) : Signing :=
  mkSigning (PL s) x (diffSigTally s).
Definition set_diffSigTally (x : Z) (s : Signing) : Signing :=
  mkSigning (PL s) (DBSignatures s) x.

Definition ResetDiffSigTally (s : Signing) : Signing := set_diffSigTally 0 s.

Definition IncrementDiffSigTally (s : Signing) : Signing :=
  set_diffSigTally (int64 (diffSigTally s + 1)) s.

(** [p.CheckDiffSigTally()]; [len(p.FedServers)/2] truncates. *)
Definition CheckDiffSigTally (s : Signing) : bool :=
  if (0 <? diffSigTally s) && (len (FedServers (PL s)) `quot` 2 <? diffSigTally s)
  then false else true.

(** [p.SortDBSigs()]: by [VMIndex]. *)
Definition SortDBSigs (s : Signing) : Signing :=
  set_DBSignatures
    (SortDBSigs_outer (length (DBSignatures s) - 1) 0 (DBSignatures s)) s.

(** [p.ContainsDBSig(serverID)]. *)
Definition ContainsDBSig (serverID : Hash) (s : Signing) : bool :=
  existsb (λ dbsig, bool_decide (dbsig_ChainID dbsig = serverID)) (DBSignatures s).

(** [p.AddDBSig(serverID, sig)]. *)
Definition AddDBSig (serverID : Hash) (sig : list byte) (s : Signing) : Result Signing :=
  let '(found, _) := GetFedServerIndexHash (PL s) serverID in
  if negb found || ContainsDBSig serverID s then Ok s
  else
    r ← GetVirtualServers 0 serverID (PL s);
    let '(found, vmIndex, p) := r in
    let s := set_PL p s in
    if negb found then Ok s
    else
      let s := set_DBSignatures (DBSignatures s ++ [mkDBSig serverID sig vmIndex]) s in
      Ok (SortDBSigs s).

End Queries.

Arguments Signing : clear implicits.

(** ** A small node, for running the model *)

(** A replay filter that remembers the hashes it was shown, a hash that
    concatenates, and messages that always process. *)
#[local] Instance demo_Outside : Outside (list Hash) unit := {|
  Replay_Valid := λ r h _ _, bool_decide (h ∉ r);
  Replay_IsTSValid_ := λ r h _ _, h :: r;
  CreateHash := λ a b, Some (a ++ b);
  GetSalt := λ t, 7;
  MsgProcess := λ _ _ w, (true, w);
  INMSGQUEUE_MED := 2000;
  FaultCheck_emits := λ _, []
|}.

Abbreviation DemoList := (ProcessList (list Hash) unit).

(** Identity [01], bootstrap server [02], a clock that advances by one second
    per reading. *)
Definition demo_State : State (list Hash) unit :=
  mkState [x01] [x02] false false false 0 0 0 0 0 0 ∅ ∅ [] [] [] 0
    (λ k, 1000 * Z.of_nat k) 0 tt.

Definition demo_m0 : Msg := mkMsg [x10] [x11] [x12] 0 1.
Definition demo_m1 : Msg := mkMsg [x20] [x21] [x22] 0 1.
Definition demo_ack0 : Ack :=
  mkAck 0 1 0 [x11] [x11] [x02] 0 false 0 0 (Some [x30]) [x31].
Definition demo_ack1 : Ack :=
  mkAck 0 1 0 [x21] [x21] [x02] 0 false 0 0 (Some [x40]) [x41].

Definition unOk {A} (d : A) (r : Result A) : A :=
  match r with Ok a => a | Panic => d end.

Definition isOk {A} (r : Result A) : bool :=
  match r with Ok _ => true | Panic => false end.

(** The [progress] a [Process] call returned, if it returned. *)
Definition progressOf {A} (r : Result (bool * A)) : option bool :=
  match r with Ok (b, _) => Some b | Panic => None end.

(** The process list for height 1 of a node without a predecessor list. *)
Definition demo_new : Result DemoList := NewProcessList demo_State None 1.
Definition demo_empty : DemoList := mkProcessList 0 demo_State [] [] [] [] ∅ ∅ [].
Definition demo_p0 : DemoList := unOk demo_empty demo_new.

(** The table [MakeMap] builds for three servers at height 0: row [i] starts
    at [(i + 1) mod 3] and counts on, and the other 61 columns stay zero. *)
Definition rotation_3_0 : list (list Z) :=
  (λ i, ((λ j, (i + 1 + j) `mod` 3) <$> seqZ 0 3) ++ replicate 61 0) <$> seqZ 0 10.

(** The same list at height 1 once the block at height 1 is saved, with its
    only VM still at minute 0. *)
Definition demo_saved : DemoList :=
  set_State (mkState [x01] [x02] false false false 0 1 0 0 0 0 ∅ ∅ [] [] [] 0
               (λ k, 1000 * Z.of_nat k) 0 tt) demo_p0.

(** A list at height 1, not saved, whose only VM has closed minute 10 and
    processed its one message. *)
Definition demo_done : DemoList :=
  set_VMs [mkVM [Some demo_m0] [Some demo_ack0] 1 0 10 true 0 false 0 0 None 0 0] demo_p0.

(** Ascending order of servers: by the bytes of their chain-ids. *)
Definition chainLe (a b : Server) : Prop :=
  bytes_Compare (ChainID a) (ChainID b) ≤ 0.

Definition ascending (servers : list Server) : Prop := Sorted chainLe servers.

(** The chain-ids of a list of servers. *)
Definition ids (servers : list Server) : list Hash := ChainID <$> servers.

(** One pass of [SortServers] over the first [k + 1] servers, by recursion
    on the list instead of by index: the larger of two neighbours is carried
    forward. Returns the list and whether no swap was made. *)
Fixpoint bubble (k : nat) (l : list Server) : list Server * bool :=
  match k, l with
  | S k', a :: b :: t =>
      if 0 <? bytes_Compare (ChainID a) (ChainID b)
      then (b :: (bubble k' (a :: t)).1, false)
      else (a :: (bubble k' (b :: t)).1, (bubble k' (b :: t)).2)
  | _, _ => (l, true)
  end.

(** Chain-ids are unique within each membership list and no chain-id is in
    both. *)
Definition MembersOK {ReplayT W} (p : ProcessList ReplayT W) : Prop :=
  NoDup (ids (FedServers p)) ∧ NoDup (ids (AuditServers p))
  ∧ ∀ id, id ∈ ids (FedServers p) → id ∉ ids (AuditServers p).

(** [l'] is [l] without the first server whose chain-id is [id], if any. *)
Definition removed (id : Hash) (l l' : list Server) : Prop :=
  ((id ∉ ids l) ∧ l' = l)
  ∨ ∃ pre s post, l = pre ++ s :: post ∧ ChainID s = id ∧ (id ∉ ids pre)
                  ∧ l' = pre ++ post.

(** Federated servers [02] and audit server [03]; [01] sorts before [02]. *)
Definition demo_members : DemoList :=
  set_AuditServers [mkServer [x03] true] demo_p0.

(** A short history: the first message is staged at slot 0 of VM 0 and
    processed, and then a different message arrives for the same slot. *)
Definition demo_p1 : DemoList :=
  unOk demo_p0 (AddToProcessList (Some demo_ack0) demo_m0 demo_p0).
Definition demo_p2 : DemoList :=
  (unOk (false, demo_p1) (Process demo_p1)).2.
Definition demo_p3 : DemoList :=
  unOk demo_p2 (AddToProcessList (Some demo_ack1) demo_m1 demo_p2).

(** An ack for slot 1 of VM 0 whose serial hash is not the hash of the
    message hashes of slots 0 and 1, with its message; and the process list
    in which both slots are staged. *)
Definition demo_ackBad : Ack :=
  mkAck 0 1 1 [x21] [x21] [x02] 0 false 0 0 (Some [x40]) [x41].
Definition demo_bad : DemoList :=
  unOk demo_p1 (AddToProcessList (Some demo_ackBad) demo_m1 demo_p1).

(** The course of [Process] on [demo_bad]: into the loop, into VM 0, past
    slot 0. *)
Definition demo_bad_a : DemoList :=
  (GetTimestamp (updState (set_PLProcessHeight (DBHeight demo_bad)) demo_bad)).2.
Definition demo_bad_b : DemoList :=
  unOk demo_bad (enterVM 0 (Process_now demo_bad) demo_bad_a).
Definition demo_bad_c : DemoList :=
  outcome_list (unOk (Break demo_bad_b) (slot 0 0 demo_bad_b)).

Definition isAdvance {ReplayT W} (r : Result (@SlotOutcome ReplayT W)) : bool :=
  match r with Ok (Advance _) => true | _ => false end.

(** The sum of the bytes of a hash, as a number. *)
Definition byteSum (hash : list byte) : Z :=
  foldr (λ b acc, byteval b + acc) 0 hash.

(** A list whose only VM asked for its next slot, height 0, at time 0, with a
    congested inbound queue; three seconds pass before the next reading of
    the clock. *)
Definition demo_congested : DemoList :=
  set_State (mkState [x01] [x02] false false false 0 0 0 0 0 2001 ∅ ∅ [] [] [] 0
               (λ k, 3000 + 1000 * Z.of_nat k) 0 tt)
    (set_VMs [mkVM [] [] 0 0 0 true 0 false 0 0 (Some {[0 := true]}) 0 0] demo_p0).

(** The same VM with a quiet inbound queue. *)
Definition demo_quiet : DemoList :=
  set_State (mkState [x01] [x02] false false false 0 0 0 0 0 0 ∅ ∅ [] [] [] 0
               (λ k, 3000 + 1000 * Z.of_nat k) 0 tt)
    (set_VMs [mkVM [] [] 0 0 0 true 0 false 0 0 (Some {[0 := true]}) 0 0] demo_p0).

(** Acks written by this node itself (leader [01]) at time 0 carrying salt
    number 0, while the node's salt number is 7: one whose own hash cannot be
    computed, and one that is well formed. *)
Definition demo_selfNoHash : Ack :=
  mkAck 0 1 0 [x11] [x11] [x01] 0 false 0 0 None [x31].
Definition demo_selfBadSalt : Ack :=
  mkAck 0 1 0 [x11] [x11] [x01] 0 false 0 0 (Some [x30]) [x31].

(** ** Relations between process lists *)

(** Ascending order of signatures: by VM index. *)
Definition sigLe (a b : DBSig) : Prop := dbsig_VMIndex a ≤ dbsig_VMIndex b.

(** One pass of [SortDBSigs] over the first [k + 1] signatures, by recursion
    on the list. Returns the list and whether no swap was made. *)
Fixpoint bubbleSigs (k : nat) (l : list DBSig) : list DBSig * bool :=
  match k, l with
  | S k', a :: b :: t =>
      if dbsig_VMIndex b <? dbsig_VMIndex a
      then (b :: (bubbleSigs k' (a :: t)).1, false)
      else (a :: (bubbleSigs k' (b :: t)).1, (bubbleSigs k' (b :: t)).2)
  | _, _ => (l, true)
  end.

(** The chain-ids of the signers. *)
Definition signers (sigs : list DBSig) : list Hash := dbsig_ChainID <$> sigs.

Section Relations.

Context {ReplayT W : Type} `{!Outside ReplayT W}.
Implicit Types (p : ProcessList ReplayT W) (vm : VM).

(** The server map is the one [MakeMap] builds for the present federated
    servers and height. *)
Definition MapFresh p : Prop :=
  MakeMap (len (FedServers p)) (DBHeight p) = Ok (ServerMap p).

(** What an admission for slot [h] may do to its VM: the height and the
    fields of the other writers stay, the two slices do not shrink, and no
    other slot changes. *)
Definition admits (h : nat) (vm vm' : VM) : Prop :=
  Height vm' = Height vm
  ∧ (length (List vm) ≤ length (List vm'))%nat
  ∧ (length (ListAck vm) ≤ length (ListAck vm'))%nat
  ∧ (∀ j : nat, j ≠ h →
       ((j < length (List vm))%nat → List vm' !! j = List vm !! j)
       ∧ ((j < length (ListAck vm))%nat → ListAck vm' !! j = ListAck vm !! j))
  ∧ EomMinuteIssued vm' = EomMinuteIssued vm ∧ LeaderMinute vm' = LeaderMinute vm
  ∧ Synced vm' = Synced vm ∧ Signed vm' = Signed vm
  ∧ WhenFaulted vm' = WhenFaulted vm ∧ FaultFlag vm' = FaultFlag vm
  ∧ MMRequests vm' = MMRequests vm ∧ MM_AskTime vm' = MM_AskTime vm
  ∧ ProcessTime vm' = ProcessTime vm.

(** The parts of a process list that neither admission nor the processor
    writes. *)
Definition sameLists p p' : Prop :=
  FedServers p' = FedServers p ∧ AuditServers p' = AuditServers p
  ∧ ServerMap p' = ServerMap p ∧ DBHeight p' = DBHeight p.

(** What a [Process] call may do to a VM queue: the acks and the length of
    the list stay, slots are cleared at most, the height does not go back,
    and every slot the height has passed held a message and an ack. *)
Definition runs (vm vm' : VM) : Prop :=
  ListAck vm' = ListAck vm
  ∧ length (List vm') = length (List vm)
  ∧ (∀ (k : nat) m, List vm' !! k = Some (Some m) → List vm !! k = Some (Some m))
  ∧ Height vm ≤ Height vm'
  ∧ (∀ k : nat, Height vm ≤ Z.of_nat k < Height vm' →
       (∃ m, List vm !! k = Some (Some m)) ∧ ∃ a, ListAck vm !! k = Some (Some a)).

(** Some VM has a greater height in [l'] than in [l]. *)
Definition moved (l l' : list VM) : Prop :=
  ∃ (n : nat) vm vm', l !! n = Some vm ∧ l' !! n = Some vm' ∧ Height vm < Height vm'.

(** Is an outbound message a missing-message request? *)
Definition isMissing (o : OutMsg) : Prop :=
  match o with OutMissing _ => True | _ => False end.

(** What [Process] and [Ask] leave of a process list outside the VMs: the
    servers, the map, the height and the archives stay; the clock is only
    read; the outbound traffic grows by missing-message requests and the
    elections queue grows at its end. *)
Definition keeps p p' : Prop :=
  sameLists p p'
  ∧ OldMsgs p' = OldMsgs p ∧ OldAcks p' = OldAcks p
  ∧ HighestSavedBlk (State_ p') = HighestSavedBlk (State_ p)
  ∧ HighestAck (State_ p') = HighestAck (State_ p)
  ∧ clock (State_ p') = clock (State_ p)
  ∧ (ticks (State_ p) ≤ ticks (State_ p'))%nat
  ∧ (∃ out, sent (State_ p') = out ++ sent (State_ p) ∧ Forall isMissing out)
  ∧ (∃ es, electionsQueue (State_ p') = electionsQueue (State_ p) ++ es).

(** The fields of a VM that [Ask] does not write. *)
Definition sameButAsk (vm vm' : VM) : Prop :=
  sameQueue vm vm'
  ∧ EomMinuteIssued vm' = EomMinuteIssued vm ∧ LeaderMinute vm' = LeaderMinute vm
  ∧ Synced vm' = Synced vm ∧ heartBeat vm' = heartBeat vm ∧ Signed vm' = Signed vm
  ∧ WhenFaulted vm' = WhenFaulted vm ∧ FaultFlag vm' = FaultFlag vm
  ∧ ProcessTime vm' = ProcessTime vm.

End Relations.

(** Two servers out of order. *)
Definition demo_two : list Server := [mkServer [x02] true; mkServer [x01] false].

(** [demo_members] after [AddFedServer] of the new id [01]. *)
Definition demo_added : DemoList :=
  (unOk (0, demo_members) (AddFedServer [x01] demo_members)).2.

(** An ack for height 2, while the demo lists are for height 1. *)
Definition demo_ackOther : Ack :=
  mkAck 0 2 0 [x11] [x11] [x02] 0 false 0 0 (Some [x30]) [x31].

(** [demo_quiet] after a late [Ask] for slot 0 of VM 0. *)
Definition demo_asked : DemoList := unOk demo_quiet (Ask 0 0 demo_quiet).

(** [demo_done] after a [Process] call. *)
Definition demo_rest : DemoList := (unOk (false, demo_done) (Process demo_done)).2.

(** No signature yet and an empty tally, on [demo_members]. *)
Definition demo_signing : Signing (list Hash) unit := mkSigning demo_members [] 0.

(** ** Properties *)

Section Theory.

Context {ReplayT W : Type} `{!Outside ReplayT W}.
Implicit Types (p : ProcessList ReplayT W) (st : State ReplayT W).
Implicit Types (vm : VM) (ack : Ack) (m : Msg).

(** The powers of two that bound the machine integers, as numerals. *)
Ltac pow2 :=
  change (2 ^ 32) with 4294967296 in *;
  change (2 ^ 56) with 72057594037927936 in *;
  change (2 ^ 63) with 9223372036854775808 in *;
  change (2 ^ 64) with 18446744073709551616 in *.

(** *** Panics and indexing *)

Lemma bind_Ok {A B} (f : A → Result B) (r : Result A) (b : B) :
  r ≫= f = Ok b ↔ ∃ a, r = Ok a ∧ f a = Ok b.
Proof.
  destruct r as [a|]; simpl; split.
  - intros E. exists a. done.
  - intros (a' & [= ->] & E). done.
  - discriminate.
  - intros (a' & [=] & _).
Qed.

Lemma index_Ok {A} (l : list A) (i : Z) (x : A) :
  index l i = Ok x ↔ 0 ≤ i ∧ l !! Z.to_nat i = Some x.
Proof.
  unfold index. destruct (Z.ltb_spec i 0).
  - split; [discriminate | lia].
  - destruct (l !! Z.to_nat i) eqn:E; split.
    + intros [= ->]. done.
    + intros [_ [= ->]]. done.
    + discriminate.
    + intros [_ [=]].
Qed.

Lemma index_nat {A} (l : list A) (i : nat) (x : A) :
  l !! i = Some x → index l (Z.of_nat i) = Ok x.
Proof. intros E. apply index_Ok. rewrite Nat2Z.id. split; [lia | done]. Qed.

Lemma index_insert_eq {A} (l : list A) (i : Z) (x : A) :
  0 ≤ i → (Z.to_nat i < length l)%nat → index (<[Z.to_nat i := x]> l) i = Ok x.
Proof. intros Hi Hlt. apply index_Ok. split; [done|]. by apply list_lookup_insert_eq. Qed.

Lemma assign_Ok {A} (l : list A) (i : Z) (x : A) (l' : list A) :
  assign l i x = Ok l' ↔ 0 ≤ i < len l ∧ l' = <[Z.to_nat i := x]> l.
Proof.
  unfold assign, len.
  destruct (Z.ltb_spec i 0), (Z.leb_spec (Z.of_nat (length l)) i); simpl;
    (split; [first [discriminate | intros [= <-]; split; [lia | done]]
            | intros [? ->]; first [lia | done]]).
Qed.

(** *** The minute-to-leader map *)

(** C6 (as amended): [MakeMap] with three federated servers at height 0 fills
    row 0 with 1,2,0 and row 1 with 2,0,1: each row starts one further than
    the previous one, because [indx] is advanced once more at the start of
    every row. The whole table is the rotation whose row [i] starts at
    [(i + 1) mod 3]. *)
Theorem MakeMap_3_0 :
  MakeMap 3 0 = Ok rotation_3_0
  ∧ take 3 <$> rotation_3_0 !! 0%nat = Some [1; 2; 0]
  ∧ take 3 <$> rotation_3_0 !! 1%nat = Some [2; 0; 1].
Proof. split; [|split]; vm_compute; reflexivity. Qed.

(** *** Completion *)

Lemma Complete_loop_spec p (k : nat) (i : nat) :
  (i + k ≤ length (VMs p))%nat →
  ∃ b, Complete_loop k (Z.of_nat i) p = Ok b
       ∧ (b = true ↔
          ∀ j vm, (i ≤ j < i + k)%nat → VMs p !! j = Some vm →
                  ¬ LeaderMinute vm < 10 ∧ ¬ Height vm < len (List vm)).
Proof.
  revert i. induction k as [|k IH]; intros i Hlen.
  - exists true. split; [done|]. split; [|done]. intros _ j vm Hj. lia.
  - destruct (lookup_lt_is_Some_2 (VMs p) i) as [vm Hvm]; [lia|].
    simpl. rewrite (index_nat _ _ _ Hvm). simpl.
    destruct (Z.ltb_spec (LeaderMinute vm) 10) as [Hm|Hm].
    { exists false. split; [done|]. split; [done|]. intros Hall.
      destruct (Hall i vm) as [Hm' _]; [lia|done|]. lia. }
    destruct (Z.ltb_spec (Height vm) (len (List vm))) as [Hh|Hh].
    { exists false. split; [done|]. split; [done|]. intros Hall.
      destruct (Hall i vm) as [_ Hh']; [lia|done|]. lia. }
    destruct (IH (S i)) as (b & Hb & Hiff); [lia|].
    exists b. replace (Z.of_nat i + 1) with (Z.of_nat (S i)) by lia.
    split; [done|]. rewrite Hiff. split.
    + intros Hall j vm' Hj Hvm'. destruct (decide (j = i)) as [->|Hne].
      * rewrite Hvm in Hvm'. injection Hvm' as <-. lia.
      * apply (Hall j); [lia|done].
    + intros Hall j vm' Hj Hvm'. apply (Hall j); [lia|done].
Qed.

(** C7 (as amended): for a process list whose block is not yet saved, with
    a VM for every federated server, and whose active VMs respect
    [leaderMinute <= 10] and [height <= len(list)], [Complete()] answers, and
    answers true exactly when every active VM has [leaderMinute == 10] and
    [height == len(list)]. *)
Theorem Complete_iff p :
  (length (FedServers p) ≤ length (VMs p))%nat →
  HighestSavedBlk (State_ p) < DBHeight p →
  (∀ i vm, (i < length (FedServers p))%nat → VMs p !! i = Some vm →
           LeaderMinute vm ≤ 10 ∧ Height vm ≤ len (List vm)) →
  ∃ b, Complete (Some p) = Ok b
       ∧ (b = true ↔
          ∀ i vm, (i < length (FedServers p))%nat → VMs p !! i = Some vm →
                  LeaderMinute vm = 10 ∧ Height vm = len (List vm)).
Proof.
  intros Hlen Hsaved Hbounds. unfold Complete.
  destruct (Z.leb_spec (DBHeight p) (HighestSavedBlk (State_ p))); [lia|].
  destruct (Complete_loop_spec p (length (FedServers p)) 0) as (b & Hb & Hiff); [lia|].
  exists b. split; [exact Hb|]. rewrite Hiff. split.
  - intros Hall i vm Hi Hvm. destruct (Hall i vm) as [? ?]; [lia|done|].
    destruct (Hbounds i vm Hi Hvm). lia.
  - intros Hall i vm Hi Hvm. destruct (Hall i vm) as [? ?]; [lia|done|]. lia.
Qed.

(** C10: [Complete()] on a nil process list is false, and once the block at
    this height is saved it is true whatever the VMs hold. *)
Theorem Complete_nil_saved :
  Complete (@None (ProcessList ReplayT W)) = Ok false
  ∧ ∀ p, DBHeight p ≤ HighestSavedBlk (State_ p) → Complete (Some p) = Ok true.
Proof.
  split; [reflexivity|]. intros p Hsaved. unfold Complete.
  destruct (Z.leb_spec (DBHeight p) (HighestSavedBlk (State_ p))); [done|lia].
Qed.

(** *** The VM index of a hash *)

Lemma byteval_bounds (b : byte) : 0 ≤ byteval b < 256.
Proof. unfold byteval. pose proof (Byte.to_N_bounded b). lia. Qed.

Lemma byteSum_bounds (hash : list byte) : 0 ≤ byteSum hash ≤ 255 * len hash.
Proof.
  unfold len. induction hash as [|b hash IH]; simpl; [lia|].
  pose proof (byteval_bounds b). lia.
Qed.

Lemma sumBytes_no_wrap (hash : list byte) (v : Z) :
  0 ≤ v → v + byteSum hash < 2 ^ 64 →
  foldl (λ v b, uint64 (v + byteval b)) v hash = v + byteSum hash.
Proof.
  revert v. induction hash as [|b hash IH]; intros v Hv Hsum; simpl in *; [lia|].
  pose proof (byteval_bounds b). pose proof (byteSum_bounds hash).
  unfold uint64 at 2. rewrite Z.mod_small by (pow2; lia).
  rewrite IH by lia. lia.
Qed.

(** C9: in single-leader mode [VMIndexFor] is 0; otherwise, with at least one
    federated server, it is the sum of the hash's bytes modulo the number of
    federated servers, a value in [0, len(fedServers)). It depends on nothing
    but the mode, the bytes and that number. The bounds on the two lengths
    hold of every Go slice. *)
Theorem VMIndexFor_spec p (hash : list byte) :
  (OneLeader (State_ p) = true → VMIndexFor p hash = Ok 0)
  ∧ (OneLeader (State_ p) = false →
     0 < len (FedServers p) < 2 ^ 63 → len hash < 2 ^ 56 →
     VMIndexFor p hash = Ok (byteSum hash `mod` len (FedServers p))
     ∧ 0 ≤ byteSum hash `mod` len (FedServers p) < len (FedServers p))
  ∧ (∀ p', OneLeader (State_ p') = OneLeader (State_ p) →
           length (FedServers p') = length (FedServers p) →
           VMIndexFor p' hash = VMIndexFor p hash).
Proof.
  split; [|split].
  - intros H1. unfold VMIndexFor. by rewrite H1.
  - intros H1 Hn Hh. pose proof (byteSum_bounds hash) as Hb.
    assert (Hmod : 0 ≤ byteSum hash `mod` len (FedServers p) < len (FedServers p))
      by (apply Z.mod_pos_bound; lia).
    split; [|done]. unfold VMIndexFor. rewrite H1.
    unfold sumBytes. rewrite sumBytes_no_wrap by (pow2; lia). simpl.
    unfold uint64. rewrite (Z.mod_small (len _)) by (pow2; lia).
    destruct (Z.eqb_spec (len (FedServers p)) 0); [lia|].
    f_equal. unfold int64. rewrite Z.add_0_l.
    rewrite (Z.mod_small (_ + _)) by (pow2; lia). lia.
  - intros p' H1 Hn. unfold VMIndexFor, len. by rewrite H1, Hn.
Qed.

(** *** The missing-message scheduler *)

Lemma nilSlots_elem (l : list (option Msg)) (i0 k : Z) :
  k ∈ nilSlots i0 l ↔ i0 ≤ k ∧ l !! Z.to_nat (k - i0) = Some None.
Proof.
  revert i0. induction l as [|[m|] l IH]; intros i0; simpl.
  - rewrite elem_of_nil. split; [done|]. intros [_ E]. by rewrite lookup_nil in E.
  - rewrite IH. split.
    + intros [Hk E]. split; [lia|].
      replace (Z.to_nat (k - i0)) with (S (Z.to_nat (k - (i0 + 1)))) by lia. done.
    + intros [Hk E]. destruct (Z.to_nat (k - i0)) as [|n] eqn:En; [done|].
      split; [lia|]. simpl in E. by replace (Z.to_nat (k - (i0 + 1))) with n by lia.
  - rewrite elem_of_cons, IH. split.
    + intros [->|[Hk E]].
      * split; [lia|]. by rewrite Z.sub_diag.
      * split; [lia|].
        replace (Z.to_nat (k - i0)) with (S (Z.to_nat (k - (i0 + 1)))) by lia. done.
    + intros [Hk E]. destruct (Z.to_nat (k - i0)) as [|n] eqn:En.
      * left. lia.
      * right. split; [lia|]. simpl in E.
        by replace (Z.to_nat (k - (i0 + 1))) with n by lia.
Qed.

Lemma foldl_insert_true (l : list Z) (r0 : gmap Z bool) (k : Z) :
  foldl (λ r i, <[i := true]> r) r0 l !! k
  = if decide (k ∈ l) then Some true else r0 !! k.
Proof.
  revert r0. induction l as [|i l IH]; intros r0; cbn [foldl].
  - destruct (decide (k ∈ [])) as [Hk|Hk]; [by apply elem_of_nil in Hk|done].
  - rewrite IH.
    destruct (decide (k ∈ l)) as [Hl|Hl], (decide (k ∈ i :: l)) as [Hc|Hc]; try done.
    + exfalso. apply Hc. by right.
    + apply elem_of_cons in Hc as [->|?]; [|done]. by rewrite lookup_insert_eq.
    + rewrite lookup_insert_ne; [done|]. intros ->. apply Hc. by left.
Qed.

Lemma freshRequests_get vm (k : Z) :
  mapget (Some (freshRequests vm)) k = true
  ↔ k = len (List vm) ∨ k ∈ nilSlots 0 (List vm).
Proof.
  unfold mapget, freshRequests. rewrite foldl_insert_true.
  case_decide as Hk; simpl; [tauto|].
  destruct (decide (k = len (List vm))) as [->|Hne].
  - rewrite lookup_insert_eq. simpl. tauto.
  - rewrite lookup_insert_ne, lookup_empty by done. simpl. split; [done|tauto].
Qed.

Lemma Ask_quiet p (i h : Z) vm :
  0 ≤ i → VMs p !! Z.to_nat i = Some vm →
  mapget (MMRequests vm) h = true →
  deltaT (nextNow p) vm < 2000 ∨ INMSGQUEUE_MED < inMsgQueue_Length (State_ p) →
  Ask i h p = Ok (GetTimestamp p).2.
Proof.
  intros Hi Hvm Hreq Hcase. unfold Ask, GetTimestamp. simpl.
  destruct (Z.ltb_spec i 0); [lia|].
  assert (Hidx : index (VMs p) i = Ok vm) by (by apply index_Ok).
  rewrite Hidx. simpl. rewrite Hreq. simpl.
  destruct (MMRequests vm) as [r|]; [|done]. simpl.
  change (GetTimeMilli (clock (State_ p) (ticks (State_ p)))) with (nextNow p).
  destruct (Z.leb_spec 2000 (deltaT (nextNow p) vm)); [|done].
  destruct (Z.ltb_spec INMSGQUEUE_MED (inMsgQueue_Length (State_ p))); [done|lia].
Qed.

Lemma Ask_sends p (i h : Z) vm :
  0 ≤ i → VMs p !! Z.to_nat i = Some vm →
  mapget (MMRequests vm) h = false
  ∨ (2000 ≤ deltaT (nextNow p) vm
     ∧ inMsgQueue_Length (State_ p) ≤ INMSGQUEUE_MED) →
  ∃ p', Ask i h p = Ok p'
    ∧ sent (State_ p') = OutMissing (missingMsgRequest i (DBHeight p) vm) :: sent (State_ p)
    ∧ VMs p' = <[Z.to_nat i := set_MM (Some (freshRequests vm)) (nextNow p) vm]> (VMs p)
    ∧ MissingRequestAskCnt (State_ p') = int64 (MissingRequestAskCnt (State_ p) + 1)
    ∧ ticks (State_ p') = S (ticks (State_ p))
    ∧ clock (State_ p') = clock (State_ p)
    ∧ DBHeight p' = DBHeight p.
Proof.
  intros Hi Hvm Hcase. unfold Ask, GetTimestamp. simpl.
  destruct (Z.ltb_spec i 0); [lia|].
  assert (Hidx : index (VMs p) i = Ok vm) by (by apply index_Ok).
  rewrite Hidx. simpl.
  change (GetTimeMilli (clock (State_ p) (ticks (State_ p)))) with (nextNow p).
  assert (Hgo : isnil (MMRequests vm) || negb (mapget (MMRequests vm) h)
                || (2000 <=? deltaT (nextNow p) vm) = true).
  { destruct Hcase as [->|[Hd _]].
    - by rewrite orb_true_r.
    - apply Z.leb_le in Hd. rewrite Hd. by rewrite orb_true_r. }
  rewrite Hgo.
  assert (Hbp : mapget (MMRequests vm) h
                && (INMSGQUEUE_MED <? inMsgQueue_Length (State_ p)) = false).
  { destruct Hcase as [->|[_ Hq]]; [done|].
    apply Z.ltb_ge in Hq. rewrite Hq. by rewrite andb_false_r. }
  rewrite Hbp. eexists. split; [reflexivity|]. simpl.
  repeat split. unfold updVM. simpl.
  apply list_eq. intros j. destruct (decide (j = Z.to_nat i)) as [->|Hne].
  - rewrite list_lookup_alter_eq, Hvm. simpl.
    rewrite list_lookup_insert_eq; [reflexivity|]. by eapply lookup_lt_Some.
  - rewrite list_lookup_alter_ne, list_lookup_insert_ne by done. done.
Qed.

(** C8 (as amended): [Ask] is throttled per VM slot. For a VM whose
    [mmRequests] already records height [h]: a call less than 2000 ms after
    [mmAskTime] sends nothing and changes nothing but the clock reading; so
    does a call made while the inbound queue is longer than
    [INMSGQUEUE_MED], however late; a call 2000 ms or more after [mmAskTime]
    with the queue at or below that bound sends one [MissingMsg] that asks
    for [len(list)] and lists every nil slot, sets [mmAskTime] to now,
    replaces [mmRequests] by a map holding [len(list)] and every nil slot,
    and increments [missingRequestAskCnt]. After a first [Ask(i, h)] for the
    next slot or a nil slot, a second one less than 2000 ms later sends
    nothing: two calls, one request. *)
Theorem Ask_throttle p (i h : Z) vm :
  0 ≤ i → VMs p !! Z.to_nat i = Some vm →
  (mapget (MMRequests vm) h = true →
     (deltaT (nextNow p) vm < 2000 → Ask i h p = Ok (GetTimestamp p).2)
   ∧ (INMSGQUEUE_MED < inMsgQueue_Length (State_ p) → Ask i h p = Ok (GetTimestamp p).2)
   ∧ (2000 ≤ deltaT (nextNow p) vm →
      inMsgQueue_Length (State_ p) ≤ INMSGQUEUE_MED →
      ∃ p', Ask i h p = Ok p'
        ∧ sent (State_ p')
          = OutMissing (mkMissingMsg i (DBHeight p) (uint32 (len (List vm)))
                          (uint32 <$> nilSlots 0 (List vm))) :: sent (State_ p)
        ∧ VMs p' !! Z.to_nat i
          = Some (set_MM (Some (freshRequests vm)) (nextNow p) vm)
        ∧ MissingRequestAskCnt (State_ p')
          = int64 (MissingRequestAskCnt (State_ p) + 1)))
  ∧ (∀ k, k ∈ nilSlots 0 (List vm) ↔ 0 ≤ k ∧ List vm !! Z.to_nat k = Some None)
  ∧ (∀ k, mapget (Some (freshRequests vm)) k = true
          ↔ k = len (List vm) ∨ k ∈ nilSlots 0 (List vm))
  ∧ (mapget (MMRequests vm) h = false →
     h = len (List vm) ∨ h ∈ nilSlots 0 (List vm) →
     int64 (clock (State_ p) (S (ticks (State_ p)))
            - clock (State_ p) (ticks (State_ p))) < 2000 →
     ∃ p1 p2, Ask i h p = Ok p1 ∧ Ask i h p1 = Ok p2
       ∧ sent (State_ p1)
         = OutMissing (missingMsgRequest i (DBHeight p) vm) :: sent (State_ p)
       ∧ sent (State_ p2) = sent (State_ p1)).
Proof.
  intros Hi Hvm. split; [|split; [|split]].
  - intros Hreq. split; [|split].
    + intros Hd. apply (Ask_quiet p i h vm); auto.
    + intros Hq. apply (Ask_quiet p i h vm); auto.
    + intros Hd Hq. destruct (Ask_sends p i h vm) as (p' & E & Hs & Hv & Hc & _); auto.
      exists p'. split; [done|]. split; [done|]. split; [|done].
      rewrite Hv. apply list_lookup_insert_eq. by eapply lookup_lt_Some.
  - intros k. rewrite nilSlots_elem, Z.sub_0_r. done.
  - apply freshRequests_get.
  - intros Hreq Hh Hd.
    destruct (Ask_sends p i h vm) as (p1 & E1 & Hs & Hv & _ & Ht & Hc & _); auto.
    exists p1, (GetTimestamp p1).2. split; [done|]. split; [|split; [done|done]].
    apply (Ask_quiet p1 i h (set_MM (Some (freshRequests vm)) (nextNow p) vm)); auto.
    + rewrite Hv. apply list_lookup_insert_eq. by eapply lookup_lt_Some.
    + by apply freshRequests_get.
    + left. unfold deltaT, nextNow, nextTime, GetTimeMilli. simpl. by rewrite Ht, Hc.
Qed.

(** *** Admission: the self-identity check *)

(** C3 (as amended): for an ack that is non-nil, has a message hash, is not a
    response and names this node as its leader: if it is more than 120
    seconds old the call returns and no VM has changed; otherwise, if the
    node's salt number for the ack's timestamp differs from the ack's, the
    call panics. *)
Theorem AddToProcessList_self p ack m :
  Response ack = false →
  LeaderChainID ack = IdentityChainID (State_ p) →
  ack_MsgHash ack ≠ None →
  (120 < ackAge (nextTime p) ack →
   ∃ p', AddToProcessList (Some ack) m p = Ok p' ∧ VMs p' = VMs p)
  ∧ (ackAge (nextTime p) ack ≤ 120 →
     GetSalt (ack_Timestamp ack) ≠ SaltNumber ack →
     AddToProcessList (Some ack) m p = Panic).
Proof.
  intros Hresp Hself Hhash. unfold AddToProcessList.
  destruct (ack_MsgHash ack) as [mh|]; [|done]. simpl. rewrite Hresp. simpl.
  set (p1 := if _ && _ then _ else p).
  assert (Hst : IdentityChainID (State_ p1) = IdentityChainID (State_ p)
                ∧ nextTime p1 = nextTime p ∧ VMs p1 = VMs p).
  { unfold p1. by destruct (_ && _). }
  destruct Hst as (Hid & Hnow & Hvms).
  rewrite bool_decide_eq_true_2 by congruence.
  unfold GetTimestamp. fold (nextTime p1). fold (ackAge (nextTime p1) ack).
  rewrite Hnow. split.
  - intros Hold. apply Z.ltb_lt in Hold. rewrite Hold. eexists. split; [done|]. done.
  - intros Hnew Hsalt. apply Z.ltb_ge in Hnew. rewrite Hnew.
    apply Z.eqb_neq in Hsalt. by rewrite Hsalt.
Qed.

(** *** The order on chain-ids *)

Lemma byteval_inj (x y : byte) : byteval x = byteval y → x = y.
Proof.
  unfold byteval. intros E. apply N2Z.inj in E.
  pose proof (Byte.of_to_N x) as Hx. rewrite E, Byte.of_to_N in Hx. congruence.
Qed.

Lemma bytes_Compare_eq (a b : list byte) : bytes_Compare a b = 0 ↔ a = b.
Proof.
  revert b. induction a as [|x a IH]; intros [|y b]; simpl; try done.
  destruct (Z.ltb_spec (byteval x) (byteval y)); [split; [done|intros [= -> ->]; lia]|].
  destruct (Z.ltb_spec (byteval y) (byteval x)); [split; [done|intros [= -> ->]; lia]|].
  rewrite IH. assert (x = y) as -> by (apply byteval_inj; lia).
  split; [by intros ->|by intros [= ->]].
Qed.

Lemma bytes_Compare_flip (a b : list byte) :
  0 < bytes_Compare a b → bytes_Compare b a ≤ 0.
Proof.
  revert b. induction a as [|x a IH]; intros [|y b]; simpl; try lia.
  destruct (Z.ltb_spec (byteval x) (byteval y)); [lia|].
  destruct (Z.ltb_spec (byteval y) (byteval x)); [lia|]. apply IH.
Qed.

Lemma bytes_Compare_trans (a b c : list byte) :
  bytes_Compare a b ≤ 0 → bytes_Compare b c ≤ 0 → bytes_Compare a c ≤ 0.
Proof.
  revert b c. induction a as [|x a IH]; intros [|y b] [|z c]; simpl; try lia.
  destruct (Z.ltb_spec (byteval x) (byteval y)), (Z.ltb_spec (byteval y) (byteval x)),
    (Z.ltb_spec (byteval y) (byteval z)), (Z.ltb_spec (byteval z) (byteval y)),
    (Z.ltb_spec (byteval x) (byteval z)), (Z.ltb_spec (byteval z) (byteval x));
    try lia. apply IH.
Qed.

#[local] Instance chainLe_trans : Transitive chainLe.
Proof. intros a b c. apply bytes_Compare_trans. Qed.

#[local] Instance chainLe_refl : Reflexive chainLe.
Proof.
  intros a. unfold chainLe.
  by rewrite (proj2 (bytes_Compare_eq (ChainID a) (ChainID a)) eq_refl).
Qed.

(** *** [SortServers] sorts *)

(** The pass by index is the pass by recursion, past the prefix [pre]. *)
Lemma SortServers_inner_bubble (k : nat) (pre l : list Server) (done : bool) :
  SortServers_inner k (length pre) (pre ++ l) done
  = (pre ++ (bubble k l).1, done && (bubble k l).2).
Proof.
  revert pre l done. induction k as [|k IH]; intros pre l done.
  - simpl. by rewrite andb_true_r.
  - destruct l as [|a [|b t]].
    + simpl. rewrite app_nil_r, lookup_ge_None_2 by lia. by rewrite andb_true_r.
    + simpl. rewrite list_lookup_middle by done.
      rewrite lookup_ge_None_2 by (rewrite length_app; simpl; lia).
      by rewrite andb_true_r.
    + cbn [SortServers_inner bubble].
      rewrite list_lookup_middle by done.
      replace ((pre ++ a :: b :: t) !! S (length pre)) with (Some b).
      2:{ rewrite (cons_middle a), app_assoc.
          rewrite list_lookup_middle; [done|]. rewrite length_app. simpl. lia. }
      destruct (0 <? bytes_Compare (ChainID a) (ChainID b)).
      * replace (<[S (length pre):=a]> (<[length pre:=b]> (pre ++ a :: b :: t)))
          with ((pre ++ [b]) ++ a :: t).
        2:{ rewrite insert_app_r_alt by lia. rewrite Nat.sub_diag. simpl.
            rewrite insert_app_r_alt by lia.
            replace (S (length pre) - length pre)%nat with 1%nat by lia.
            simpl. by rewrite <- app_assoc. }
        replace (S (length pre)) with (length (pre ++ [b]))
          by (rewrite length_app; simpl; lia).
        rewrite IH. simpl. rewrite <- app_assoc. simpl. by rewrite andb_false_r.
      * replace (pre ++ a :: b :: t) with ((pre ++ [a]) ++ b :: t)
          by (by rewrite <- app_assoc).
        replace (S (length pre)) with (length (pre ++ [a]))
          by (rewrite length_app; simpl; lia).
        rewrite IH. simpl. by rewrite <- app_assoc.
Qed.

Lemma bubble_app (k : nat) (l1 l2 : list Server) :
  (k < length l1)%nat →
  bubble k (l1 ++ l2) = ((bubble k l1).1 ++ l2, (bubble k l1).2).
Proof.
  revert l1. induction k as [|k IH]; intros l1 Hk.
  - by destruct l1 as [|? [|? ?]].
  - destruct l1 as [|a [|b t]]; simpl in Hk; try lia.
    cbn [bubble app]. destruct (0 <? bytes_Compare (ChainID a) (ChainID b)).
    + pose proof (IH (a :: t) ltac:(simpl; lia)) as E. cbn [app] in E.
      by rewrite E.
    + pose proof (IH (b :: t) ltac:(simpl; lia)) as E. cbn [app] in E.
      by rewrite E.
Qed.

Lemma bubble_perm (k : nat) (l : list Server) : (bubble k l).1 ≡ₚ l.
Proof.
  revert l. induction k as [|k IH]; intros l.
  - by destruct l as [|? [|? ?]].
  - destruct l as [|a [|b t]]; try done.
    cbn [bubble]. destruct (0 <? bytes_Compare (ChainID a) (ChainID b)); simpl.
    + rewrite (IH (a :: t)). apply Permutation_swap.
    + by rewrite (IH (b :: t)).
Qed.

(** A full pass puts a largest server last; a pass without a swap has found
    the list sorted. *)
Lemma bubble_full (k : nat) (l : list Server) :
  length l = S k →
  ∃ front mx, (bubble k l).1 = front ++ [mx]
    ∧ Forall (λ x, chainLe x mx) (front ++ [mx])
    ∧ ((bubble k l).2 = true →
       (bubble k l).1 = l ∧ StronglySorted chainLe l).
Proof.
  revert l. induction k as [|k IH]; intros l Hl.
  - destruct l as [|a [|? ?]]; try done. exists [], a. simpl.
    split; [done|]. split; [by repeat constructor|].
    intros _. split; [done|]. by repeat constructor.
  - destruct l as [|a [|b t]]; try done. simpl in Hl.
    cbn [bubble].
    destruct (Z.ltb_spec 0 (bytes_Compare (ChainID a) (ChainID b))) as [Hgt|Hle].
    + destruct (IH (a :: t)) as (front & mx & E & Hmax & _); [simpl; lia|].
      exists (b :: front), mx. simpl. rewrite E. split; [done|]. split; [|done].
      constructor; [|done].
      assert (Ha : a ∈ front ++ [mx]).
      { rewrite <- E. rewrite bubble_perm. by left. }
      rewrite Forall_forall in Hmax. etrans; [|by apply Hmax].
      by apply bytes_Compare_flip.
    + destruct (IH (b :: t)) as (front & mx & E & Hmax & Hdone); [simpl; lia|].
      exists (a :: front), mx. simpl. rewrite E. split; [done|]. split.
      * constructor; [|done].
        assert (Hb : b ∈ front ++ [mx]).
        { rewrite <- E. rewrite bubble_perm. by left. }
        rewrite Forall_forall in Hmax. etrans; [exact Hle|by apply Hmax].
      * intros Hd. destruct (Hdone Hd) as [E' Hs].
        rewrite <- E, E'. split; [done|].
        apply Sorted_StronglySorted; [apply _|].
        constructor; [by apply StronglySorted_Sorted|]. by constructor.
Qed.

Lemma SortServers_outer_spec (n : nat) (front back : list Server) :
  length front = S n →
  StronglySorted chainLe back →
  (∀ x y, x ∈ front → y ∈ back → chainLe x y) →
  StronglySorted chainLe (SortServers_outer n (length back) (front ++ back))
  ∧ SortServers_outer n (length back) (front ++ back) ≡ₚ front ++ back.
Proof.
  revert front back. induction n as [|n IH]; intros front back Hlen Hback Hfb.
  - simpl. split; [|done]. destruct front as [|x [|? ?]]; try done.
    apply StronglySorted_app_2; [done| |done]. by repeat constructor.
  - cbn [SortServers_outer].
    replace (length (front ++ back) - 1 - length back)%nat with (S n)
      by (rewrite length_app; lia).
    assert (Hin : SortServers_inner (S n) 0 (front ++ back) true
                  = ((bubble (S n) (front ++ back)).1, (bubble (S n) (front ++ back)).2))
      by exact (SortServers_inner_bubble (S n) [] (front ++ back) true).
    rewrite Hin. clear Hin.
    rewrite bubble_app by lia. cbn [fst snd].
    destruct (bubble_full (S n) front Hlen) as (fr & mx & E & Hmax & Hdone).
    destruct (bubble (S n) front).2 eqn:Hd.
    + destruct Hdone as [E' Hs]; [done|]. rewrite E'. split; [|done].
      by apply StronglySorted_app_2.
    + rewrite E, <- app_assoc. simpl.
      assert (Hperm : fr ++ [mx] ≡ₚ front) by (rewrite <- E; apply bubble_perm).
      assert (Hmx : mx ∈ front).
      { rewrite <- Hperm. apply elem_of_app. right. by left. }
      destruct (IH fr (mx :: back)) as [Hs Hp].
      * apply Permutation_length in Hperm. rewrite length_app in Hperm.
        cbn [length] in Hperm. lia.
      * constructor; [done|]. apply Forall_forall. intros y Hy. by apply Hfb.
      * intros x y Hx Hy. apply elem_of_cons in Hy as [->|Hy].
        -- rewrite Forall_forall in Hmax. apply Hmax. apply elem_of_app. by left.
        -- apply Hfb; [|done]. rewrite <- Hperm. apply elem_of_app. by left.
      * simpl in Hs, Hp. split; [done|]. rewrite Hp, <- Hperm.
        by rewrite <- app_assoc.
Qed.

Lemma SortServers_sorts (l : list Server) :
  StronglySorted chainLe (SortServers l) ∧ SortServers l ≡ₚ l.
Proof.
  destruct l as [|a t]; [split; [constructor|done]|].
  unfold SortServers.
  pose proof (SortServers_outer_spec (length t) (a :: t) []) as H.
  rewrite app_nil_r in H. cbn [length] in H.
  replace (length (a :: t) - 1)%nat with (length t) by (simpl; lia).
  apply H; try done.
  - constructor.
  - intros x y _ Hy. by apply elem_of_nil in Hy.
Qed.

(** *** Membership *)

Lemma indexHash_spec (i0 : Z) (l : list Server) (id : Hash) :
  match indexHash i0 l id with
  | (true, i) =>
      ∃ pre s post, l = pre ++ s :: post ∧ ChainID s = id ∧ (id ∉ ids pre)
                    ∧ i = i0 + len pre
  | (false, i) => (id ∉ ids l) ∧ i = i0 + len l
  end.
Proof.
  revert i0. induction l as [|fs l IH]; intros i0; simpl.
  - split; [by intros ?%elem_of_nil|unfold len; simpl; lia].
  - destruct (Z.eqb_spec (bytes_Compare id (ChainID fs)) 0) as [E|E].
    + apply bytes_Compare_eq in E. exists [], fs, l.
      split; [done|]. split; [done|]. split; [by intros ?%elem_of_nil|].
      unfold len. simpl. lia.
    + assert (Hne : id ≠ ChainID fs) by (by rewrite <- bytes_Compare_eq).
      specialize (IH (i0 + 1)). destruct (indexHash (i0 + 1) l id) as [[|] i].
      * destruct IH as (pre & s & post & -> & Hs & Hpre & ->).
        exists (fs :: pre), s, post. split; [done|]. split; [done|].
        split; [|unfold len; simpl; lia].
        simpl. intros [?|?]%elem_of_cons; done.
      * destruct IH as [Hl ->]. split; [|unfold len; simpl; lia].
        intros [?|?]%elem_of_cons; done.
Qed.

Lemma splice_middle (pre post : list Server) (s : Server) :
  splice (len pre) (pre ++ s :: post) = pre ++ post.
Proof.
  unfold splice, len. rewrite Nat2Z.id, take_app_length. f_equal.
  rewrite (cons_middle s), app_assoc. apply drop_app_length'.
  rewrite length_app. simpl. lia.
Qed.

Lemma insertAt_end (x : Server) (l : list Server) : insertAt (len l) x l = l ++ [x].
Proof.
  unfold insertAt, len. rewrite Nat2Z.id. by rewrite take_ge, drop_ge by lia.
Qed.

Lemma removed_spec (id : Hash) (l l' : list Server) :
  NoDup (ids l) → removed id l l' →
  NoDup (ids l') ∧ (id ∉ ids l') ∧ (∀ x, x ∈ ids l' → x ∈ ids l)
  ∧ (ascending l → ascending l').
Proof.
  intros Hnd [[Hid ->]|(pre & s & post & -> & Hs & Hpre & ->)]; [done|].
  unfold ids in *. rewrite fmap_app in *. rewrite fmap_cons in Hnd.
  apply NoDup_app in Hnd as (Hnd1 & Hnd2 & Hnd3).
  apply NoDup_cons in Hnd3 as [Hnd3 Hnd4]. rewrite Hs in *.
  split; [|split; [|split]].
  - apply NoDup_app. split; [done|]. split; [|done].
    intros x Hx Hx'. apply (Hnd2 x Hx). by right.
  - intros [?|?]%elem_of_app; [done|]. done.
  - intros x [?|?]%elem_of_app; rewrite fmap_app, fmap_cons;
      apply elem_of_app; [by left|right; by right].
  - unfold ascending. intros Hs'. apply StronglySorted_Sorted.
    apply Sorted_StronglySorted in Hs'; [|apply _].
    apply StronglySorted_app in Hs' as (H1 & H2 & H3).
    apply StronglySorted_cons in H3 as [H3 H4].
    apply StronglySorted_app_2; [|done|done].
    intros x y Hx Hy. apply H1; [done|]. by right.
Qed.

Lemma RemoveAuditServerHash_spec p (id : Hash) :
  FedServers (RemoveAuditServerHash id p) = FedServers p
  ∧ DBHeight (RemoveAuditServerHash id p) = DBHeight p
  ∧ removed id (AuditServers p) (AuditServers (RemoveAuditServerHash id p)).
Proof.
  unfold RemoveAuditServerHash, GetAuditServerIndexHash.
  pose proof (indexHash_spec 0 (AuditServers p) id) as H.
  destruct (indexHash 0 (AuditServers p) id) as [[|] i]; simpl.
  - destruct H as (pre & s & post & E & Hs & Hpre & ->).
    split; [done|]. split; [done|]. right. exists pre, s, post.
    rewrite E, Z.add_0_l, splice_middle. done.
  - destruct H as [Hid _]. split; [done|]. split; [done|]. by left.
Qed.

Lemma MakeMap_Ok p :
  len (FedServers p) ≤ 64 →
  ∃ serverMap, MakeMap_ p = Ok (set_ServerMap serverMap p).
Proof.
  intros Hn. unfold MakeMap_, MakeMap.
  destruct (0 <? len (FedServers p)); [|by eexists].
  destruct (Z.ltb_spec 64 (len (FedServers p))); [lia|]. by eexists.
Qed.

Lemma RemoveFedServerHash_spec p (id : Hash) :
  len (FedServers p) ≤ 64 →
  ∃ p', RemoveFedServerHash id p = Ok p'
    ∧ removed id (FedServers p) (FedServers p')
    ∧ ((id ∈ ids (FedServers p) ∧ AuditServers p' = AuditServers p)
       ∨ ((id ∉ ids (FedServers p))
          ∧ removed id (AuditServers p) (AuditServers p'))).
Proof.
  intros Hn. unfold RemoveFedServerHash, GetFedServerIndexHash.
  pose proof (indexHash_spec 0 (FedServers p) id) as H.
  destruct (indexHash 0 (FedServers p) id) as [[|] i]; simpl.
  - destruct H as (pre & s & post & E & Hs & Hpre & ->).
    set (p1 := set_FedServers _ _).
    assert (Hfed : FedServers p1 = pre ++ post).
    { unfold p1. simpl. by rewrite E, Z.add_0_l, splice_middle. }
    destruct (MakeMap_Ok p1) as [sm Hsm].
    { rewrite Hfed. rewrite E in Hn. unfold len in *.
      rewrite length_app in *. simpl in Hn. lia. }
    exists (set_ServerMap sm p1). split; [done|].
    change (FedServers (set_ServerMap sm p1)) with (FedServers p1).
    change (AuditServers (set_ServerMap sm p1)) with (AuditServers p).
    rewrite Hfed. split; [right; by exists pre, s, post|].
    left. split; [|done]. rewrite E. unfold ids. rewrite fmap_app, fmap_cons, Hs.
    apply elem_of_app. right. by left.
  - destruct H as [Hid _].
    destruct (RemoveAuditServerHash_spec p id) as (Hf & _ & Ha).
    eexists. split; [done|]. rewrite Hf. split; [by left|]. by right.
Qed.

Lemma ids_SortServers (l : list Server) : ids (SortServers l) ≡ₚ ids l.
Proof. unfold ids. apply fmap_Permutation, SortServers_sorts. Qed.

Lemma AddFedServer_spec p (id : Hash) :
  MembersOK p → len (FedServers p) < 64 →
  ∃ i p', AddFedServer id p = Ok (i, p') ∧ MembersOK p'
    ∧ (FedServers p' = SortServers (FedServers p)
       ∨ FedServers p' = SortServers (FedServers p) ++ [mkServer id true])
    ∧ removed id (AuditServers p) (AuditServers p').
Proof.
  intros (Hf & Ha & Hd) Hn. unfold AddFedServer, GetFedServerIndexHash.
  set (p1 := SortFedServers p).
  change (FedServers p1) with (SortServers (FedServers p)).
  pose proof (indexHash_spec 0 (SortServers (FedServers p)) id) as H.
  destruct (indexHash 0 (SortServers (FedServers p)) id) as [[|] i].
  - exists i, p1. split; [done|]. split; [|split; [by left|]].
    + split; [|split]; simpl.
      * by rewrite ids_SortServers.
      * done.
      * intros x. rewrite ids_SortServers. apply Hd.
    + left. split; [|done]. destruct H as (pre & s & post & E & Hs & _).
      intros Hin. apply (Hd id); [|done].
      rewrite <- ids_SortServers, E. unfold ids.
      rewrite fmap_app, fmap_cons, Hs. apply elem_of_app. right. by left.
  - destruct H as [Hid ->]. rewrite Z.add_0_l.
    destruct (Z.ltb_spec (len (SortServers (FedServers p))) 0);
      [unfold len in *; lia|].
    unfold GetAuditServerIndexHash.
    set (p2 := if (indexHash 0 (AuditServers p1) id).1
               then RemoveAuditServerHash id p1 else p1).
    assert (H2 : FedServers p2 = SortServers (FedServers p)
                 ∧ removed id (AuditServers p) (AuditServers p2)).
    { unfold p2. pose proof (indexHash_spec 0 (AuditServers p1) id) as H'.
      destruct (indexHash 0 (AuditServers p1) id) as [[|] j]; simpl.
      - destruct (RemoveAuditServerHash_spec p1 id) as (E1 & _ & E2). by rewrite E1.
      - destruct H' as [H' _]. split; [done|]. by left. }
    destruct H2 as [Hfed2 Hrem].
    destruct (indexHash 0 (AuditServers p1) id) as [auditFound j] eqn:Eidx.
    simpl in p2. fold p2.
    set (p4 := set_FedServers _ _).
    assert (Hfed4 : FedServers p4 = SortServers (FedServers p) ++ [mkServer id true]).
    { unfold p4. simpl. rewrite Hfed2. apply insertAt_end. }
    assert (Haud4 : AuditServers p4 = AuditServers p2) by done.
    destruct (MakeMap_Ok p4) as [sm Hsm].
    { rewrite Hfed4. unfold len in *. rewrite length_app. simpl.
      pose proof (Permutation_length (proj2 (SortServers_sorts (FedServers p)))).
      lia. }
    rewrite Hsm. simpl. exists (len (SortServers (FedServers p))), (set_ServerMap sm p4).
    split; [done|].
    change (FedServers (set_ServerMap sm p4)) with (FedServers p4).
    change (AuditServers (set_ServerMap sm p4)) with (AuditServers p4).
    rewrite Hfed4, Haud4.
    destruct (removed_spec id _ _ Ha Hrem) as (Ha2 & Hid2 & Hsub & _).
    split; [|split; [by right|done]].
    split; [|split].
    + change (FedServers (set_ServerMap sm p4)) with (FedServers p4). rewrite Hfed4.
      unfold ids. rewrite fmap_app. apply NoDup_app. split; [|split].
      * fold (ids (SortServers (FedServers p))). by rewrite ids_SortServers.
      * intros x Hx [->|?%elem_of_nil]%elem_of_cons; done.
      * apply NoDup_singleton.
    + change (AuditServers (set_ServerMap sm p4)) with (AuditServers p4).
      by rewrite Haud4.
    + change (FedServers (set_ServerMap sm p4)) with (FedServers p4).
      change (AuditServers (set_ServerMap sm p4)) with (AuditServers p4).
      rewrite Hfed4, Haud4. intros x. unfold ids at 1. rewrite fmap_app.
      intros [Hx|Hx]%elem_of_app.
      * intros Hx'. apply (Hd x); [|by apply Hsub].
        by rewrite <- ids_SortServers.
      * apply list_elem_of_singleton in Hx as ->. done.
Qed.

Lemma AddAuditServer_spec p (id : Hash) :
  MembersOK p → len (FedServers p) ≤ 64 →
  ∃ i p', AddAuditServer id p = Ok (i, p') ∧ MembersOK p'
    ∧ (AuditServers p' = AuditServers p
       ∨ AuditServers p' = AuditServers p ++ [mkServer id true])
    ∧ removed id (FedServers p) (FedServers p').
Proof.
  intros (Hf & Ha & Hd) Hn. unfold AddAuditServer, GetAuditServerIndexHash.
  pose proof (indexHash_spec 0 (AuditServers p) id) as H.
  destruct (indexHash 0 (AuditServers p) id) as [[|] i].
  - exists i, p. split; [done|]. split; [done|]. split; [by left|].
    left. split; [|done]. destruct H as (pre & s & post & E & Hs & _).
    intros Hin. apply (Hd id Hin). rewrite E. unfold ids.
    rewrite fmap_app, fmap_cons, Hs. apply elem_of_app. right. by left.
  - destruct H as [Hid ->]. rewrite Z.add_0_l.
    unfold GetFedServerIndexHash.
    pose proof (indexHash_spec 0 (FedServers p) id) as H'.
    assert (H2 : ∃ p2, (if (indexHash 0 (FedServers p) id).1
                        then RemoveFedServerHash id p else Ok p) = Ok p2
                 ∧ removed id (FedServers p) (FedServers p2)
                 ∧ AuditServers p2 = AuditServers p).
    { destruct (indexHash 0 (FedServers p) id) as [[|] j]; simpl.
      - destruct (RemoveFedServerHash_spec p id Hn) as (p2 & E & Hr & Hcase).
        exists p2. split; [done|]. split; [done|].
        destruct Hcase as [[_ ?]|[Hnin _]]; [done|].
        destruct H' as (pre & s & post & E' & Hs & _). exfalso. apply Hnin.
        rewrite E'. unfold ids. rewrite fmap_app, fmap_cons, Hs.
        apply elem_of_app. right. by left.
      - destruct H' as [H' _]. exists p. split; [done|]. split; [by left|done]. }
    destruct H2 as (p2 & E2 & Hrem & Haud2).
    destruct (indexHash 0 (FedServers p) id) as [fedFound j]. simpl in E2.
    rewrite E2. simpl.
    eexists _, _. split; [reflexivity|]. simpl. rewrite Haud2, insertAt_end.
    destruct (removed_spec id _ _ Hf Hrem) as (Hf2 & Hid2 & Hsub & _).
    split; [|split; [by right|done]].
    split; [|split]; simpl.
    + done.
    + unfold ids. rewrite fmap_app.
      apply NoDup_app. split; [done|]. split; [|apply NoDup_singleton].
      intros x Hx [->|?%elem_of_nil]%elem_of_cons; done.
    + intros x Hx. unfold ids. rewrite fmap_app.
      intros [Hx'|Hx']%elem_of_app.
      * by apply (Hd x (Hsub x Hx)).
      * apply list_elem_of_singleton in Hx' as ->. done.
Qed.

(** C5 (as amended): starting from membership lists whose chain-ids are
    unique and in at most one list (and fewer than 64 federated servers, the
    width of the server map), every mutator returns and leaves the chain-ids
    unique and in at most one list. The removals, and the removal that a
    promotion or demotion makes in the other list, keep an ascending list
    ascending. [AddFedServer] sorts the federated servers and then puts a
    new server after them; [AddAuditServer] puts a new server after the
    audit servers: the order of the list that grows is not restored. *)
Theorem membership_mutators p (id : Hash) :
  MembersOK p → len (FedServers p) < 64 →
  (∃ i p', AddFedServer id p = Ok (i, p') ∧ MembersOK p'
     ∧ ascending (SortServers (FedServers p))
     ∧ (FedServers p' = SortServers (FedServers p)
        ∨ FedServers p' = SortServers (FedServers p) ++ [mkServer id true])
     ∧ (ascending (AuditServers p) → ascending (AuditServers p')))
  ∧ (∃ i p', AddAuditServer id p = Ok (i, p') ∧ MembersOK p'
     ∧ (AuditServers p' = AuditServers p
        ∨ AuditServers p' = AuditServers p ++ [mkServer id true])
     ∧ (ascending (FedServers p) → ascending (FedServers p')))
  ∧ (∃ p', RemoveFedServerHash id p = Ok p' ∧ MembersOK p'
     ∧ (ascending (FedServers p) → ascending (FedServers p'))
     ∧ (ascending (AuditServers p) → ascending (AuditServers p')))
  ∧ (MembersOK (RemoveAuditServerHash id p)
     ∧ FedServers (RemoveAuditServerHash id p) = FedServers p
     ∧ (ascending (AuditServers p)
        → ascending (AuditServers (RemoveAuditServerHash id p)))).
Proof.
  intros Hok Hn. pose proof Hok as (Hf & Ha & Hd). split; [|split; [|split]].
  - destruct (AddFedServer_spec p id Hok Hn) as (i & p' & E & Hok' & Hfed & Hrem).
    exists i, p'. split; [done|]. split; [done|].
    split; [apply StronglySorted_Sorted, SortServers_sorts|]. split; [done|].
    by destruct (removed_spec id _ _ Ha Hrem) as (_ & _ & _ & ?).
  - destruct (AddAuditServer_spec p id Hok) as (i & p' & E & Hok' & Haud & Hrem);
      [lia|].
    exists i, p'. split; [done|]. split; [done|]. split; [done|].
    by destruct (removed_spec id _ _ Hf Hrem) as (_ & _ & _ & ?).
  - destruct (RemoveFedServerHash_spec p id) as (p' & E & Hrem & Hcase); [lia|].
    exists p'. split; [done|].
    destruct (removed_spec id _ _ Hf Hrem) as (Hf' & _ & Hsub & Hasc).
    assert (Hrem' : removed id (AuditServers p) (AuditServers p')).
    { destruct Hcase as [[Hin ->]|[_ ?]]; [|done]. left. split; [|done].
      by apply Hd. }
    destruct (removed_spec id _ _ Ha Hrem') as (Ha' & _ & Hsub' & Hasc').
    split; [|done]. split; [done|]. split; [done|].
    intros x Hx Hx'. apply (Hd x); [by apply Hsub|by apply Hsub'].
  - destruct (RemoveAuditServerHash_spec p id) as (E & _ & Hrem).
    destruct (removed_spec id _ _ Ha Hrem) as (Ha' & _ & Hsub' & Hasc').
    split; [|done]. split; [by rewrite E|]. split; [done|].
    rewrite E. intros x Hx Hx'. apply (Hd x Hx). by apply Hsub'.
Qed.

(** *** Frames *)

Lemma sameBase_refl p : sameBase p p.
Proof. done. Qed.

Lemma sameBase_trans p1 p2 p3 : sameBase p1 p2 → sameBase p2 p3 → sameBase p1 p3.
Proof. intros (? & ? & ?) (? & ? & ?). repeat split; congruence. Qed.

Lemma sameQueue_refl vm : sameQueue vm vm.
Proof. done. Qed.

Lemma sameQueue_trans vm1 vm2 vm3 :
  sameQueue vm1 vm2 → sameQueue vm2 vm3 → sameQueue vm1 vm3.
Proof. intros (? & ? & ?) (? & ? & ?). repeat split; congruence. Qed.

Lemma alter_insert (f : VM → VM) (l : list VM) (i : nat) vm :
  l !! i = Some vm → alter f i l = <[i := f vm]> l.
Proof.
  intros E. apply list_eq. intros k. destruct (decide (k = i)) as [->|Hne].
  - rewrite list_lookup_alter_eq, E. simpl.
    rewrite list_lookup_insert_eq; [done|]. by eapply lookup_lt_Some.
  - by rewrite list_lookup_alter_ne, list_lookup_insert_ne.
Qed.

(** A step that leaves the VMs alone touches any VM that exists. *)
Lemma touches_same (i : Z) (R : VM → VM → Prop) p p' vm :
  sameBase p p' → VMs p' = VMs p → index (VMs p) i = Ok vm → R vm vm →
  touches i R p p'.
Proof.
  intros Hb Hv Hi HR. split; [done|]. exists vm, vm. split; [done|]. split; [|done].
  apply index_Ok in Hi as [_ Hi]. by rewrite Hv, list_insert_id.
Qed.

Lemma touches_updVM (i : Z) (f : VM → VM) (R : VM → VM → Prop) p vm :
  index (VMs p) i = Ok vm → R vm (f vm) → touches i R p (updVM i f p).
Proof.
  intros Hi HR. split; [done|]. exists vm, (f vm). split; [done|]. split; [|done].
  apply index_Ok in Hi as [_ Hi]. simpl. by apply alter_insert.
Qed.

Lemma touches_index (i : Z) (R : VM → VM → Prop) p p' vm :
  touches i R p p' → index (VMs p) i = Ok vm →
  ∃ vm', index (VMs p') i = Ok vm' ∧ R vm vm'.
Proof.
  intros (_ & vm0 & vm' & Hi & Hv & HR) Hi'. rewrite Hi in Hi'. injection Hi' as ->.
  exists vm'. split; [|done]. apply index_Ok in Hi as [? Hi]. apply index_Ok.
  split; [done|]. rewrite Hv. apply list_lookup_insert_eq. by eapply lookup_lt_Some.
Qed.

Lemma touches_trans (i : Z) (R1 R2 R3 : VM → VM → Prop) p1 p2 p3 :
  (∀ a b c, R1 a b → R2 b c → R3 a c) →
  touches i R1 p1 p2 → touches i R2 p2 p3 → touches i R3 p1 p3.
Proof.
  intros HR (Hb1 & vm1 & vm2 & Hi1 & Hv1 & H1) H23.
  destruct (touches_index i R1 p1 p2 vm1) as (vm2' & Hi2 & _);
    [by split; [|exists vm1, vm2]|done|].
  destruct H23 as (Hb2 & vm2'' & vm3 & Hi2' & Hv2 & H2).
  assert (vm2'' = vm2) as ->.
  { apply index_Ok in Hi1 as [_ Hi1]. apply index_Ok in Hi2' as [_ Hi2'].
    rewrite Hv1, list_lookup_insert_eq in Hi2' by (by eapply lookup_lt_Some).
    congruence. }
  split; [by eapply sameBase_trans|]. exists vm1, vm3. split; [done|].
  split; [|by eapply HR]. by rewrite Hv2, Hv1, list_insert_insert_eq.
Qed.

Lemma touches_weaken (i : Z) (R R' : VM → VM → Prop) p p' :
  (∀ a b, R a b → R' a b) → touches i R p p' → touches i R' p p'.
Proof.
  intros HR (Hb & vm & vm' & Hi & Hv & H). split; [done|].
  exists vm, vm'. auto.
Qed.

Lemma touches_Forall (i : Z) (R : VM → VM → Prop) (Q : VM → Prop) p p' :
  touches i R p p' → (∀ vm vm', index (VMs p) i = Ok vm → R vm vm' → Q vm → Q vm') →
  Forall Q (VMs p) → Forall Q (VMs p').
Proof.
  intros (_ & vm & vm' & Hi & Hv & HR) HQ Hall. rewrite Hv.
  apply Forall_insert; [done|]. apply (HQ vm vm' Hi HR).
  apply index_Ok in Hi as [_ Hi]. by eapply Forall_lookup_1.
Qed.

(** *** The scheduler and the fault hooks keep the queues *)

Lemma Ask_touches (i h : Z) p p' :
  Ask i h p = Ok p' → touches i sameQueue p p'.
Proof.
  unfold Ask, GetTimestamp. simpl. destruct (i <? 0); [done|].
  destruct (index (VMs p) i) as [vm|] eqn:Hvm; simpl; [|done].
  destruct (_ || _).
  - destruct (_ && _).
    + intros [= <-]. by apply (touches_same _ _ _ _ vm).
    + intros [= <-]. split; [done|]. exists vm, (set_MM (Some (freshRequests vm))
        (GetTimeMilli (clock (State_ p) (ticks (State_ p)))) vm).
      split; [done|]. split; [|done]. simpl.
      apply alter_insert. by apply index_Ok in Hvm as [_ ?].
  - intros [= <-]. by apply (touches_same _ _ _ _ vm).
Qed.

Lemma markFault_touches (i flag : Z) p p' :
  markFault i flag p = Ok p' → touches i sameQueue p p'.
Proof.
  unfold markFault, GetTimestamp. simpl.
  destruct (index (VMs p) i) as [vm|] eqn:Hvm; simpl; [|done].
  intros [= <-]. split; [done|]. eexists vm, _. split; [done|].
  split; [simpl; apply alter_insert; by apply index_Ok in Hvm as [_ ?]|done].
Qed.

Lemma markNoFault_touches (i : Z) p p' :
  markNoFault i p = Ok p' → touches i sameQueue p p'.
Proof.
  unfold markNoFault.
  destruct (index (VMs p) i) as [vm|] eqn:Hvm; simpl; [|done].
  intros [= <-]. by apply (touches_updVM _ _ _ _ vm).
Qed.

Lemma FaultCheck_same p :
  sameBase p (FaultCheck p) ∧ VMs (FaultCheck p) = VMs p.
Proof.
  unfold FaultCheck. generalize (FaultCheck_emits (VMs p)) as l.
  intros l. revert p. induction l as [|e l IH]; intros p; simpl; [done|].
  destruct (IH (Enqueue e p)) as [Hb Hv]. split; [|by rewrite Hv].
  eapply sameBase_trans; [|exact Hb]. done.
Qed.

Lemma enterVM_touches (i : Z) (now : Timestamp) p p' :
  enterVM i now p = Ok p' → touches i sameQueue p p'.
Proof.
  unfold enterVM. intros H.
  apply bind_Ok in H as (vm & Hvm & H).
  apply bind_Ok in H as (p1 & H1 & H).
  assert (T1 : touches i sameQueue p p1).
  { destruct (negb (Syncing (State_ p))); [by eapply markNoFault_touches|].
    destruct (negb (Synced vm)).
    - destruct (WhenFaulted vm =? 0); [by eapply markFault_touches|].
      injection H1 as <-. by apply (touches_same _ _ _ _ vm).
    - destruct (FaultFlag vm =? 0); [by eapply markNoFault_touches|].
      injection H1 as <-. by apply (touches_same _ _ _ _ vm). }
  clear H1. destruct (FaultCheck_same p1) as [Hb2 Hv2].
  apply bind_Ok in H as (vm2 & Hvm2 & H).
  assert (T2 : touches i sameQueue p (FaultCheck p1)).
  { eapply touches_trans; [apply sameQueue_trans|exact T1|].
    by apply (touches_same _ _ _ _ vm2); [| |rewrite <- Hv2|]. }
  apply bind_Ok in H as (p3 & H3 & H).
  assert (T3 : touches i sameQueue p p3).
  { destruct ((Height vm2 =? _) && _ && _).
    - eapply touches_trans; [apply sameQueue_trans|exact T2|by eapply Ask_touches].
    - by injection H3 as <-. }
  apply bind_Ok in H as (vm3 & Hvm3 & H).
  destruct ((Height vm3 =? _) && _).
  - eapply touches_trans; [apply sameQueue_trans|exact T3|by eapply Ask_touches].
  - by injection H as <-.
Qed.

(** *** One turn of [VMListLoop] *)

Lemma alter_after_insert (f : VM → VM) (l : list VM) (i : nat) vm :
  (i < length l)%nat → alter f i (<[i := vm]> l) = <[i := f vm]> l.
Proof.
  intros Hi. rewrite (alter_insert f _ i vm) by (by apply list_lookup_insert_eq).
  by rewrite list_insert_insert_eq.
Qed.

Lemma sameQueue_slotR (j : Z) vm vm' : sameQueue vm vm' → slotR j false vm vm'.
Proof.
  intros (E1 & E2 & E3). split; [done|]. split; [by rewrite E1|].
  split; [by rewrite E1|done].
Qed.

Lemma slotR_sameQueue (j : Z) vm1 vm2 vm3 :
  slotR j false vm1 vm2 → sameQueue vm2 vm3 → slotR j false vm1 vm3.
Proof.
  intros (A1 & A2 & A3 & A4) (E1 & E2 & E3). split; [congruence|].
  split; [by rewrite E1|]. split; [by rewrite E1|congruence].
Qed.

Lemma clearSlot_touches (i j : Z) p vm :
  index (VMs p) i = Ok vm → touches i (slotR j false) p (clearSlot i j p).
Proof.
  intros Hvm. apply (touches_updVM _ _ _ _ vm); [done|]. split; [done|]. simpl.
  split; [by rewrite length_insert|]. split; [|done].
  intros k m. destruct (decide (k = Z.to_nat j)) as [->|Hne].
  - intros E. pose proof (lookup_lt_Some _ _ _ E) as Hlt.
    rewrite length_insert in Hlt. by rewrite list_lookup_insert_eq in E.
  - by rewrite list_lookup_insert_ne.
Qed.

Lemma processSlot_touches (i j : Z) (msg : Msg) p (o : SlotOutcome) vm :
  index (VMs p) i = Ok vm → 0 ≤ j →
  List vm !! Z.to_nat j = Some (Some msg) →
  (∃ a, ListAck vm !! Z.to_nat j = Some (Some a)) →
  processSlot i j msg p = Ok o →
  touches i (slotR j (advanced o)) p (outcome_list o).
Proof.
  intros Hvm Hj Hmsg Hack. unfold processSlot. rewrite Hvm. simpl.
  pose proof Hvm as Hvm'. apply index_Ok in Hvm' as [Hi Hlk].
  pose proof (lookup_lt_Some _ _ _ Hlk) as Hlt.
  destruct (_ || _).
  2:{ intros [= <-]. by apply (touches_same _ _ _ _ vm); [| | |apply sameQueue_slotR]. }
  destruct (assign (NextHeightToProcess p) i (j + 1)) as [next|]; simpl; [|done].
  unfold GetTimestamp. simpl.
  destruct (Replay_Valid _ _ _ _); simpl.
  2:{ intros [= <-]. eapply touches_trans; [apply slotR_sameQueue| |].
      - by apply (clearSlot_touches i j _ vm).
      - apply (touches_same _ _ _ _ (set_List (λ l, <[Z.to_nat j:=None]> l) vm)); try done.
        simpl. apply index_Ok. split; [done|].
        by rewrite list_lookup_alter_eq, Hlk. }
  destruct (MsgProcess _ _ _) as [[|] w]; intros [= <-]; simpl.
  - split; [repeat split; reflexivity|]. eexists vm, _. split; [done|]. split.
    + simpl. rewrite (alter_insert _ (VMs p) _ vm) by done.
      rewrite !alter_after_insert by done. reflexivity.
    + split; [done|]. split; [done|]. split; [done|]. simpl.
      split; [done|]. split; [done|]. split; [done|]. split; [by exists msg|done].
  - split; [repeat split; reflexivity|]. eexists vm, _. split; [done|]. split.
    + simpl. by rewrite (alter_insert _ _ _ vm).
    + by apply sameQueue_slotR.
Qed.

Lemma slot_touches (i j : Z) p (o : SlotOutcome) :
  slot i j p = Ok o → touches i (slotR j (advanced o)) p (outcome_list o).
Proof.
  unfold slot. intros H.
  apply bind_Ok in H as (vm & Hvm & H).
  apply bind_Ok in H as (entry & Hentry & H).
  apply index_Ok in Hentry as [Hj Hentry].
  destruct entry as [msg|].
  2:{ apply bind_Ok in H as (p1 & Hask & [= <-]). simpl.
      eapply touches_weaken; [apply sameQueue_slotR|by eapply Ask_touches]. }
  apply bind_Ok in H as (ack' & Hack & H).
  apply index_Ok in Hack as [_ Hack].
  destruct ack' as [thisAck|]; [|done].
  destruct (Height vm =? 0).
  { eapply processSlot_touches; eauto. }
  apply bind_Ok in H as (lastAck & Hlast & H).
  destruct lastAck as [last|]; [|done].
  destruct (CreateHash _ _) as [expectedSerialHash|].
  - destruct (negb _).
    + injection H as <-. simpl.
      by apply (touches_same _ _ _ _ vm); [| | |apply sameQueue_slotR].
    + eapply processSlot_touches; eauto.
  - apply bind_Ok in H as (p1 & Hask & [= <-]). simpl.
    eapply touches_trans; [apply slotR_sameQueue| |by eapply Ask_touches].
    by apply (clearSlot_touches i j _ vm).
Qed.

Lemma sameQueue_QueueOK (identity : Hash) vm vm' :
  sameQueue vm vm' → QueueOK identity vm → QueueOK identity vm'.
Proof.
  intros (E1 & E2 & E3) [(I1 & I2 & I3 & I4) Hs]. unfold QueueOK, VMInv, len in *.
  rewrite E1, E2, E3. done.
Qed.

Lemma slotR_QueueOK (identity : Hash) (j : Z) (adv : bool) vm vm' :
  slotR j adv vm vm' → (adv = true → Height vm = j) →
  QueueOK identity vm → QueueOK identity vm'.
Proof.
  intros (A1 & A2 & A3 & A4) Hh [(I1 & I2 & I3 & I4) Hs].
  split; [|by rewrite A1]. unfold VMInv, len in *. rewrite A1, A2.
  split; [done|]. split; [|split].
  - destruct adv; [|by rewrite A4].
    destruct A4 as (-> & Hj & _ & [m Hm] & _).
    pose proof (lookup_lt_Some _ _ _ Hm). lia.
  - intros k m Hk. eapply I3. by apply A3.
  - intros k Hk. destruct adv; [|rewrite A4 in Hk; by apply I4].
    destruct A4 as (E & Hj & _ & _ & [a Ha]). rewrite E in Hk.
    destruct (decide (Z.of_nat k = j)) as [<-|Hne].
    + exists a. by rewrite Nat2Z.id in Ha.
    + apply I4. rewrite Hh by done. lia.
Qed.

(** *** The processor keeps the queues in order *)

Lemma VMListLoop_inv (identity : Hash) (fuel : nat) (i j : Z) p (progress : bool)
    (e : Exit) p' (progress' : bool) :
  (∀ vm, index (VMs p) i = Ok vm → Height vm = j) →
  Forall (QueueOK identity) (VMs p) →
  VMListLoop fuel i j p progress = Ok (e, p', progress') →
  Forall (QueueOK identity) (VMs p') ∧ sameBase p p'.
Proof.
  revert j p progress. induction fuel as [|fuel IH]; intros j p progress Hh Hall.
  - intros [= <- <- <-]. done.
  - cbn [VMListLoop]. intros H. apply bind_Ok in H as (vm & Hvm & H).
    destruct (j <? len (List vm)); [|by injection H as <- <- <-].
    apply bind_Ok in H as (o & Ho & H).
    pose proof (slot_touches i j p o Ho) as T.
    assert (Hall' : Forall (QueueOK identity) (VMs (outcome_list o))).
    { eapply touches_Forall; [exact T| |done].
      intros vm1 vm2 Hvm1 HR. eapply slotR_QueueOK; [exact HR|].
      intros _. by apply Hh. }
    destruct o as [p1|p1|p1]; simpl in *.
    + destruct (IH (j + 1) p1 true) as [Hall'' Hb]; try done.
      * intros vm1 Hvm1.
        destruct (touches_index _ _ _ _ vm T Hvm) as (vm1' & Hvm1' & HR).
        rewrite Hvm1 in Hvm1'. injection Hvm1' as <-.
        by destruct HR as (_ & _ & _ & ? & _).
      * split; [done|]. eapply sameBase_trans; [apply T|done].
    + injection H as <- <- <-. split; [done|apply T].
    + injection H as <- <- <-. split; [done|apply T].
Qed.

Lemma FedLoop_inv (identity : Hash) (k : nat) (i : Z) (now : Timestamp) p
    (progress : bool) (b : bool) p' :
  Forall (QueueOK identity) (VMs p) →
  FedLoop k i now p progress = Ok (b, p') →
  Forall (QueueOK identity) (VMs p') ∧ sameBase p p'.
Proof.
  revert i p progress. induction k as [|k IH]; intros i p progress Hall.
  - intros [= <- <-]. done.
  - cbn [FedLoop]. intros H. apply bind_Ok in H as (p1 & H1 & H).
    pose proof (enterVM_touches i now p p1 H1) as T1.
    assert (Hall1 : Forall (QueueOK identity) (VMs p1)).
    { eapply touches_Forall; [exact T1| |done].
      intros vm1 vm2 _ HR. by apply sameQueue_QueueOK. }
    apply bind_Ok in H as (vm & Hvm & H).
    apply bind_Ok in H as ([[e p2] progress2] & H2 & H).
    destruct (VMListLoop_inv identity _ i (Height vm) p1 progress e p2 progress2
                ltac:(intros vm' Hvm'; congruence) Hall1 H2) as [Hall2 Hb2].
    assert (Hb : sameBase p p2) by (eapply sameBase_trans; [apply T1|done]).
    destruct e.
    + destruct (IH (i + 1) p2 progress2 Hall2 H) as [Hall3 Hb3].
      split; [done|]. by eapply sameBase_trans.
    + by injection H as <- <-.
Qed.

Lemma Process_inv (identity : Hash) p (b : bool) p' :
  Forall (QueueOK identity) (VMs p) → Process p = Ok (b, p') →
  Forall (QueueOK identity) (VMs p') ∧ sameBase p p'.
Proof.
  intros Hall. unfold Process.
  destruct (DBHeight p <=? HighestSavedBlk (State_ p)); [by intros [= <- <-]|].
  unfold GetTimestamp. simpl. intros H.
  apply FedLoop_inv with (identity := identity) in H as [Hall' Hb]; [|done].
  split; [done|]. eapply sameBase_trans; [|exact Hb]. done.
Qed.

(** *** Admission keeps the queues in order *)

Lemma fill_QueueOK (identity : Hash) vm vm' (h grow : nat) m ack :
  QueueOK identity vm → saltOK identity ack →
  (h < length (List vm) + grow)%nat →
  List vm' = <[h := Some m]> (List vm ++ replicate grow None) →
  ListAck vm' = <[h := Some ack]> (ListAck vm ++ replicate grow None) →
  Height vm' = Height vm →
  QueueOK identity vm'.
Proof.
  intros [(I1 & I2 & I3 & I4) Hs] Hack Hh EL EA EH.
  assert (Hrep : ∀ (A : Type) (l : list (option A)) (k : nat) (x : A),
             (l ++ replicate grow None) !! k = Some (Some x) → l !! k = Some (Some x)).
  { intros A l k x E. apply lookup_app_Some in E as [E|[_ E]]; [done|].
    apply lookup_replicate in E as [? _]. done. }
  split.
  - unfold VMInv, len. rewrite EL, EA, EH, !length_insert, !length_app, !length_replicate.
    unfold len in I2.
    split; [lia|]. split; [lia|]. split.
    + intros k m' E. destruct (decide (k = h)) as [->|Hne].
      * exists ack. apply list_lookup_insert_eq. rewrite length_app, length_replicate. lia.
      * rewrite list_lookup_insert_ne in E by done. apply Hrep in E.
        destruct (I3 k m' E) as [a Ha]. exists a.
        rewrite list_lookup_insert_ne by done. by apply lookup_app_l_Some.
    + intros k Hk. destruct (decide (k = h)) as [->|Hne].
      * exists ack. apply list_lookup_insert_eq. rewrite length_app, length_replicate. lia.
      * destruct (I4 k Hk) as [a Ha]. exists a.
        rewrite list_lookup_insert_ne by done. by apply lookup_app_l_Some.
  - intros k a. rewrite EA. destruct (decide (k = h)) as [->|Hne].
    + rewrite list_lookup_insert_eq by (rewrite length_app, length_replicate; lia).
      by intros [= <-].
    + rewrite list_lookup_insert_ne by done. intros E. apply Hrep in E. by eapply Hs.
Qed.

Lemma stage_inv (identity : Hash) ack m p p' :
  saltOK identity ack → Forall (QueueOK identity) (VMs p) →
  stage ack m p = Ok p' →
  Forall (QueueOK identity) (VMs p') ∧ sameBase p p'.
Proof.
  intros Hack Hall. unfold stage, GetTimestamp. simpl. intros H.
  apply bind_Ok in H as (vm & Hvm & H).
  pose proof Hvm as Hvm'. apply index_Ok in Hvm' as [Hi Hlk].
  pose proof (lookup_lt_Some _ _ _ Hlk) as Hlt.
  pose proof (Forall_lookup_1 _ _ _ _ Hall Hlk) as Hok.
  destruct (_ && _); [by injection H as <-|].
  destruct (negb _); [by injection H as <-|].
  destruct (filled vm (ack_Height ack)) as [stored_m|].
  - destruct (bool_decide _); injection H as <-; [done|].
    split; [|done]. simpl. apply Forall_alter; [done|].
    intros vm0 Hvm0. rewrite Hlk in Hvm0. injection Hvm0 as <-. intros _.
    eapply (slotR_QueueOK identity (Z.of_nat (ack_Height ack)) false vm); [|done|done].
    split; [done|]. simpl. split; [by rewrite length_insert|]. split; [|done].
    intros k m'. destruct (decide (k = ack_Height ack)) as [->|Hne].
    + intros E. pose proof (lookup_lt_Some _ _ _ E) as Hlt'.
      rewrite length_insert in Hlt'. by rewrite list_lookup_insert_eq in E.
    + by rewrite list_lookup_insert_ne.
  - set (grow := (S (ack_Height ack) - length (List vm))%nat) in *.
    simpl in H.
    rewrite (alter_insert _ (VMs p) _ vm) in H by done.
    rewrite !alter_after_insert in H by done.
    rewrite index_insert_eq in H by done. simpl in H.
    apply bind_Ok in H as (list & Hlist & H). apply assign_Ok in Hlist as [Hh1 ->].
    rewrite alter_after_insert in H by done.
    rewrite index_insert_eq in H by done. simpl in H.
    apply bind_Ok in H as (listAck & HlistAck & H).
    apply assign_Ok in HlistAck as [Hh2 ->].
    injection H as <-. split; [|done]. simpl.
    rewrite (alter_insert _ (VMs p) _ vm) by done.
    rewrite !alter_after_insert by done. apply Forall_insert; [done|].
    eapply (fill_QueueOK identity vm _ (ack_Height ack) grow m ack); try done.
    + unfold grow. lia.
    + simpl. by rewrite Nat2Z.id.
    + simpl. by rewrite Nat2Z.id.
Qed.

Lemma AddToProcessList_inv (ack : option Ack) m p p' :
  Forall (QueueOK (IdentityChainID (State_ p))) (VMs p) →
  AddToProcessList ack m p = Ok p' →
  Forall (QueueOK (IdentityChainID (State_ p'))) (VMs p').
Proof.
  intros Hall. unfold AddToProcessList. destruct ack as [ack|]; [|by intros [= <-]].
  destruct (isnil _); [by intros [= <-]|].
  set (p1 := if _ && _ then _ else p).
  assert (H1 : sameBase p p1 ∧ VMs p1 = VMs p) by (unfold p1; by destruct (_ && _)).
  destruct H1 as [(_ & _ & Hid) Hv].
  assert (Hstage : saltOK (IdentityChainID (State_ p)) ack →
            ∀ p2, sameBase p1 p2 → VMs p2 = VMs p1 → stage ack m p2 = Ok p' →
            Forall (QueueOK (IdentityChainID (State_ p'))) (VMs p')).
  { intros Hack p2 (_ & _ & Hid2) Hv2 H.
    destruct (stage_inv (IdentityChainID (State_ p)) ack m p2 p' Hack) as [Hall' Hb];
      [by rewrite Hv2, Hv|done|].
    destruct Hb as (_ & _ & Hid'). by rewrite Hid', Hid2, Hid. }
  destruct (negb (Response ack)) eqn:Hresp; simpl.
  2:{ apply (Hstage ltac:(intros Hr; destruct (Response ack); done) p1); done. }
  destruct (bool_decide_reflect (LeaderChainID ack = IdentityChainID (State_ p1)))
    as [Hself|Hself].
  2:{ apply (Hstage ltac:(intros _ Hl; congruence) p1); done. }
  unfold GetTimestamp. simpl. destruct (120 <? _).
  { intros [= <-]. simpl. by rewrite Hid, Hv. }
  destruct (Z.eqb_spec (GetSalt (ack_Timestamp ack)) (SaltNumber ack)) as [Hsalt|];
    simpl; [|done].
  apply (Hstage ltac:(by intros _ _)); done.
Qed.

Lemma newVM_QueueOK (identity : Hash) (n : nat) (t : Timestamp) :
  Forall (QueueOK identity) (replicate n (newVM t)).
Proof.
  apply Forall_replicate. split.
  - split; [done|]. split; [done|]. split.
    + intros k m' E. simpl in E. by rewrite ?lookup_nil in E.
    + simpl. intros k Hk. lia.
  - intros k a E. simpl in E. by rewrite ?lookup_nil in E.
Qed.

Lemma NewProcessList_inv (identity : Hash) (state : State ReplayT W)
    (previous : option (ProcessList ReplayT W)) (dbheight : Z) p :
  NewProcessList state previous dbheight = Ok p →
  Forall (QueueOK identity) (VMs p).
Proof.
  unfold NewProcessList. intros H. apply bind_Ok in H as (pl & _ & H).
  unfold GetTimestamp in H. cbn beta iota zeta in H.
  apply bind_Ok in H as (pl' & Hmap & [= <-]).
  unfold MakeMap_ in Hmap. apply bind_Ok in Hmap as (serverMap & _ & [= <-]).
  exact (newVM_QueueOK identity 65 _).
Qed.

Lemma Reachable_inv p :
  Reachable p → Forall (QueueOK (IdentityChainID (State_ p))) (VMs p).
Proof.
  induction 1 as [state previous dbheight p Hnew|p ack m p' _ IH Hadd
                 |p progress p' _ IH Hproc|p p' _ IH Hid Hq].
  - by eapply NewProcessList_inv.
  - by eapply AddToProcessList_inv.
  - destruct (Process_inv _ p progress p' IH Hproc) as [Hall (_ & _ & Hid)].
    by rewrite Hid.
  - rewrite Hid. clear Hid. induction Hq as [|vm vm' l l' Hvm _ IHq]; [done|].
    apply Forall_cons in IH as [Hhd Htl]. constructor; [|by apply IHq].
    by eapply sameQueue_QueueOK.
Qed.

(** C2 (as amended): after any sequence of [AddToProcessList] and [Process]
    calls starting from [NewProcessList] (and whatever the rest of the node
    does in between to the fields it owns), every VM satisfies:
    [len(list) == len(listAck)]; [0 <= height <= len(list)]; every slot that
    holds a message holds its ack; and every slot below [height] holds its
    ack. *)
Theorem Reachable_VMInv p : Reachable p → Forall VMInv (VMs p).
Proof.
  intros Hr. eapply Forall_impl; [by apply Reachable_inv|]. by intros vm [? _].
Qed.

(** C4: when a pair [(ack, m)] is stored at slot [ack.height] of VM
    [ack.vmIndex] of a process list the node can hold, admitting [ack] again
    with [m], or with any message of the same [msgHash], returns without
    panic and leaves every VM as it was: the slot still holds [m] and [ack],
    the lists have not grown, the height is the same. *)
Theorem AddToProcessList_duplicate p ack m (m' : Msg) :
  Reachable p → stored p ack m → msg_MsgHash m' = msg_MsgHash m →
  ∃ p', AddToProcessList (Some ack) m' p = Ok p' ∧ VMs p' = VMs p ∧ stored p' ack m.
Proof.
  intros Hr (vm & Hvm & Hm & Ha) Hsame.
  assert (Hgoal : ∃ p', AddToProcessList (Some ack) m' p = Ok p' ∧ VMs p' = VMs p).
  2:{ destruct Hgoal as (p' & E & Hv). exists p'. split; [done|]. split; [done|].
      exists vm. by rewrite Hv. }
  pose proof (Reachable_inv p Hr) as Hall.
  pose proof Hvm as Hvm'. apply index_Ok in Hvm' as [Hi Hlk].
  destruct (Forall_lookup_1 _ _ _ _ Hall Hlk) as [_ Hsalt].
  specialize (Hsalt _ _ Ha).
  unfold AddToProcessList. destruct (isnil _); [by eexists|].
  set (p1 := if _ && _ then _ else p).
  assert (H1 : IdentityChainID (State_ p1) = IdentityChainID (State_ p)
               ∧ VMs p1 = VMs p) by (unfold p1; by destruct (_ && _)).
  destruct H1 as [Hid Hv].
  assert (Hstage : ∀ p2, VMs p2 = VMs p →
            ∃ p', stage ack m' p2 = Ok p' ∧ VMs p' = VMs p).
  { intros p2 Hv2. unfold stage, GetTimestamp. simpl. rewrite Hv2, Hvm. simpl.
    assert (Hf : filled vm (ack_Height ack) = Some m).
    { unfold filled, len. pose proof (lookup_lt_Some _ _ _ Hm).
      destruct (Z.ltb_spec (Z.of_nat (ack_Height ack)) (Z.of_nat (length (List vm))));
        [|lia]. by rewrite Hm. }
    rewrite Hf. simpl. destruct (negb (Replay_Valid _ _ _ _)); [by eexists|].
    destruct (negb _); [by eexists|].
    rewrite bool_decide_eq_true_2 by done. by eexists. }
  destruct (negb (Response ack)) eqn:Hresp; simpl; [|by apply Hstage].
  destruct (bool_decide_reflect (LeaderChainID ack = IdentityChainID (State_ p1)))
    as [Hself|Hself]; [|by apply Hstage].
  unfold GetTimestamp. simpl. destruct (120 <? _); [by eexists|].
  rewrite Hsalt, Z.eqb_refl; [|by destruct (Response ack)|congruence]. simpl.
  by apply Hstage.
Qed.

(** *** The course of a [Process] call *)

Lemma VMListLoop_sameBase (fuel : nat) (i j : Z) p (progress : bool)
    (e : Exit) p' (progress' : bool) :
  VMListLoop fuel i j p progress = Ok (e, p', progress') → sameBase p p'.
Proof.
  revert j p progress. induction fuel as [|fuel IH]; intros j p progress.
  - by intros [= <- <- <-].
  - cbn [VMListLoop]. intros H. apply bind_Ok in H as (vm & Hvm & H).
    destruct (j <? len (List vm)); [|by injection H as <- <- <-].
    apply bind_Ok in H as (o & Ho & H).
    pose proof (slot_touches i j p o Ho) as [Hb _].
    destruct o as [p1|p1|p1]; simpl in *.
    + eapply sameBase_trans; [exact Hb|]. by eapply IH.
    + by injection H as <- <- <-.
    + by injection H as <- <- <-.
Qed.

Lemma VMListLoop_turn (i j : Z) p (progress : bool) vm :
  index (VMs p) i = Ok vm → j < len (List vm) →
  VMListLoop (slotsLeft i j p) i j p progress
  = o ← slot i j p;
    match o with
    | Advance p' => VMListLoop (slotsLeft i (j + 1) p') i (j + 1) p' true
    | Break p' => Ok (Fallthrough, p', progress)
    | Return p' => Ok (Returned, p', progress)
    end.
Proof.
  intros Hvm Hj. unfold slotsLeft at 1. rewrite Hvm.
  replace (Z.to_nat (len (List vm) - j))
    with (S (Z.to_nat (len (List vm) - (j + 1)))) by lia.
  cbn [VMListLoop]. rewrite Hvm. simpl.
  destruct (Z.ltb_spec j (len (List vm))); [|lia].
  destruct (slot i j p) as [o|] eqn:Ho; [|done]. simpl.
  destruct o as [p'|p'|p']; try done.
  destruct (touches_index _ _ _ _ vm (slot_touches i j p _ Ho) Hvm)
    as (vm' & Hvm' & _ & Hlen & _).
  simpl in Hvm'. unfold slotsLeft. rewrite Hvm'. unfold len. by rewrite Hlen.
Qed.

(** From wherever a [Process] call has arrived, its result is what is
    still to be done from there. *)
Lemma Reaches_resume p0 (loc : Loc) p (progress : bool) :
  Reaches p0 loc p progress →
  Process p0 = resume (Process_now p0) loc p progress.
Proof.
  induction 1 as [Hguard|i p progress p' vm _ IH Hi Henter Hvm
                 |i j p progress vm p' _ IH Hvm Hj Hslot
                 |i j p progress vm p' _ IH Hvm Hj Hslot
                 |i j p progress vm _ IH Hvm Hj].
  - unfold Process, resume. rewrite Hguard. unfold Process_now, GetTimestamp.
    simpl. by rewrite Nat.sub_0_r.
  - rewrite IH. unfold resume.
    replace (length (FedServers p) - i)%nat
      with (S (length (FedServers p) - S i)) by lia.
    cbn [FedLoop]. rewrite Henter. simpl. rewrite Hvm. simpl.
    pose proof (enterVM_touches _ _ _ _ Henter) as [(Hfed & _) _].
    destruct (VMListLoop _ _ _ _ _) as [[[e p2] progress2]|] eqn:Hloop; [|done].
    simpl. destruct e; [|done].
    pose proof (VMListLoop_sameBase _ _ _ _ _ _ _ _ Hloop) as (Hfed2 & _).
    rewrite Hfed2, Hfed. f_equal. lia.
  - rewrite IH. unfold resume. rewrite (VMListLoop_turn _ _ _ _ vm) by done.
    by rewrite Hslot.
  - rewrite IH. unfold resume. rewrite (VMListLoop_turn _ _ _ _ vm) by done.
    by rewrite Hslot.
  - rewrite IH. unfold resume, slotsLeft. rewrite Hvm.
    replace (Z.to_nat (len (List vm) - j)) with 0%nat by lia. done.
Qed.

(** C1: when a [Process] call arrives at slot [j] of VM [i] with
    [vm.height == j >= 1], the slot holds a message and its ack, and the
    hash of the message hashes of [listAck[j-1]] and [listAck[j]] differs
    from [listAck[j].serialHash], then the call records [state.reset()] and
    returns at once: its result is the process list as it was at that point
    but for the reset, so [vm.height] and every other VM field are as they
    were and no further slot is processed. *)
Theorem Process_serial_hash_mismatch p0 (i : nat) (j : Z) p (progress : bool)
    vm (msg : Msg) (thisAck last : Ack) (expected : Hash) :
  Reaches p0 (AtSlot i j) p progress →
  index (VMs p) (Z.of_nat i) = Ok vm →
  Height vm = j → 1 ≤ j →
  List vm !! Z.to_nat j = Some (Some msg) →
  ListAck vm !! Z.to_nat j = Some (Some thisAck) →
  ListAck vm !! Z.to_nat (j - 1) = Some (Some last) →
  CreateHash (MessageHash last) (MessageHash thisAck) = Some expected →
  expected ≠ SerialHash thisAck →
  Process p0 = Ok (progress, State_Reset p)
  ∧ ResetRequests (State_ (State_Reset p)) = S (ResetRequests (State_ p))
  ∧ VMs (State_Reset p) = VMs p.
Proof.
  intros Hreach Hvm Hh Hj Hmsg Hack Hlast Hhash Hne.
  split; [|done]. rewrite (Reaches_resume _ _ _ _ Hreach). unfold resume.
  pose proof (lookup_lt_Some _ _ _ Hmsg) as Hlt.
  rewrite (VMListLoop_turn _ _ _ _ vm) by (unfold len; done || lia).
  assert (Hslot : slot (Z.of_nat i) j p = Ok (Return (State_Reset p))).
  { unfold slot. rewrite Hvm. simpl.
    rewrite (proj2 (index_Ok (List vm) j (Some msg))) by (split; [lia|done]). simpl.
    rewrite (proj2 (index_Ok (ListAck vm) j (Some thisAck))) by (split; [lia|done]).
    simpl. destruct (Z.eqb_spec (Height vm) 0); [lia|].
    rewrite Hh.
    rewrite (proj2 (index_Ok (ListAck vm) (j - 1) (Some last))) by (split; [lia|done]).
    simpl. rewrite Hhash. by rewrite bool_decide_eq_false_2. }
  by rewrite Hslot.
Qed.

(** *** The server map *)

(** *** The server map, for any number of servers *)

Lemma list_alter_insert {A} (f : A → A) (l : list A) (i : nat) (x : A) :
  l !! i = Some x → alter f i l = <[i := f x]> l.
Proof.
  intros E. apply list_eq. intros k. destruct (decide (k = i)) as [->|Hne].
  - rewrite list_lookup_alter_eq, E. simpl.
    rewrite list_lookup_insert_eq; [done|]. by eapply lookup_lt_Some.
  - by rewrite list_lookup_alter_ne, list_lookup_insert_ne.
Qed.

(** One row: [k] columns from [j] on are filled with [indx], [indx + 1], ...
    modulo [n]. *)
Lemma MakeMap_row_spec (k : nat) (n : Z) (i j : nat) (sm : list (list Z))
    (indx : Z) (row : list Z) :
  0 < n → 0 ≤ indx < n → sm !! i = Some row → (j + k ≤ length row)%nat →
  ∃ row', MakeMap_row k n i j sm indx = (<[i := row']> sm, (indx + Z.of_nat k) `mod` n)
    ∧ length row' = length row
    ∧ ∀ c : nat, row' !! c
        = if decide (j ≤ c < j + k)%nat
          then Some ((indx + Z.of_nat (c - j)) `mod` n) else row !! c.
Proof.
  intros Hn. revert j sm indx row.
  induction k as [|k IH]; intros j sm indx row Hindx Hrow Hlen.
  - exists row. simpl. rewrite list_insert_id by done.
    rewrite Z.add_0_r, Z.mod_small by done. split; [done|]. split; [done|].
    intros c. case_decide; [lia|done].
  - cbn [MakeMap_row].
    rewrite (list_alter_insert _ _ _ row) by done.
    rewrite Z.rem_mod_nonneg by lia.
    destruct (IH (S j) (<[i := <[j := indx]> row]> sm) ((indx + 1) `mod` n)
                (<[j := indx]> row)) as (row' & E & Hl & Hc).
    + by apply Z.mod_pos_bound.
    + apply list_lookup_insert_eq. by eapply lookup_lt_Some.
    + rewrite length_insert. lia.
    + exists row'. rewrite E, list_insert_insert_eq.
      rewrite Zplus_mod_idemp_l. split; [f_equal; f_equal; lia|].
      rewrite Hl, length_insert. split; [done|].
      intros c. rewrite Hc. destruct (decide (c = j)) as [->|Hne].
      * rewrite decide_False by lia. rewrite decide_True by lia.
        rewrite list_lookup_insert_eq by lia.
        rewrite Nat.sub_diag, Z.add_0_r, Z.mod_small by done. done.
      * rewrite list_lookup_insert_ne by done.
        destruct (decide (S j ≤ c < S j + k)%nat).
        -- rewrite decide_True by lia. rewrite Zplus_mod_idemp_l.
           do 2 f_equal. lia.
        -- by rewrite decide_False by lia.
Qed.

(** The rows [i], ..., [i + k - 1]: row [r] starts one further than the one
    before it. *)
Lemma MakeMap_rows_spec (k : nat) (n : Z) (i : nat) (sm : list (list Z)) (indx : Z) :
  0 < n → 0 ≤ indx < n → (i + k ≤ length sm)%nat →
  (∀ (r : nat) row, sm !! r = Some row → (Z.to_nat n ≤ length row)%nat) →
  ∀ (r : nat) row, sm !! r = Some row →
    ∃ row', MakeMap_rows k n i sm indx !! r = Some row'
      ∧ length row' = length row
      ∧ ∀ c : nat, row' !! c
          = if decide ((i ≤ r < i + k)%nat ∧ (c < Z.to_nat n)%nat)
            then Some ((indx + Z.of_nat (r - i) + 1 + Z.of_nat c) `mod` n)
            else row !! c.
Proof.
  intros Hn. revert i sm indx.
  induction k as [|k IH]; intros i sm indx Hindx Hlen Hwide r row Hr.
  - exists row. split; [done|]. split; [done|]. intros c. case_decide; [lia|done].
  - cbn [MakeMap_rows]. rewrite Z.rem_mod_nonneg by lia.
    destruct (lookup_lt_is_Some_2 sm i) as [rowi Hrowi]; [lia|].
    destruct (MakeMap_row_spec (Z.to_nat n) n i 0 sm ((indx + 1) `mod` n) rowi)
      as (rowi' & E & Hl & Hc); try done.
    { by apply Z.mod_pos_bound. }
    { specialize (Hwide i rowi Hrowi). lia. }
    rewrite E. rewrite Z2Nat.id by lia.
    rewrite <- Zplus_mod_idemp_r, Z_mod_same_full, Z.add_0_r, Z.mod_mod by lia.
    assert (Hi' : <[i := rowi']> sm !! i = Some rowi').
    { apply list_lookup_insert_eq. by eapply lookup_lt_Some. }
    assert (Hwide' : ∀ (r : nat) row, <[i := rowi']> sm !! r = Some row →
                       (Z.to_nat n ≤ length row)%nat).
    { intros r0 row0. destruct (decide (r0 = i)) as [->|Hne].
      - rewrite Hi'. intros [= <-]. rewrite Hl. by eapply Hwide.
      - rewrite list_lookup_insert_ne by done. apply Hwide. }
    assert (Hindx' : 0 ≤ (indx + 1) `mod` n < n) by (by apply Z.mod_pos_bound).
    destruct (decide (r = i)) as [->|Hne].
    + destruct (IH (S i) (<[i := rowi']> sm) ((indx + 1) `mod` n) Hindx'
                  ltac:(rewrite length_insert; lia) Hwide' i rowi' Hi')
        as (row' & E' & Hl' & Hc').
      rewrite Hrowi in Hr. injection Hr as <-.
      exists row'. split; [done|]. split; [congruence|].
      intros c. rewrite Hc', decide_False by lia. rewrite Hc.
      destruct (decide (c < Z.to_nat n)%nat).
      * rewrite decide_True by lia. rewrite decide_True by lia.
        rewrite Zplus_mod_idemp_l. do 2 f_equal. lia.
      * rewrite decide_False by lia. by rewrite decide_False by lia.
    + destruct (IH (S i) (<[i := rowi']> sm) ((indx + 1) `mod` n) Hindx'
                  ltac:(rewrite length_insert; lia) Hwide' r row
                  ltac:(by rewrite list_lookup_insert_ne))
        as (row' & E' & Hl' & Hc').
      exists row'. split; [done|]. split; [done|].
      intros c. rewrite Hc'.
      destruct (decide ((S i ≤ r < S i + k)%nat ∧ (c < Z.to_nat n)%nat)).
      * rewrite decide_True by lia.
        rewrite <- Z.add_assoc, <- Z.add_assoc, Zplus_mod_idemp_l.
        do 2 f_equal. lia.
      * by rewrite decide_False by lia.
Qed.

Lemma ServerMap_zero_row (r : nat) (row : list Z) :
  ServerMap_zero !! r = Some row → (r < 10)%nat ∧ row = replicate 64 0.
Proof. unfold ServerMap_zero. intros [-> ?]%lookup_replicate. done. Qed.

(** The table of [MakeMap] entry by entry. *)
Lemma MakeMap_at (n H : Z) :
  0 < n ≤ 64 →
  ∃ t, MakeMap n H = Ok t
    ∧ ∀ r c, 0 ≤ r < 10 → 0 ≤ c < 64 →
        ServerMap_at t r c
        = Ok (if decide (c < n) then (uint32 (H * 131) + r + 1 + c) `mod` n else 0).
Proof.
  intros Hn. unfold MakeMap.
  destruct (Z.ltb_spec 0 n); [|lia]. destruct (Z.ltb_spec 64 n); [lia|].
  eexists. split; [reflexivity|]. intros r c Hr Hc.
  assert (Hu : 0 ≤ uint32 (H * 131) < 2 ^ 32) by (apply Z.mod_pos_bound; lia).
  assert (Hi : int64 (uint32 (H * 131)) = uint32 (H * 131)).
  { unfold int64. rewrite Z.mod_small by (pow2; lia). lia. }
  rewrite Hi, Z.rem_mod_nonneg by lia.
  destruct (MakeMap_rows_spec 10 n 0 ServerMap_zero (uint32 (H * 131) `mod` n)
              ltac:(lia) ltac:(by apply Z.mod_pos_bound) ltac:(simpl; lia)
              ltac:(intros r0 row0 [_ ->]%ServerMap_zero_row;
                    rewrite length_replicate; lia)
              (Z.to_nat r) (replicate 64 0))
    as (row' & E & Hl & Hcell).
  { unfold ServerMap_zero. apply lookup_replicate. split; [done|lia]. }
  unfold ServerMap_at.
  rewrite (proj2 (index_Ok _ r row')) by (split; [lia|done]). simpl.
  apply index_Ok. split; [lia|]. rewrite Hcell.
  destruct (decide (c < n)).
  - rewrite decide_True by lia. f_equal.
    rewrite <- Z.add_assoc, <- Z.add_assoc, Zplus_mod_idemp_l. f_equal. lia.
  - rewrite decide_False by lia. apply lookup_replicate. split; [done|lia].
Qed.

(** X1: [MakeMap(n, H)] in closed form. Without a federated server
    ([n ≤ 0]) the map is all zeros. With more than 64 of them the fill runs
    past the 64 columns of a row and the call panics. With [1 ≤ n ≤ 64] the
    call returns, the entry of minute [r] and VM [c < n] is
    [(uint32(H * 131) + r + 1 + c) mod n], and the columns from [n] on are
    zero. *)
Theorem MakeMap_rotation (n H : Z) :
  (n ≤ 0 → MakeMap n H = Ok ServerMap_zero)
  ∧ (64 < n → MakeMap n H = Panic)
  ∧ (0 < n ≤ 64 →
     ∃ t, MakeMap n H = Ok t
       ∧ ∀ r c, 0 ≤ r < 10 →
           (0 ≤ c < n →
            ServerMap_at t r c = Ok ((uint32 (H * 131) + r + 1 + c) `mod` n))
           ∧ (n ≤ c < 64 → ServerMap_at t r c = Ok 0)).
Proof.
  split; [|split].
  - intros Hn. unfold MakeMap. by destruct (Z.ltb_spec 0 n); [lia|].
  - intros Hn. unfold MakeMap. destruct (Z.ltb_spec 0 n); [|lia].
    by destruct (Z.ltb_spec 64 n); [|lia].
  - intros Hn. destruct (MakeMap_at n H Hn) as (t & E & Hat).
    exists t. split; [done|]. intros r c Hr. split; intros Hc.
    + rewrite Hat by lia. by rewrite decide_True by lia.
    + rewrite Hat by lia. by rewrite decide_False by lia.
Qed.

(** Adding [c] modulo [n] is undone by subtracting. *)
Lemma rotation_inverse (n s f c : Z) :
  0 < n → 0 ≤ f < n → 0 ≤ c < n →
  (s + c) `mod` n = f ↔ c = (f - s) `mod` n.
Proof.
  intros Hn Hf Hc. split.
  - intros <-. rewrite Zminus_mod_idemp_l.
    replace (s + c - s) with c by lia. by rewrite Z.mod_small.
  - intros ->. rewrite Zplus_mod_idemp_r.
    replace (s + (f - s)) with f by lia. by rewrite Z.mod_small.
Qed.

(** X2: in every minute each federated server leads exactly one
    VM. For [1 ≤ n ≤ 64] servers, a minute [r < 10] and a server index
    [f < n], the row of minute [r] of [MakeMap(n, H)] holds [f] at one and
    only one of its first [n] columns. *)
Theorem MakeMap_minute_bijection (n H : Z) (t : list (list Z)) (r f : Z) :
  0 < n ≤ 64 → MakeMap n H = Ok t → 0 ≤ r < 10 → 0 ≤ f < n →
  ∃ c, 0 ≤ c < n ∧ ServerMap_at t r c = Ok f
    ∧ ∀ c', 0 ≤ c' < n → ServerMap_at t r c' = Ok f → c' = c.
Proof.
  intros Hn Et Hr Hf. destruct (MakeMap_at n H Hn) as (t' & E & Hat).
  rewrite Et in E. injection E as <-.
  set (s := uint32 (H * 131) + r + 1).
  assert (Hc : 0 ≤ (f - s) `mod` n < n) by (apply Z.mod_pos_bound; lia).
  exists ((f - s) `mod` n). split; [done|]. split.
  - rewrite Hat by lia. rewrite decide_True by lia. f_equal.
    apply (rotation_inverse n s f); (lia || done).
  - intros c' Hc' E. rewrite Hat in E by lia. rewrite decide_True in E by lia.
    injection E as E. apply (rotation_inverse n s f c'); [lia|done|done|exact E].
Qed.

(** *** From a server to its VM *)

Lemma FedServerVM_loop_spec (k : nat) (i : Z) (t : list (list Z))
    (minute f : Z) (g : Z → Z) :
  (∀ c, i ≤ c < i + Z.of_nat k → ServerMap_at t minute c = Ok (g c)) →
  (∃ v, i ≤ v < i + Z.of_nat k ∧ g v = f ∧ (∀ c, i ≤ c < v → g c ≠ f)
        ∧ FedServerVM_loop k i t minute f = Ok v)
  ∨ ((∀ c, i ≤ c < i + Z.of_nat k → g c ≠ f)
     ∧ FedServerVM_loop k i t minute f = Ok (-1)).
Proof.
  revert i. induction k as [|k IH]; intros i Hg.
  - right. split; [intros c; lia|done].
  - cbn [FedServerVM_loop]. rewrite Hg by lia. simpl.
    destruct (Z.eqb_spec (g i) f) as [E|E].
    + left. exists i. split; [lia|]. split; [done|]. split; [intros c; lia|done].
    + destruct (IH (i + 1)) as [(v & Hv & Hgv & Hfirst & Hloop)|[Hall Hloop]].
      * intros c Hc. apply Hg. lia.
      * left. exists v. split; [lia|]. split; [done|]. split; [|done].
        intros c Hc. destruct (decide (c = i)) as [->|]; [done|]. apply Hfirst. lia.
      * right. split; [|done].
        intros c Hc. destruct (decide (c = i)) as [->|]; [done|]. apply Hall. lia.
Qed.

(** On a table built by [MakeMap], the search of [FedServerVM] has a closed
    form. *)
Lemma FedServerVM_loop_MakeMap (n H : Z) (t : list (list Z)) (minute f : Z) :
  0 < n ≤ 64 → MakeMap n H = Ok t → 0 ≤ minute < 10 →
  FedServerVM_loop (Z.to_nat n) 0 t minute f
  = Ok (if decide (0 ≤ f < n)
        then (f - (uint32 (H * 131) + minute + 1)) `mod` n else -1).
Proof.
  intros Hn Et Hm. destruct (MakeMap_at n H Hn) as (t' & E & Hat).
  rewrite Et in E. injection E as <-.
  set (s := uint32 (H * 131) + minute + 1).
  destruct (FedServerVM_loop_spec (Z.to_nat n) 0 t minute f (λ c, (s + c) `mod` n))
    as [(v & Hv & Hgv & _ & ->)|[Hall ->]].
  - intros c Hc. rewrite Hat by lia. by rewrite decide_True by lia.
  - assert (0 ≤ f < n) by (rewrite <- Hgv; apply Z.mod_pos_bound; lia).
    rewrite decide_True by done. f_equal.
    apply (rotation_inverse n s f); (lia || done).
  - destruct (decide (0 ≤ f < n)) as [Hf|]; [|done]. exfalso.
    assert (Hc : 0 ≤ (f - s) `mod` n < n) by (apply Z.mod_pos_bound; lia).
    apply (Hall ((f - s) `mod` n)); [lia|].
    apply (rotation_inverse n s f); (lia || done).
Qed.

(** X3: [FedServerVM] inverts the server map that [MakeMap] builds.
    For [1 ≤ n ≤ 64] servers and a minute below 10: the VM it returns for a
    server index [f < n] is below [n] and holds [f] in the map; for a VM
    [v < n] it returns [v] back for the server the map holds at [v]; and for
    a server index outside [0, n) it returns [-1]. *)
Theorem FedServerVM_inverse (n H : Z) (t : list (list Z)) (minute : Z) :
  0 < n ≤ 64 → MakeMap n H = Ok t → 0 ≤ minute < 10 →
  (∀ f, 0 ≤ f < n →
     ∃ v, FedServerVM t n minute f = Ok v ∧ 0 ≤ v < n
          ∧ ServerMap_at t minute v = Ok f)
  ∧ (∀ v, 0 ≤ v < n →
     ∃ f, ServerMap_at t minute v = Ok f ∧ 0 ≤ f < n
          ∧ FedServerVM t n minute f = Ok v)
  ∧ (∀ f, ¬ 0 ≤ f < n → FedServerVM t n minute f = Ok (-1)).
Proof.
  intros Hn Et Hm. destruct (MakeMap_at n H Hn) as (t' & E & Hat).
  rewrite Et in E. injection E as <-.
  set (s := uint32 (H * 131) + minute + 1).
  unfold FedServerVM. split; [|split].
  - intros f Hf. rewrite (FedServerVM_loop_MakeMap n H) by done. fold s.
    rewrite decide_True by done.
    assert (Hc : 0 ≤ (f - s) `mod` n < n) by (apply Z.mod_pos_bound; lia).
    eexists. split; [done|]. split; [done|].
    rewrite Hat by lia. rewrite decide_True by lia. f_equal.
    apply (rotation_inverse n s f); (lia || done).
  - intros v Hv. exists ((s + v) `mod` n).
    assert (Hf : 0 ≤ (s + v) `mod` n < n) by (apply Z.mod_pos_bound; lia).
    split; [|split; [done|]].
    + rewrite Hat by lia. by rewrite decide_True by lia.
    + rewrite (FedServerVM_loop_MakeMap n H) by done. fold s.
      rewrite decide_True by done. f_equal. symmetry.
      apply (rotation_inverse n s ((s + v) `mod` n) v); [lia|done|done|done].
  - intros f Hf. rewrite (FedServerVM_loop_MakeMap n H) by done.
    by rewrite decide_False by done.
Qed.

Lemma GetVirtualServers_loop_FedServerVM (k : nat) (i : Z) p (minute f : Z) :
  0 ≤ i →
  GetVirtualServers_loop k i p minute f
  = v ← FedServerVM_loop k i (ServerMap p) minute f;
    Ok (if v =? -1 then (false, -1) else (true, v)).
Proof.
  revert i. induction k as [|k IH]; intros i Hi; [done|].
  cbn [GetVirtualServers_loop FedServerVM_loop].
  destruct (ServerMap_at (ServerMap p) minute i) as [fedix|]; [|done]. simpl.
  destruct (fedix =? f).
  - simpl. by destruct (Z.eqb_spec i (-1)); [lia|].
  - apply IH. lia.
Qed.

Lemma MakeMap__fresh p p' : MakeMap_ p = Ok p' → MapFresh p' ∧ FedServers p' = FedServers p
  ∧ DBHeight p' = DBHeight p ∧ AuditServers p' = AuditServers p ∧ State_ p' = State_ p
  ∧ VMs p' = VMs p.
Proof.
  unfold MakeMap_, MapFresh. intros H'.
  apply bind_Ok in H' as (sm & E & [= <-]). simpl. done.
Qed.

Lemma MapFresh_MakeMap_ p : MapFresh p → MakeMap_ p = Ok p.
Proof. unfold MapFresh, MakeMap_. intros ->. simpl. by destruct p. Qed.

(** The first server with a given chain-id is at one place only. *)
Lemma first_occurrence (id : Hash) (pre pre' post post' : list Server) (s s' : Server) :
  pre ++ s :: post = pre' ++ s' :: post' →
  ChainID s = id → ChainID s' = id → (id ∉ ids pre) → (id ∉ ids pre') →
  pre' = pre.
Proof.
  intros E Hs Hs'. revert pre' E.
  induction pre as [|a pre IH]; intros [|b pre'] E Hp Hp'; simpl in *.
  - done.
  - injection E as -> _. exfalso. apply Hp'. rewrite <- Hs. by left.
  - injection E as -> _. exfalso. apply Hp. rewrite <- Hs'. by left.
  - injection E as -> E. f_equal. apply IH; [done| |].
    + intros Hin. apply Hp. by right.
    + intros Hin. apply Hp'. by right.
Qed.

(** [GetVirtualServers] on a federated server, at its first place [len pre]
    in the list. *)
Lemma GetVirtualServers_found p (minute : Z) (id : Hash)
    (pre post : list Server) (s : Server) :
  FedServers p = pre ++ s :: post → ChainID s = id → (id ∉ ids pre) →
  len (FedServers p) ≤ 64 → 0 ≤ minute < 10 →
  ∃ p', MakeMap_ p = Ok p'
    ∧ GetVirtualServers minute id p
      = Ok (true, (len pre - (uint32 (DBHeight p * 131) + minute + 1))
                    `mod` len (FedServers p), p').
Proof.
  intros Efed Hs Hpre Hn Hm. unfold GetVirtualServers, GetFedServerIndexHash.
  pose proof (indexHash_spec 0 (FedServers p) id) as Hidx.
  destruct (indexHash 0 (FedServers p) id) as [[|] i]; simpl.
  2:{ destruct Hidx as [Hnin _]. exfalso. apply Hnin. rewrite Efed. unfold ids.
      rewrite fmap_app, fmap_cons, Hs. apply elem_of_app. right. by left. }
  destruct Hidx as (pre' & s' & post' & E' & Hs' & Hpre' & ->).
  assert (pre' = pre) as ->.
  { rewrite Efed in E'. by eapply first_occurrence. }
  assert (Hpos : 0 < len (FedServers p)).
  { rewrite Efed. unfold len. rewrite length_app. simpl. lia. }
  assert (Hlt : 0 ≤ len pre < len (FedServers p)).
  { rewrite Efed. unfold len. rewrite length_app. simpl. lia. }
  destruct (MakeMap_Ok p Hn) as [sm Esm]. rewrite Esm. simpl.
  eexists. split; [done|].
  pose proof Esm as Esm'. unfold MakeMap_ in Esm'.
  apply bind_Ok in Esm' as (sm' & Emap & [= <-]).
  rewrite GetVirtualServers_loop_FedServerVM by lia. simpl.
  replace (length (FedServers p)) with (Z.to_nat (len (FedServers p)))
    by (unfold len; lia).
  rewrite (FedServerVM_loop_MakeMap _ (DBHeight p)) by (done || lia). simpl.
  rewrite Z.add_0_l. rewrite decide_True by lia.
  set (v := (_ - _) `mod` _).
  assert (0 ≤ v < len (FedServers p)) by (apply Z.mod_pos_bound; lia).
  by destruct (Z.eqb_spec v (-1)); [lia|].
Qed.

(** X4: [GetVirtualServers(minute, id)]. For an id that is not a
    federated server it returns [(false, -1)] and leaves the process list as
    it is. For the id of a federated server (at most 64 of them, a minute
    below 10) it rebuilds the server map, returns [true] and a VM below the
    number of federated servers, and the rebuilt map holds at that VM the
    position of the first server with this id. *)
Theorem GetVirtualServers_spec p (minute : Z) (id : Hash) :
  ((id ∉ ids (FedServers p)) → GetVirtualServers minute id p = Ok (false, -1, p))
  ∧ (∀ pre s post,
       FedServers p = pre ++ s :: post → ChainID s = id → (id ∉ ids pre) →
       len (FedServers p) ≤ 64 → 0 ≤ minute < 10 →
       ∃ v p', GetVirtualServers minute id p = Ok (true, v, p')
         ∧ MakeMap_ p = Ok p'
         ∧ 0 ≤ v < len (FedServers p)
         ∧ ServerMap_at (ServerMap p') minute v = Ok (len pre)).
Proof.
  split.
  - intros Hnin. unfold GetVirtualServers, GetFedServerIndexHash.
    pose proof (indexHash_spec 0 (FedServers p) id) as Hidx.
    destruct (indexHash 0 (FedServers p) id) as [[|] i]; simpl; [|done].
    destruct Hidx as (pre & s & post & E & Hs & _). exfalso. apply Hnin.
    rewrite E. unfold ids. rewrite fmap_app, fmap_cons, Hs.
    apply elem_of_app. right. by left.
  - intros pre s post Efed Hs Hpre Hn Hm.
    destruct (GetVirtualServers_found p minute id pre post s) as (p' & Emap & E);
      try done.
    assert (Hpos : 0 < len (FedServers p) ∧ 0 ≤ len pre < len (FedServers p)).
    { rewrite Efed. unfold len. rewrite length_app. simpl. lia. }
    eexists _, p'. split; [exact E|]. split; [done|].
    split; [apply Z.mod_pos_bound; lia|].
    destruct (MakeMap__fresh p p' Emap) as (Hfresh & Hfed & Hh & _).
    unfold MapFresh in Hfresh. rewrite Hfed, Hh in Hfresh.
    destruct (MakeMap_at (len (FedServers p)) (DBHeight p)) as (t & Et & Hat); [lia|].
    rewrite Hfresh in Et. injection Et as <-.
    set (s0 := uint32 (DBHeight p * 131) + minute + 1).
    assert (Hv : 0 ≤ (len pre - s0) `mod` len (FedServers p) < len (FedServers p))
      by (apply Z.mod_pos_bound; lia).
    rewrite Hat by lia. rewrite decide_True by lia. f_equal.
    apply (rotation_inverse _ s0 (len pre)); (lia || done).
Qed.

(** *** Membership and the server map *)

(** *** From a hash to its leader *)

Lemma VMIndexFor_range p (hash : list byte) :
  0 < len (FedServers p) < 2 ^ 63 → len hash < 2 ^ 56 →
  ∃ vs, VMIndexFor p hash = Ok vs ∧ 0 ≤ vs < len (FedServers p).
Proof.
  intros Hn Hh. unfold VMIndexFor. destruct (OneLeader (State_ p)).
  { exists 0. split; [done|lia]. }
  pose proof (byteSum_bounds hash) as Hb.
  assert (Hmod : 0 ≤ byteSum hash `mod` len (FedServers p) < len (FedServers p))
    by (apply Z.mod_pos_bound; lia).
  exists (byteSum hash `mod` len (FedServers p)). split; [|done].
  unfold sumBytes. rewrite sumBytes_no_wrap by (pow2; lia). simpl.
  unfold uint64. rewrite (Z.mod_small (len _)) by (pow2; lia).
  destruct (Z.eqb_spec (len (FedServers p)) 0); [lia|].
  f_equal. unfold int64. rewrite Z.add_0_l.
  rewrite (Z.mod_small (_ + _)) by (pow2; lia). lia.
Qed.

(** X5: [FedServerFor(minute, hash)] and [GetVirtualServers] agree.
    On a list whose server map is up to date, with 1 to 64 federated servers
    and a minute below 10, [FedServerFor] returns a federated server of the
    list, namely the one the map holds at [VMIndexFor(hash)]; and when the
    chain-ids are unique, [GetVirtualServers] for the chain-id of that server
    returns [true] and this very VM, and leaves the list as it is. *)
Theorem FedServerFor_leads p (minute : Z) (hash : list byte) :
  MapFresh p → 0 < len (FedServers p) ≤ 64 → 0 ≤ minute < 10 →
  len hash < 2 ^ 56 →
  ∃ vs s, VMIndexFor p hash = Ok vs ∧ 0 ≤ vs < len (FedServers p)
    ∧ FedServerFor minute hash p = Ok (Some s) ∧ s ∈ FedServers p
    ∧ (NoDup (ids (FedServers p)) →
       GetVirtualServers minute (ChainID s) p = Ok (true, vs, p)).
Proof.
  intros Hfresh Hn Hm Hh.
  destruct (VMIndexFor_range p hash) as (vs & Evs & Hvs); [pow2; lia|done|].
  destruct (MakeMap_at (len (FedServers p)) (DBHeight p) Hn) as (t & Et & Hat).
  unfold MapFresh in Hfresh. rewrite Hfresh in Et. injection Et as <-.
  set (s0 := uint32 (DBHeight p * 131) + minute + 1).
  set (f := (s0 + vs) `mod` len (FedServers p)).
  assert (Hf : 0 ≤ f < len (FedServers p)) by (apply Z.mod_pos_bound; lia).
  assert (Eat : ServerMap_at (ServerMap p) minute vs = Ok f).
  { rewrite Hat by lia. by rewrite decide_True by lia. }
  destruct (lookup_lt_is_Some_2 (FedServers p) (Z.to_nat f)) as [s Es];
    [unfold len in Hf; lia|].
  exists vs, s. split; [done|]. split; [done|]. split; [|split].
  - unfold FedServerFor. rewrite Evs. simpl.
    destruct (Z.ltb_spec vs 0); [lia|]. rewrite Eat. simpl.
    by rewrite (proj2 (index_Ok _ f s)) by (split; [lia|done]).
  - by eapply list_elem_of_lookup_2.
  - intros Hnd.
    pose proof (take_drop_middle _ _ _ Es) as Esplit.
    assert (Hlen : len (take (Z.to_nat f) (FedServers p)) = f).
    { unfold len in *. rewrite length_take. lia. }
    destruct (GetVirtualServers_found p minute (ChainID s)
                (take (Z.to_nat f) (FedServers p)) (drop (S (Z.to_nat f)) (FedServers p)) s)
      as (p' & Emap & E); try done; try lia.
    { rewrite <- Esplit in Hnd. unfold ids in Hnd.
      rewrite fmap_app, fmap_cons in Hnd.
      apply NoDup_app in Hnd as (_ & Hnd & _). intros Hin. apply (Hnd _ Hin). by left. }
    rewrite (MapFresh_MakeMap_ p Hfresh) in Emap. injection Emap as <-.
    rewrite E, Hlen. do 3 f_equal. fold s0. symmetry.
    apply (rotation_inverse _ s0 f vs); [lia|done|done|done].
Qed.

(** *** The server map is kept fresh *)

Lemma RemoveAuditServerHash_fresh p (id : Hash) :
  MapFresh p → MapFresh (RemoveAuditServerHash id p).
Proof.
  unfold RemoveAuditServerHash.
  by destruct (GetAuditServerIndexHash p id) as [[|] i].
Qed.

Lemma RemoveFedServerHash_fresh p (id : Hash) p' :
  MapFresh p → RemoveFedServerHash id p = Ok p' → MapFresh p'.
Proof.
  intros Hf. unfold RemoveFedServerHash.
  destruct (GetFedServerIndexHash p id) as [[|] i]; simpl.
  - intros E. by apply MakeMap__fresh in E as [? _].
  - intros [= <-]. by apply RemoveAuditServerHash_fresh.
Qed.

Lemma SortServers_length (l : list Server) : length (SortServers l) = length l.
Proof. apply Permutation_length, SortServers_sorts. Qed.

(** X6: the server map is kept up to date. [NewProcessList] returns a
    list whose [ServerMap] is [MakeMap(len(FedServers), DBHeight)], and
    [AddFedServer], [AddAuditServer], [RemoveFedServerHash] and
    [RemoveAuditServerHash] keep it so, whichever branch they take. *)
Theorem MapFresh_invariant :
  (∀ (state : State ReplayT W) previous dbheight p,
     NewProcessList state previous dbheight = Ok p → MapFresh p)
  ∧ (∀ p (id : Hash), MapFresh p →
       (∀ i p', AddFedServer id p = Ok (i, p') → MapFresh p')
       ∧ (∀ i p', AddAuditServer id p = Ok (i, p') → MapFresh p')
       ∧ (∀ p', RemoveFedServerHash id p = Ok p' → MapFresh p')
       ∧ MapFresh (RemoveAuditServerHash id p)).
Proof.
  split.
  - intros state previous dbheight p. unfold NewProcessList. intros E.
    apply bind_Ok in E as (pl & _ & E).
    unfold GetTimestamp in E. cbn beta iota zeta in E.
    apply bind_Ok in E as (pl' & Emap & [= <-]).
    by apply MakeMap__fresh in Emap as [? _].
  - intros p id Hf. split; [|split; [|split]].
    + intros i p'. unfold AddFedServer.
      assert (Hf1 : MapFresh (SortFedServers p)).
      { unfold MapFresh, len in *. simpl. by rewrite SortServers_length. }
      destruct (GetFedServerIndexHash (SortFedServers p) id) as [[|] j].
      { by intros [= <- <-]. }
      destruct (j <? 0); [by intros [= <- <-]|].
      destruct (GetAuditServerIndexHash (SortFedServers p) id) as [auditFound ?].
      intros E. apply bind_Ok in E as (p1 & Emap & [= <- <-]).
      by apply MakeMap__fresh in Emap as [? _].
    + intros i p'. unfold AddAuditServer.
      destruct (GetAuditServerIndexHash p id) as [[|] j]; [by intros [= <- <-]|].
      destruct (GetFedServerIndexHash p id) as [fedFound ?].
      intros E. apply bind_Ok in E as (p1 & E1 & [= <- <-]).
      assert (Hf1 : MapFresh p1).
      { destruct fedFound; [by eapply RemoveFedServerHash_fresh|by injection E1 as <-]. }
      exact Hf1.
    + intros p'. by apply RemoveFedServerHash_fresh.
    + by apply RemoveAuditServerHash_fresh.
Qed.

(** *** Looking a server up *)

Lemma elem_of_ids_middle (l pre post : list Server) (s : Server) :
  l = pre ++ s :: post → ChainID s ∈ ids l.
Proof.
  intros ->. unfold ids. rewrite fmap_app, fmap_cons. apply elem_of_app. right. by left.
Qed.

Lemma indexHash_found (i0 : Z) (l : list Server) (id : Hash) :
  id ∈ ids l →
  ∃ i s, indexHash i0 l id = (true, i0 + i) ∧ 0 ≤ i < len l
    ∧ l !! Z.to_nat i = Some s ∧ ChainID s = id
    ∧ (id ∉ ids (take (Z.to_nat i) l)).
Proof.
  intros Hin. pose proof (indexHash_spec i0 l id) as Hspec.
  destruct (indexHash i0 l id) as [[|] i].
  - destruct Hspec as (pre & s & post & -> & Hs & Hpre & ->).
    exists (len pre), s. unfold len. rewrite Nat2Z.id. split; [done|].
    split; [rewrite length_app; simpl; lia|].
    split; [by rewrite list_lookup_middle|]. split; [done|].
    by rewrite take_app_length.
  - by destruct Hspec as [Hnin _].
Qed.

Lemma indexHash_absent (i0 : Z) (l : list Server) (id : Hash) :
  (id ∉ ids l) → indexHash i0 l id = (false, i0 + len l).
Proof.
  intros Hnin. pose proof (indexHash_spec i0 l id) as Hspec.
  destruct (indexHash i0 l id) as [[|] i].
  - destruct Hspec as (pre & s & post & E & Hs & _). exfalso. apply Hnin.
    rewrite <- Hs. by eapply elem_of_ids_middle.
  - by destruct Hspec as [_ ->].
Qed.

(** X7: [GetFedServerIndexHash] and [GetAuditServerIndexHash] are
    linear searches for the first match. For an id in the list they return
    [true] and the position of the first server with this chain-id; for an id
    that is not in the list they return [false] and the length of the
    list. *)
Theorem GetServerIndexHash_spec p (id : Hash) :
  (id ∈ ids (FedServers p) →
     ∃ i s, GetFedServerIndexHash p id = (true, i) ∧ 0 ≤ i < len (FedServers p)
       ∧ FedServers p !! Z.to_nat i = Some s ∧ ChainID s = id
       ∧ (id ∉ ids (take (Z.to_nat i) (FedServers p))))
  ∧ ((id ∉ ids (FedServers p)) →
     GetFedServerIndexHash p id = (false, len (FedServers p)))
  ∧ (id ∈ ids (AuditServers p) →
     ∃ i s, GetAuditServerIndexHash p id = (true, i) ∧ 0 ≤ i < len (AuditServers p)
       ∧ AuditServers p !! Z.to_nat i = Some s ∧ ChainID s = id
       ∧ (id ∉ ids (take (Z.to_nat i) (AuditServers p))))
  ∧ ((id ∉ ids (AuditServers p)) →
     GetAuditServerIndexHash p id = (false, len (AuditServers p))).
Proof.
  unfold GetFedServerIndexHash, GetAuditServerIndexHash.
  split; [|split; [|split]].
  - intros Hin. destruct (indexHash_found 0 _ _ Hin) as (i & s & E & H').
    exists i, s. by rewrite E, Z.add_0_l.
  - intros Hnin. by rewrite indexHash_absent, Z.add_0_l.
  - intros Hin. destruct (indexHash_found 0 _ _ Hin) as (i & s & E & H').
    exists i, s. by rewrite E, Z.add_0_l.
  - intros Hnin. by rewrite indexHash_absent, Z.add_0_l.
Qed.

(** *** Sorting *)

Lemma bubble_sorted (k : nat) (l : list Server) :
  Sorted chainLe l → bubble k l = (l, true).
Proof.
  revert l. induction k as [|k IH]; intros l Hs; [by destruct l as [|? [|? ?]]|].
  destruct l as [|a [|b t]]; try done. cbn [bubble].
  apply Sorted_inv in Hs as [Hs Hhd]. apply HdRel_inv in Hhd.
  unfold chainLe in Hhd.
  destruct (Z.ltb_spec 0 (bytes_Compare (ChainID a) (ChainID b))); [lia|].
  by rewrite (IH (b :: t)).
Qed.

Lemma SortServers_sorted_id (l : list Server) : Sorted chainLe l → SortServers l = l.
Proof.
  intros Hs. unfold SortServers.
  destruct (length l - 1)%nat as [|n] eqn:En; [done|].
  cbn [SortServers_outer]. rewrite Nat.sub_0_r, En.
  pose proof (SortServers_inner_bubble (S n) [] l true) as E.
  cbn [length app] in E. rewrite E, bubble_sorted by done. done.
Qed.

(** X8: [SortServers] sorts. Its result is ascending by chain-id,
    is a permutation of its argument of the same length, is the argument
    itself when that is ascending already, and sorting twice is sorting
    once. *)
Theorem SortServers_sorted_permutation (l : list Server) :
  ascending (SortServers l) ∧ SortServers l ≡ₚ l
  ∧ length (SortServers l) = length l
  ∧ (ascending l → SortServers l = l)
  ∧ SortServers (SortServers l) = SortServers l.
Proof.
  destruct (SortServers_sorts l) as [Hs Hp].
  apply StronglySorted_Sorted in Hs.
  split; [done|]. split; [done|]. split; [by apply Permutation_length|].
  split; [apply SortServers_sorted_id|by apply SortServers_sorted_id].
Qed.

(** *** Adding, then looking up or removing *)

Lemma indexHash_app (i0 : Z) (l1 l2 : list Server) (id : Hash) :
  (id ∉ ids l1) → indexHash i0 (l1 ++ l2) id = indexHash (i0 + len l1) l2 id.
Proof.
  revert i0. induction l1 as [|a l1 IH]; intros i0 Hnin; simpl.
  - f_equal. unfold len. simpl. lia.
  - destruct (Z.eqb_spec (bytes_Compare id (ChainID a)) 0) as [E|E].
    + apply bytes_Compare_eq in E. exfalso. apply Hnin. rewrite E. by left.
    + rewrite IH by (intros Hin; apply Hnin; by right).
      f_equal. unfold len. simpl. lia.
Qed.

Lemma indexHash_last (l : list Server) (id : Hash) (online : bool) :
  (id ∉ ids l) → indexHash 0 (l ++ [mkServer id online]) id = (true, len l).
Proof.
  intros Hnin. rewrite indexHash_app by done. simpl.
  by rewrite (proj2 (bytes_Compare_eq id id) eq_refl).
Qed.

(** [AddFedServer] for a chain-id that is not federated yet. *)
Lemma AddFedServer_new p (id : Hash) :
  (id ∉ ids (FedServers p)) →
  AddFedServer id p
  = (let p1 := SortFedServers p in
     let p2 := if (GetAuditServerIndexHash p1 id).1
               then RemoveAuditServerHash id p1 else p1 in
     let p3 := Enqueue (AddLeaderInternal (DBHeight p) id) p2 in
     p4 ← MakeMap_ (set_FedServers
                      (SortServers (FedServers p) ++ [mkServer id true]) p3);
     Ok (len (FedServers p), p4)).
Proof.
  intros Hnin. unfold AddFedServer, GetFedServerIndexHash.
  change (FedServers (SortFedServers p)) with (SortServers (FedServers p)).
  rewrite indexHash_absent by (by rewrite ids_SortServers).
  rewrite Z.add_0_l.
  destruct (Z.ltb_spec (len (SortServers (FedServers p))) 0); [unfold len in *; lia|].
  destruct (GetAuditServerIndexHash (SortFedServers p) id) as [auditFound j] eqn:Ea.
  cbn [fst].
  assert (Hfed : ∀ q : ProcessList ReplayT W,
            FedServers q = SortServers (FedServers p) →
            insertAt (len (SortServers (FedServers p))) (mkServer id true) (FedServers q)
            = SortServers (FedServers p) ++ [mkServer id true]).
  { intros q ->. apply insertAt_end. }
  assert (Hlen : len (SortServers (FedServers p)) = len (FedServers p)).
  { unfold len. by rewrite SortServers_length. }
  destruct auditFound.
  - destruct (RemoveAuditServerHash_spec (SortFedServers p) id) as (E1 & E2 & _).
    cbn zeta. rewrite E2. simpl FedServers at 1.
    rewrite Hfed by (simpl; exact E1). by rewrite Hlen.
  - cbn zeta. simpl FedServers at 1. rewrite insertAt_end. by rewrite Hlen.
Qed.

(** X9: the index an add returns is where the server is. After
    [AddFedServer(id)] returns [i], [GetFedServerIndexHash(id)] returns
    [(true, i)], and likewise for [AddAuditServer] and
    [GetAuditServerIndexHash]. When the chain-ids are unique and disjoint
    across the two lists (fewer than 64 federated servers), the server is
    afterwards not found in the other list. *)
Theorem Add_then_lookup p (id : Hash) :
  (∀ i p', AddFedServer id p = Ok (i, p') →
           GetFedServerIndexHash p' id = (true, i))
  ∧ (∀ i p', AddAuditServer id p = Ok (i, p') →
             GetAuditServerIndexHash p' id = (true, i))
  ∧ (MembersOK p → len (FedServers p) < 64 →
     (∀ i p', AddFedServer id p = Ok (i, p') →
              GetAuditServerIndexHash p' id = (false, len (AuditServers p')))
     ∧ (∀ i p', AddAuditServer id p = Ok (i, p') →
                GetFedServerIndexHash p' id = (false, len (FedServers p')))).
Proof.
  assert (Hfed : ∀ i p', AddFedServer id p = Ok (i, p') →
                   GetFedServerIndexHash p' id = (true, i)).
  { intros i p'. destruct (decide (id ∈ ids (FedServers p))) as [Hin|Hnin].
    - unfold AddFedServer.
      destruct (GetFedServerIndexHash (SortFedServers p) id) as [[|] j] eqn:E.
      + by intros [= <- <-].
      + exfalso. unfold GetFedServerIndexHash in E.
        pose proof (indexHash_spec 0 (FedServers (SortFedServers p)) id) as Hs.
        rewrite E in Hs. destruct Hs as [Hs _]. apply Hs. simpl.
        by rewrite ids_SortServers.
    - rewrite AddFedServer_new by done. cbn zeta. intros E.
      apply bind_Ok in E as (p4 & Emap & [= <- <-]).
      apply MakeMap__fresh in Emap as (_ & Ef & _).
      unfold GetFedServerIndexHash. rewrite Ef. simpl.
      rewrite indexHash_last by (by rewrite ids_SortServers).
      unfold len. by rewrite SortServers_length. }
  assert (Haud : ∀ i p', AddAuditServer id p = Ok (i, p') →
                   GetAuditServerIndexHash p' id = (true, i)).
  { intros i p'. unfold AddAuditServer.
    destruct (GetAuditServerIndexHash p id) as [[|] j] eqn:E; [by intros [= <- <-]|].
    unfold GetAuditServerIndexHash in E.
    pose proof (indexHash_spec 0 (AuditServers p) id) as Hs. rewrite E in Hs.
    destruct Hs as [Hnin ->]. rewrite Z.add_0_l.
    destruct (GetFedServerIndexHash p id) as [fedFound k] eqn:Ef.
    intros E'. apply bind_Ok in E' as (p1 & E1 & [= <- <-]).
    assert (Ha1 : AuditServers p1 = AuditServers p).
    { destruct fedFound; [|by injection E1 as <-].
      unfold RemoveFedServerHash in E1. rewrite Ef in E1. simpl in E1.
      by apply MakeMap__fresh in E1 as (_ & _ & _ & -> & _). }
    unfold GetAuditServerIndexHash. simpl. rewrite Ha1, insertAt_end.
    by apply indexHash_last. }
  split; [done|]. split; [done|]. intros Hok Hn. split.
  - intros i p' E. pose proof (Hfed i p' E) as Hl.
    destruct (AddFedServer_spec p id Hok Hn) as (i' & p'' & E' & (_ & _ & Hd) & _).
    rewrite E in E'. injection E' as <- <-.
    unfold GetAuditServerIndexHash. rewrite indexHash_absent, Z.add_0_l; [done|].
    apply Hd. unfold GetFedServerIndexHash in Hl.
    pose proof (indexHash_spec 0 (FedServers p') id) as Hs. rewrite Hl in Hs.
    destruct Hs as (pre & s & post & Es & <- & _). by eapply elem_of_ids_middle.
  - intros i p' E. pose proof (Haud i p' E) as Hl.
    destruct (AddAuditServer_spec p id Hok ltac:(lia))
      as (i' & p'' & E' & (_ & _ & Hd) & _).
    rewrite E in E'. injection E' as <- <-.
    unfold GetFedServerIndexHash. rewrite indexHash_absent, Z.add_0_l; [done|].
    intros Hin. apply (Hd id Hin). unfold GetAuditServerIndexHash in Hl.
    pose proof (indexHash_spec 0 (AuditServers p') id) as Hs. rewrite Hl in Hs.
    destruct Hs as (pre & s & post & Es & <- & _). by eapply elem_of_ids_middle.
Qed.

Lemma splice_last (l : list Server) (s : Server) : splice (len l) (l ++ [s]) = l.
Proof. by rewrite splice_middle, app_nil_r. Qed.

(** X10: adding a new federated server and removing it again. For
    an id in neither list, with fewer than 64 federated servers,
    [AddFedServer(id)] returns the old number of federated servers, and
    [RemoveFedServerHash(id)] then leaves the federated servers as they were
    but sorted, the audit servers and the VMs untouched, the server map up to
    date, and an [AddLeaderInternal] followed by a [RemoveLeaderInternal] at
    the end of the elections queue. *)
Theorem AddFedServer_RemoveFedServerHash p (id : Hash) :
  (id ∉ ids (FedServers p)) → (id ∉ ids (AuditServers p)) →
  len (FedServers p) < 64 →
  ∃ p1 p2, AddFedServer id p = Ok (len (FedServers p), p1)
    ∧ RemoveFedServerHash id p1 = Ok p2
    ∧ FedServers p2 = SortServers (FedServers p)
    ∧ AuditServers p2 = AuditServers p
    ∧ MapFresh p2
    ∧ VMs p2 = VMs p
    ∧ electionsQueue (State_ p2)
      = electionsQueue (State_ p)
        ++ [AddLeaderInternal (DBHeight p) id; RemoveLeaderInternal (DBHeight p) id].
Proof.
  intros Hf Ha Hn. rewrite AddFedServer_new by done. cbn zeta.
  unfold GetAuditServerIndexHash at 1. simpl AuditServers at 1.
  rewrite indexHash_absent by done. cbn [fst].
  set (q := set_FedServers _ _).
  destruct (MakeMap_Ok q) as [sm Esm].
  { unfold q, len in *. simpl. rewrite length_app, SortServers_length. simpl. lia. }
  rewrite Esm. simpl. exists (set_ServerMap sm q).
  unfold RemoveFedServerHash, GetFedServerIndexHash.
  change (FedServers (set_ServerMap sm q))
    with (SortServers (FedServers p) ++ [mkServer id true]).
  rewrite indexHash_last by (by rewrite ids_SortServers). cbn [negb].
  set (q2 := set_FedServers _ _).
  assert (Hq2 : FedServers q2 = SortServers (FedServers p)).
  { unfold q2. simpl. apply splice_last. }
  destruct (MakeMap_Ok q2) as [sm2 Esm2].
  { rewrite Hq2. unfold len in *. rewrite SortServers_length. lia. }
  rewrite Esm2. eexists. split; [reflexivity|]. split; [reflexivity|].
  split; [exact Hq2|]. split; [done|]. split.
  { by apply MakeMap__fresh in Esm2 as [? _]. }
  split; [done|]. simpl. by rewrite <- app_assoc.
Qed.

(** X11: promotion and demotion. [AddFedServer] of an audit server
    that is not a federated one (fewer than 64 of those) removes its first
    entry from the audit servers, places it, online, after the sorted
    federated servers, and enqueues [RemoveAuditInternal] and then
    [AddLeaderInternal]. [AddAuditServer] of a federated server that is not
    an audit one removes its first entry from the federated servers, places
    it, online, after the audit servers, rebuilds the server map, and enqueues
    [RemoveLeaderInternal] and then [AddAuditInternal]. *)
Theorem promote_demote p (id : Hash) (pre post : list Server) (s : Server) :
  ChainID s = id → (id ∉ ids pre) →
  (AuditServers p = pre ++ s :: post → (id ∉ ids (FedServers p)) →
   len (FedServers p) < 64 →
   ∃ p', AddFedServer id p = Ok (len (FedServers p), p')
     ∧ FedServers p' = SortServers (FedServers p) ++ [mkServer id true]
     ∧ AuditServers p' = pre ++ post
     ∧ electionsQueue (State_ p')
       = electionsQueue (State_ p)
         ++ [RemoveAuditInternal (DBHeight p) id; AddLeaderInternal (DBHeight p) id])
  ∧ (FedServers p = pre ++ s :: post → (id ∉ ids (AuditServers p)) →
     len (FedServers p) ≤ 64 →
     ∃ p', AddAuditServer id p = Ok (len (AuditServers p), p')
       ∧ FedServers p' = pre ++ post
       ∧ AuditServers p' = AuditServers p ++ [mkServer id true]
       ∧ MapFresh p'
       ∧ electionsQueue (State_ p')
         = electionsQueue (State_ p)
           ++ [RemoveLeaderInternal (DBHeight p) id; AddAuditInternal (DBHeight p) id]).
Proof.
  intros Hs Hpre. split.
  - intros Ea Hf Hn. rewrite AddFedServer_new by done. cbn zeta.
    assert (Eidx : indexHash 0 (pre ++ s :: post) id = (true, len pre)).
    { rewrite indexHash_app by done. simpl.
      by rewrite Hs, (proj2 (bytes_Compare_eq id id) eq_refl), Z.add_0_l. }
    unfold GetAuditServerIndexHash at 1. simpl AuditServers at 1.
    rewrite Ea, Eidx. cbn [fst].
    unfold RemoveAuditServerHash, GetAuditServerIndexHash. simpl AuditServers at 1.
    rewrite Ea, Eidx. cbn [negb].
    set (q := set_FedServers _ _).
    destruct (MakeMap_Ok q) as [sm Esm].
    { unfold q, len in *. simpl. rewrite length_app, SortServers_length. simpl. lia. }
    rewrite Esm. simpl. eexists. split; [reflexivity|]. simpl.
    split; [done|]. rewrite Ea, splice_middle. split; [done|].
    by rewrite <- app_assoc.
  - intros Ef Ha Hn. unfold AddAuditServer, GetAuditServerIndexHash.
    rewrite indexHash_absent, Z.add_0_l by done.
    assert (Eidx : indexHash 0 (pre ++ s :: post) id = (true, len pre)).
    { rewrite indexHash_app by done. simpl.
      by rewrite Hs, (proj2 (bytes_Compare_eq id id) eq_refl), Z.add_0_l. }
    unfold GetFedServerIndexHash. rewrite Ef, Eidx.
    unfold RemoveFedServerHash, GetFedServerIndexHash. rewrite Ef, Eidx. cbn [negb].
    simpl FedServers. rewrite Ef, splice_middle.
    set (q := set_FedServers _ _).
    destruct (MakeMap_Ok q) as [sm Esm].
    { unfold q, len in *. simpl. rewrite Ef in Hn.
      rewrite length_app in *. simpl in Hn. lia. }
    rewrite Esm. simpl. eexists. split; [reflexivity|]. simpl.
    split; [done|]. rewrite insertAt_end. split; [done|].
    split; [|by rewrite <- app_assoc].
    apply MakeMap__fresh in Esm as [Hfresh _]. exact Hfresh.
Qed.

(** *** Admission and the readers of the queues *)

Lemma admits_refl (h : nat) vm : admits h vm vm.
Proof. repeat split; done. Qed.

(** *** Reading acks *)

(** X12: reading acks on a list a node can hold. [GetAckAt(i, h)]
    returns a non-nil ack, the one stored at [h], for every processed height
    [0 ≤ h < vm.Height], and nil for a height that is negative or beyond the
    acks. [GetAck(i)] reads the slot at [vm.Height], the next one to process:
    nil when every slot is processed, the ack stored there (nil or not)
    otherwise. *)
Theorem GetAckAt_processed p (i h : Z) vm :
  Reachable p → index (VMs p) i = Ok vm →
  (0 ≤ h < Height vm →
     ∃ a, GetAckAt i h p = Ok (Some a) ∧ ListAck vm !! Z.to_nat h = Some (Some a))
  ∧ (h < 0 ∨ len (ListAck vm) ≤ h → GetAckAt i h p = Ok None)
  ∧ (Height vm = len (List vm) → GetAck i p = Ok None)
  ∧ (Height vm < len (List vm) →
     GetAck i p = Ok (mjoin (ListAck vm !! Z.to_nat (Height vm)))).
Proof.
  intros Hr Hvm. pose proof (Reachable_inv p Hr) as Hall.
  pose proof Hvm as Hvm'. apply index_Ok in Hvm' as [Hi Hlk].
  destruct (Forall_lookup_1 _ _ _ _ Hall Hlk) as [(I1 & I2 & I3 & I4) _].
  unfold GetAck, GetAckAt. rewrite Hvm. simpl. unfold len in *.
  split; [|split; [|split]].
  - intros Hh. destruct (I4 (Z.to_nat h)) as [a Ha]; [lia|]. exists a.
    split; [|done].
    destruct (Z.ltb_spec h 0); [lia|].
    destruct (Z.leb_spec (Z.of_nat (length (ListAck vm))) h); [lia|]. simpl.
    apply index_Ok. split; [lia|done].
  - intros [Hh|Hh].
    + by destruct (Z.ltb_spec h 0); [|lia].
    + destruct (Z.leb_spec (Z.of_nat (length (ListAck vm))) h); [|lia].
      by rewrite orb_true_r.
  - intros Hh. destruct (Z.leb_spec (Z.of_nat (length (ListAck vm))) (Height vm)); [|lia].
    by rewrite orb_true_r.
  - intros Hh. destruct (Z.ltb_spec (Height vm) 0); [lia|].
    destruct (Z.leb_spec (Z.of_nat (length (ListAck vm))) (Height vm)); [lia|]. simpl.
    destruct (lookup_lt_is_Some_2 (ListAck vm) (Z.to_nat (Height vm))) as [a Ha]; [lia|].
    rewrite Ha. simpl. apply index_Ok. split; [lia|done].
Qed.

(** *** Staging *)

Lemma filled_None vm (h : nat) :
  filled vm h = None →
  (length (List vm) ≤ h)%nat ∨ List vm !! h = Some None.
Proof.
  unfold filled, len. destruct (Z.ltb_spec (Z.of_nat h) (Z.of_nat (length (List vm)))).
  - destruct (lookup_lt_is_Some_2 (List vm) h) as [[x|] E]; [lia| |].
    + by rewrite E.
    + by right.
  - left. lia.
Qed.

Lemma filled_Some vm (h : nat) (x : Msg) :
  filled vm h = Some x → List vm !! h = Some (Some x).
Proof.
  unfold filled. destruct (_ <? _); [|done].
  destruct (List vm !! h) as [[y|]|]; simpl; congruence.
Qed.

(** The effect of [stage] on an empty slot. *)
Lemma stage_fill ack m p vm :
  index (VMs p) (VMIndex ack) = Ok vm →
  filled vm (ack_Height ack) = None →
  ack_DBHeight ack = DBHeight p →
  (length (List vm) ≤ length (ListAck vm))%nat →
  let grow := (S (ack_Height ack) - length (List vm))%nat in
  let vm' := set_ListAck (λ _, <[ack_Height ack := Some ack]>
                                 (ListAck vm ++ replicate grow None))
               (set_List (λ _, <[ack_Height ack := Some m]>
                                 (List vm ++ replicate grow None))
                  (set_heartBeat 0 vm)) in
  ∃ p', stage ack m p = Ok p'
    ∧ VMs p' = <[Z.to_nat (VMIndex ack) := vm']> (VMs p)
    ∧ sameLists p p'
    ∧ OldMsgs p' = <[msg_Hash m := m]> (OldMsgs p)
    ∧ OldAcks p' = <[msg_MsgHash m := ack]> (OldAcks p)
    ∧ sent (State_ p') = OutAck ack :: OutMsgOf m :: sent (State_ p)
    ∧ Acks (State_ p') = delete (msg_MsgHash m) (Acks (State_ p))
    ∧ Holding (State_ p') = delete (msg_MsgHash m) (Holding (State_ p))
    ∧ IdentityChainID (State_ p') = IdentityChainID (State_ p).
Proof.
  intros Hvm Hf Hh Hlen grow vm'. unfold stage, GetTimestamp. simpl.
  rewrite Hvm. simpl. rewrite Hf. simpl.
  destruct (Z.eqb_spec (ack_DBHeight ack) (DBHeight p)); [|done]. simpl.
  pose proof Hvm as Hvm'. apply index_Ok in Hvm' as [Hi Hlk].
  pose proof (lookup_lt_Some _ _ _ Hlk) as Hlt.
  fold grow.
  rewrite (alter_insert _ (VMs p) _ vm) by done.
  rewrite !(alter_after_insert _ (VMs p)) by done.
  rewrite index_insert_eq by done. simpl.
  unfold assign. rewrite length_app, length_replicate.
  destruct (Z.ltb_spec (Z.of_nat (ack_Height ack)) 0); [lia|].
  destruct (Z.leb_spec (Z.of_nat (length (List vm) + grow)) (Z.of_nat (ack_Height ack)));
    [unfold grow in *; lia|]. simpl.
  rewrite ?(alter_after_insert _ (VMs p)) by done.
  rewrite index_insert_eq by done. simpl.
  rewrite length_app, length_replicate.
  destruct (Z.leb_spec (Z.of_nat (length (ListAck vm) + grow)) (Z.of_nat (ack_Height ack)));
    [unfold grow in *; lia|]. simpl.
  rewrite ?(alter_after_insert _ (VMs p)) by done. rewrite !Nat2Z.id.
  eexists. split; [reflexivity|]. simpl.
  rewrite (alter_insert _ (VMs p) _ vm) by done.
  rewrite !(alter_after_insert _ (VMs p)) by done.
  split; [reflexivity|]. repeat split.
  by rewrite delete_delete_eq.
Qed.

(** [AddToProcessList] past its guards is [stage], on a list with the same
    VMs. *)
Lemma AddToProcessList_stage ack m p :
  ack_MsgHash ack ≠ None →
  Response ack = true ∨ LeaderChainID ack ≠ IdentityChainID (State_ p) →
  ∃ p1, AddToProcessList (Some ack) m p = stage ack m p1
    ∧ VMs p1 = VMs p ∧ sameLists p p1 ∧ OldMsgs p1 = OldMsgs p
    ∧ OldAcks p1 = OldAcks p ∧ sent (State_ p1) = sent (State_ p)
    ∧ Acks (State_ p1) = Acks (State_ p) ∧ Holding (State_ p1) = Holding (State_ p)
    ∧ IdentityChainID (State_ p1) = IdentityChainID (State_ p)
    ∧ Replay (State_ p1) = Replay (State_ p)
    ∧ nextTime p1 = nextTime p.
Proof.
  intros Hhash Hself. unfold AddToProcessList.
  destruct (ack_MsgHash ack); [|done]. simpl.
  set (p1 := if _ && _ then _ else p). exists p1.
  assert (H1 : VMs p1 = VMs p ∧ sameLists p p1 ∧ OldMsgs p1 = OldMsgs p
    ∧ OldAcks p1 = OldAcks p ∧ sent (State_ p1) = sent (State_ p)
    ∧ Acks (State_ p1) = Acks (State_ p) ∧ Holding (State_ p1) = Holding (State_ p)
    ∧ IdentityChainID (State_ p1) = IdentityChainID (State_ p)
    ∧ Replay (State_ p1) = Replay (State_ p)
    ∧ nextTime p1 = nextTime p).
  { unfold p1. destruct (_ && _); repeat split. }
  split; [|exact H1]. destruct H1 as (_ & _ & _ & _ & _ & _ & _ & Hid & _).
  destruct Hself as [->|Hne]; [done|].
  rewrite bool_decide_eq_false_2 by congruence. by rewrite andb_false_r.
Qed.

(** X13: admission into a free slot. For an ack with a message hash
    that is not this node's own (or is a response), for the height of the
    list, whose slot is not filled in a VM with as many acks as messages:
    [AddToProcessList(ack, m)] returns; the pair is stored at slot
    [ack.Height]; [GetAckAt] finds the ack and [GetOldMsgs] the message;
    [OldAcks] holds the ack under the message hash; the message and then the
    ack were sent out; the message hash is gone from [State.Acks] and
    [State.Holding]; the VM keeps its height, has a cleared heart beat, and
    its two slices have grown to [ack.Height + 1] if they were shorter. *)
Theorem AddToProcessList_stores p ack m vm :
  ack_MsgHash ack ≠ None →
  Response ack = true ∨ LeaderChainID ack ≠ IdentityChainID (State_ p) →
  index (VMs p) (VMIndex ack) = Ok vm →
  filled vm (ack_Height ack) = None →
  ack_DBHeight ack = DBHeight p →
  length (ListAck vm) = length (List vm) →
  ∃ p' vm', AddToProcessList (Some ack) m p = Ok p'
    ∧ index (VMs p') (VMIndex ack) = Ok vm'
    ∧ stored p' ack m
    ∧ GetAckAt (VMIndex ack) (Z.of_nat (ack_Height ack)) p' = Ok (Some ack)
    ∧ GetOldMsgs (msg_Hash m) (Some p') = Some m
    ∧ OldAcks p' !! msg_MsgHash m = Some ack
    ∧ sent (State_ p') = OutAck ack :: OutMsgOf m :: sent (State_ p)
    ∧ Acks (State_ p') !! msg_MsgHash m = None
    ∧ Holding (State_ p') !! msg_MsgHash m = None
    ∧ Height vm' = Height vm ∧ heartBeat vm' = 0
    ∧ length (List vm') = max (length (List vm)) (S (ack_Height ack))
    ∧ length (ListAck vm') = length (List vm').
Proof.
  intros Hhash Hself Hvm Hf Hh Hlen.
  destruct (AddToProcessList_stage ack m p Hhash Hself)
    as (p1 & -> & Hv1 & (_ & _ & _ & Hh1) & Hm1 & Ha1 & Hs1 & Hk1 & Hd1 & _).
  destruct (stage_fill ack m p1 vm) as (p' & E & Hv & _ & Hom & Hoa & Hs & Hk & Hd & _);
    [by rewrite Hv1|done|congruence|lia|].
  pose proof Hvm as Hvm'. apply index_Ok in Hvm' as [Hi Hlk].
  pose proof (lookup_lt_Some _ _ _ Hlk) as Hlt.
  set (grow := (S (ack_Height ack) - length (List vm))%nat) in *.
  match type of Hv with _ = <[_ := ?v]> _ => set (vm1 := v) in * end.
  exists p', vm1. split; [exact E|].
  assert (Hidx : index (VMs p') (VMIndex ack) = Ok vm1).
  { rewrite Hv, Hv1. by apply index_insert_eq. }
  split; [exact Hidx|].
  assert (HL : (ack_Height ack < length (List vm ++ replicate grow None))%nat).
  { rewrite length_app, length_replicate. unfold grow. lia. }
  assert (HA : (ack_Height ack < length (ListAck vm ++ replicate grow (@None Ack)))%nat).
  { rewrite length_app, length_replicate. unfold grow. lia. }
  assert (HLm : List vm1 !! ack_Height ack = Some (Some m))
    by (by apply list_lookup_insert_eq).
  assert (HLa : ListAck vm1 !! ack_Height ack = Some (Some ack))
    by (by apply list_lookup_insert_eq).
  assert (Hfacts : Height vm1 = Height vm ∧ heartBeat vm1 = 0
            ∧ length (List vm1) = max (length (List vm)) (S (ack_Height ack))
            ∧ length (ListAck vm1) = length (List vm1)).
  { unfold vm1. simpl. split; [done|]. split; [done|].
    rewrite !length_insert, !length_app, !length_replicate. unfold grow. lia. }
  clearbody vm1.
  split; [|split; [|split; [|split; [|split; [|split; [|split]]]]]].
  - exists vm1. done.
  - unfold GetAckAt. rewrite Hidx. simpl.
    pose proof (lookup_lt_Some _ _ _ HLa) as Hlt'.
    destruct (Z.ltb_spec (Z.of_nat (ack_Height ack)) 0); [lia|].
    unfold len.
    destruct (Z.leb_spec (Z.of_nat (length (ListAck vm1))) (Z.of_nat (ack_Height ack)));
      [lia|]. simpl.
    apply index_Ok. split; [lia|]. by rewrite Nat2Z.id.
  - simpl. rewrite Hom. apply lookup_insert_eq.
  - rewrite Hoa. apply lookup_insert_eq.
  - by rewrite Hs, Hs1.
  - rewrite Hk. apply lookup_delete_eq.
  - rewrite Hd. apply lookup_delete_eq.
  - exact Hfacts.
Qed.

(** X14: an ack for another directory-block height stores
    nothing. If [AddToProcessList(ack, m)] returns and [ack] is nil or
    [ack.DBHeight != p.DBHeight], then the VMs, [OldMsgs], [OldAcks], the
    outbound traffic, the servers, the server map and the height are as
    before. *)
Theorem AddToProcessList_other_height p (ack : option Ack) m p' :
  (∀ a, ack = Some a → ack_DBHeight a ≠ DBHeight p) →
  AddToProcessList ack m p = Ok p' →
  VMs p' = VMs p ∧ OldMsgs p' = OldMsgs p ∧ OldAcks p' = OldAcks p
  ∧ sent (State_ p') = sent (State_ p) ∧ sameLists p p'.
Proof.
  intros Hne. unfold AddToProcessList. destruct ack as [ack|]; [|by intros [= <-]].
  specialize (Hne ack eq_refl).
  destruct (isnil _); [by intros [= <-]|].
  set (p1 := if _ && _ then _ else p).
  assert (H1 : VMs p1 = VMs p ∧ OldMsgs p1 = OldMsgs p ∧ OldAcks p1 = OldAcks p
               ∧ sent (State_ p1) = sent (State_ p) ∧ sameLists p p1).
  { unfold p1. destruct (_ && _); repeat split. }
  destruct H1 as (Hv & Hm & Ha & Hs & Hf & Hau & Hsm & Hh).
  assert (Hstage : ∀ p2, VMs p2 = VMs p → OldMsgs p2 = OldMsgs p →
            OldAcks p2 = OldAcks p → sent (State_ p2) = sent (State_ p) →
            sameLists p p2 → stage ack m p2 = Ok p' →
            VMs p' = VMs p ∧ OldMsgs p' = OldMsgs p ∧ OldAcks p' = OldAcks p
            ∧ sent (State_ p') = sent (State_ p) ∧ sameLists p p').
  { intros p2 Hv2 Hm2 Ha2 Hs2 (Hf2 & Hau2 & Hsm2 & Hh2). unfold stage, GetTimestamp.
    simpl. intros E. apply bind_Ok in E as (vm & _ & E).
    destruct (negb (isnil _) && _); [by injection E as <-|].
    destruct (Z.eqb_spec (ack_DBHeight ack) (DBHeight p2)); [congruence|].
    by injection E as <-. }
  destruct (negb (Response ack) && _).
  - unfold GetTimestamp. simpl. destruct (120 <? _); [by intros [= <-]|].
    destruct (negb _); [done|]. by apply Hstage.
  - by apply Hstage.
Qed.

Lemma stage_frame ack m p p' :
  stage ack m p = Ok p' →
  sameLists p p'
  ∧ IdentityChainID (State_ p') = IdentityChainID (State_ p)
  ∧ ∃ vm vm', index (VMs p) (VMIndex ack) = Ok vm
      ∧ VMs p' = <[Z.to_nat (VMIndex ack) := vm']> (VMs p)
      ∧ admits (ack_Height ack) vm vm'.
Proof.
  unfold stage, GetTimestamp. simpl. intros E.
  apply bind_Ok in E as (vm & Hvm & E).
  pose proof Hvm as Hvm'. apply index_Ok in Hvm' as [Hi Hlk].
  pose proof (lookup_lt_Some _ _ _ Hlk) as Hlt.
  assert (Hsame : ∀ q : ProcessList ReplayT W, VMs q = VMs p →
            ∃ vm0 vm', index (VMs p) (VMIndex ack) = Ok vm0
              ∧ VMs q = <[Z.to_nat (VMIndex ack) := vm']> (VMs p)
              ∧ admits (ack_Height ack) vm0 vm').
  { intros q Hq. exists vm, vm. split; [done|]. split; [|apply admits_refl].
    by rewrite Hq, list_insert_id. }
  destruct (_ && _); [injection E as <-; split; [done|]; split; [done|]; by apply Hsame|].
  destruct (negb _); [injection E as <-; split; [done|]; split; [done|]; by apply Hsame|].
  destruct (filled vm (ack_Height ack)) as [stored_m|] eqn:Hf.
  - destruct (bool_decide _); injection E as <-;
      (split; [done|]; split; [done|]); [by apply Hsame|].
    eexists vm, _. split; [done|]. split; [simpl; by apply alter_insert|].
    simpl. unfold admits. simpl. rewrite length_insert.
    repeat split; try done.
    intros _. by rewrite list_lookup_insert_ne.
  - set (grow := (S (ack_Height ack) - length (List vm))%nat) in *. simpl in E.
    rewrite (alter_insert _ (VMs p) _ vm) in E by done.
    rewrite !alter_after_insert in E by done.
    rewrite index_insert_eq in E by done. simpl in E.
    apply bind_Ok in E as (list & Hlist & E). apply assign_Ok in Hlist as [Hh1 ->].
    rewrite alter_after_insert in E by done.
    rewrite index_insert_eq in E by done. simpl in E.
    apply bind_Ok in E as (listAck & HlistAck & E).
    apply assign_Ok in HlistAck as [Hh2 ->].
    injection E as <-. split; [done|]. split; [done|].
    eexists vm, _. split; [done|]. split.
    { simpl. rewrite (alter_insert _ (VMs p) _ vm) by done.
      rewrite !alter_after_insert by done. reflexivity. }
    unfold admits. simpl. rewrite !length_insert, !length_app.
    rewrite Nat2Z.id.
    repeat split; try done; try lia.
    + intros Hj. rewrite list_lookup_insert_ne by done. by apply lookup_app_l.
    + intros Hj. rewrite list_lookup_insert_ne by done. by apply lookup_app_l.
Qed.

(** X15: what an admission can change. If [AddToProcessList(ack, m)]
    returns, the servers, the server map, the height and the identity of the
    node are as before, there are as many VMs as before, the VMs other than
    [ack.VMIndex] are untouched, and in every VM the height and the fields of
    the other writers stay, the slices do not shrink and no slot other than
    [ack.Height] changes. *)
Theorem AddToProcessList_frame p ack m p' :
  AddToProcessList (Some ack) m p = Ok p' →
  sameLists p p'
  ∧ IdentityChainID (State_ p') = IdentityChainID (State_ p)
  ∧ length (VMs p') = length (VMs p)
  ∧ (∀ k : nat, Z.of_nat k ≠ VMIndex ack → VMs p' !! k = VMs p !! k)
  ∧ (∀ (k : nat) vm, VMs p !! k = Some vm →
       ∃ vm', VMs p' !! k = Some vm' ∧ admits (ack_Height ack) vm vm').
Proof.
  unfold AddToProcessList. destruct (isnil _).
  { intros [= <-]. repeat split; try done. intros k vm Hk. exists vm.
    split; [done|apply admits_refl]. }
  set (p1 := if _ && _ then _ else p).
  assert (H1 : VMs p1 = VMs p ∧ sameLists p p1
               ∧ IdentityChainID (State_ p1) = IdentityChainID (State_ p)).
  { unfold p1. destruct (_ && _); repeat split. }
  destruct H1 as (Hv & (Hf & Hau & Hsm & Hh) & Hid).
  assert (Hdone : ∀ q : ProcessList ReplayT W,
            VMs q = VMs p → sameLists p q →
            IdentityChainID (State_ q) = IdentityChainID (State_ p) →
            sameLists p q
            ∧ IdentityChainID (State_ q) = IdentityChainID (State_ p)
            ∧ length (VMs q) = length (VMs p)
            ∧ (∀ k : nat, Z.of_nat k ≠ VMIndex ack → VMs q !! k = VMs p !! k)
            ∧ (∀ (k : nat) vm, VMs p !! k = Some vm →
                 ∃ vm', VMs q !! k = Some vm' ∧ admits (ack_Height ack) vm vm')).
  { intros q Hq Hl Hi. rewrite Hq. repeat split; try done; try apply Hl.
    intros k vm Hk. exists vm. split; [done|apply admits_refl]. }
  assert (Hstage : ∀ p2, VMs p2 = VMs p → sameLists p p2 →
            IdentityChainID (State_ p2) = IdentityChainID (State_ p) →
            stage ack m p2 = Ok p' →
            sameLists p p'
            ∧ IdentityChainID (State_ p') = IdentityChainID (State_ p)
            ∧ length (VMs p') = length (VMs p)
            ∧ (∀ k : nat, Z.of_nat k ≠ VMIndex ack → VMs p' !! k = VMs p !! k)
            ∧ (∀ (k : nat) vm, VMs p !! k = Some vm →
                 ∃ vm', VMs p' !! k = Some vm' ∧ admits (ack_Height ack) vm vm')).
  { intros p2 Hv2 (Hf2 & Hau2 & Hsm2 & Hh2) Hid2 E.
    destruct (stage_frame ack m p2 p' E)
      as ((Hf3 & Hau3 & Hsm3 & Hh3) & Hid3 & vm & vm' & Hvm & Hv3 & Hadm).
    rewrite Hv2 in *. apply index_Ok in Hvm as [Hi Hlk].
    split; [repeat split; congruence|]. split; [congruence|].
    rewrite Hv3, length_insert. split; [done|]. split.
    - intros k Hk. rewrite list_lookup_insert_ne; [done|lia].
    - intros k vm0 Hk. destruct (decide (k = Z.to_nat (VMIndex ack))) as [->|Hne].
      + rewrite Hlk in Hk. injection Hk as <-. exists vm'. split; [|done].
        apply list_lookup_insert_eq. by eapply lookup_lt_Some.
      + exists vm0. rewrite list_lookup_insert_ne by done.
        split; [done|apply admits_refl]. }
  destruct (negb (Response ack) && _).
  - unfold GetTimestamp. simpl. destruct (120 <? _).
    + intros [= <-]. by apply Hdone.
    + destruct (negb _); [done|]. by apply Hstage.
  - by apply Hstage.
Qed.

(** X16: a different message for a filled slot. When slot
    [ack.Height] holds a message with another message hash, the ack is for
    the height of the list and is not this node's own (or is a response), and
    the replay filter accepts the new message, then [AddToProcessList]
    returns having cleared the message of that slot and nothing else: the ack
    of the slot stays, nothing is sent, and [OldMsgs], [OldAcks],
    [State.Acks] and [State.Holding] are as before. *)
Theorem AddToProcessList_conflict p ack m vm (old : Msg) :
  ack_MsgHash ack ≠ None →
  Response ack = true ∨ LeaderChainID ack ≠ IdentityChainID (State_ p) →
  index (VMs p) (VMIndex ack) = Ok vm →
  List vm !! ack_Height ack = Some (Some old) →
  msg_MsgHash old ≠ msg_MsgHash m →
  ack_DBHeight ack = DBHeight p →
  Replay_Valid (Replay (State_ p)) (msg_RepeatHash m) (msg_Timestamp m) (nextTime p)
    = true →
  ∃ p', AddToProcessList (Some ack) m p = Ok p'
    ∧ VMs p' = <[Z.to_nat (VMIndex ack) :=
                   set_List (λ l, <[ack_Height ack := None]> l) vm]> (VMs p)
    ∧ sent (State_ p') = sent (State_ p)
    ∧ OldMsgs p' = OldMsgs p ∧ OldAcks p' = OldAcks p
    ∧ Acks (State_ p') = Acks (State_ p) ∧ Holding (State_ p') = Holding (State_ p).
Proof.
  intros Hhash Hself Hvm Hold Hne Hh Hvalid.
  destruct (AddToProcessList_stage ack m p Hhash Hself)
    as (p1 & -> & Hv1 & (_ & _ & _ & Hh1) & Hm1 & Ha1 & Hs1 & Hk1 & Hd1 & _ & Hr1 & Hn1).
  unfold stage, GetTimestamp. simpl. rewrite Hv1, Hvm. simpl.
  assert (Hf : filled vm (ack_Height ack) = Some old).
  { unfold filled, len. pose proof (lookup_lt_Some _ _ _ Hold).
    destruct (Z.ltb_spec (Z.of_nat (ack_Height ack)) (Z.of_nat (length (List vm))));
      [|lia]. by rewrite Hold. }
  rewrite Hf. simpl.
  fold (nextTime p1). rewrite Hn1, Hr1, Hvalid. simpl.
  destruct (Z.eqb_spec (ack_DBHeight ack) (DBHeight p1)); [|congruence]. simpl.
  rewrite bool_decide_eq_false_2 by done.
  eexists. split; [reflexivity|]. simpl. rewrite Hv1.
  split; [|done]. apply alter_insert. by apply index_Ok in Hvm as [_ ?].
Qed.

(** *** Is there any message? *)

Lemma HasMessage_loop_spec p (k i : nat) :
  (i + k ≤ length (VMs p))%nat →
  ∃ b, HasMessage_loop k (Z.of_nat i) p = Ok b
    ∧ (b = true ↔ ∃ j vm, (i ≤ j < i + k)%nat ∧ VMs p !! j = Some vm ∧ List vm ≠ []).
Proof.
  revert i. induction k as [|k IH]; intros i Hlen.
  - exists false. split; [done|]. split; [done|]. intros (j & vm & Hj & _). lia.
  - destruct (lookup_lt_is_Some_2 (VMs p) i) as [vm Hvm]; [lia|].
    cbn [HasMessage_loop]. rewrite (index_nat _ _ _ Hvm). simpl.
    unfold len. destruct (Z.ltb_spec 0 (Z.of_nat (length (List vm)))) as [Hl|Hl].
    + exists true. split; [done|]. split; [|done]. intros _. exists i, vm.
      split; [lia|]. split; [done|]. intros E. rewrite E in Hl. simpl in Hl. lia.
    + destruct (IH (S i)) as (b & Hb & Hiff); [lia|]. exists b.
      replace (Z.of_nat i + 1) with (Z.of_nat (S i)) by lia. split; [done|].
      rewrite Hiff. split.
      * intros (j & vm' & Hj & Hvm' & Hne). exists j, vm'. split; [lia|done].
      * intros (j & vm' & Hj & Hvm' & Hne). exists j, vm'.
        split; [|done]. destruct (decide (j = i)) as [->|]; [|lia].
        rewrite Hvm in Hvm'. injection Hvm' as <-.
        destruct (List vm); [done|simpl in Hl; lia].
Qed.

(** X17: [HasMessage()] on a list with a VM for every federated
    server returns, and returns [true] exactly when the list of some VM of a
    federated server is not empty (nil slots count). *)
Theorem HasMessage_iff p :
  (length (FedServers p) ≤ length (VMs p))%nat →
  ∃ b, HasMessage p = Ok b
    ∧ (b = true ↔ ∃ j vm, (j < length (FedServers p))%nat
                          ∧ VMs p !! j = Some vm ∧ List vm ≠ []).
Proof.
  intros Hlen. destruct (HasMessage_loop_spec p (length (FedServers p)) 0) as (b & Hb & Hiff);
    [lia|].
  exists b. split; [exact Hb|]. rewrite Hiff. split.
  - intros (j & vm & Hj & H'). exists j, vm. split; [lia|done].
  - intros (j & vm & Hj & H'). exists j, vm. split; [lia|done].
Qed.

(** *** The course of [Process] *)

Lemma runs_refl vm : runs vm vm.
Proof. repeat split; try done; lia. Qed.

Lemma runs_trans vm1 vm2 vm3 : runs vm1 vm2 → runs vm2 vm3 → runs vm1 vm3.
Proof.
  intros (A1 & A2 & A3 & A4 & A5) (B1 & B2 & B3 & B4 & B5).
  split; [congruence|]. split; [congruence|]. split; [auto|]. split; [lia|].
  intros k Hk. destruct (decide (Z.of_nat k < Height vm2)) as [Hlt|Hge].
  - apply A5. lia.
  - destruct (B5 k) as [[m Hm] [a Ha]]; [lia|]. split.
    + exists m. by apply A3.
    + exists a. by rewrite <- A1.
Qed.

Lemma sameQueue_runs vm vm' : sameQueue vm vm' → runs vm vm'.
Proof.
  intros (E1 & E2 & E3). split; [done|]. rewrite E1, E3.
  split; [done|]. split; [done|]. split; [lia|]. intros k Hk. lia.
Qed.

Lemma slotR_runs (j : Z) (adv : bool) vm vm' :
  slotR j adv vm vm' → (adv = true → Height vm = j) → runs vm vm'.
Proof.
  intros (A1 & A2 & A3 & A4) Hh. split; [done|]. split; [done|]. split; [done|].
  destruct adv.
  - destruct A4 as (E & Hj & _ & Hm & Ha). rewrite E, Hh by done.
    split; [lia|]. intros k Hk. assert (k = Z.to_nat j) as -> by lia. done.
  - rewrite A4. split; [lia|]. intros k Hk. lia.
Qed.

Lemma Forall2_insert_refl {A} (Q : A → A → Prop) (l : list A) (i : nat) (x y : A) :
  (∀ z, Q z z) → l !! i = Some x → Q x y → Forall2 Q l (<[i := y]> l).
Proof.
  intros Hrefl Hi HQ. apply Forall2_same_length_lookup_2.
  - by rewrite length_insert.
  - intros k a b Ha. destruct (decide (k = i)) as [->|Hne].
    + rewrite list_lookup_insert_eq by (by eapply lookup_lt_Some).
      intros [= <-]. congruence.
    + rewrite list_lookup_insert_ne by done. intros Hb.
      rewrite Ha in Hb. injection Hb as <-. apply Hrefl.
Qed.

Lemma Forall2_runs_trans (l1 l2 l3 : list VM) :
  Forall2 runs l1 l2 → Forall2 runs l2 l3 → Forall2 runs l1 l3.
Proof.
  intros H12 H23. apply Forall2_same_length_lookup_2.
  - rewrite (Forall2_length _ _ _ H12). by eapply Forall2_length.
  - intros k a c Ha Hc.
    destruct (Forall2_lookup_l _ _ _ _ _ H12 Ha) as (b & Hb & Hab).
    pose proof (Forall2_lookup_lr _ _ _ _ _ _ H23 Hb Hc) as Hbc.
    by eapply runs_trans.
Qed.

Lemma moved_trans (l1 l2 l3 : list VM) :
  Forall2 runs l1 l2 → Forall2 runs l2 l3 →
  moved l1 l3 ↔ moved l1 l2 ∨ moved l2 l3.
Proof.
  intros H12 H23. split.
  - intros (n & a & c & Ha & Hc & Hlt).
    destruct (Forall2_lookup_l _ _ _ _ _ H12 Ha) as (b & Hb & Hab).
    destruct (decide (Height a < Height b)).
    + left. by exists n, a, b.
    + right. exists n, b, c. split; [done|]. split; [done|lia].
  - intros [(n & a & b & Ha & Hb & Hlt)|(n & b & c & Hb & Hc & Hlt)].
    + destruct (Forall2_lookup_l _ _ _ _ _ H23 Hb) as (c & Hc & (_ & _ & _ & Hbc & _)).
      exists n, a, c. split; [done|]. split; [done|lia].
    + destruct (Forall2_lookup_r _ _ _ _ _ H12 Hb) as (a & Ha & (_ & _ & _ & Hab & _)).
      exists n, a, c. split; [done|]. split; [done|lia].
Qed.

Lemma moved_insert (l : list VM) (i : nat) vm vm' :
  l !! i = Some vm → moved l (<[i := vm']> l) ↔ Height vm < Height vm'.
Proof.
  intros Hi. split.
  - intros (n & a & b & Ha & Hb & Hlt). destruct (decide (n = i)) as [->|Hne].
    + rewrite list_lookup_insert_eq in Hb by (by eapply lookup_lt_Some).
      congruence.
    + rewrite list_lookup_insert_ne in Hb by done. rewrite Ha in Hb.
      injection Hb as <-. lia.
  - intros Hlt. exists i, vm, vm'. split; [done|]. split; [|done].
    apply list_lookup_insert_eq. by eapply lookup_lt_Some.
Qed.

(** *** The loop over the slots of one VM *)

Lemma VMListLoop_course (fuel : nat) (i j : Z) p (progress : bool)
    (e : Exit) p' (progress' : bool) vm :
  index (VMs p) i = Ok vm → Height vm = j →
  VMListLoop fuel i j p progress = Ok (e, p', progress') →
  ∃ vm', VMs p' = <[Z.to_nat i := vm']> (VMs p) ∧ runs vm vm'
    ∧ (progress' = true ↔ progress = true ∨ Height vm < Height vm').
Proof.
  revert j p progress vm. induction fuel as [|fuel IH]; intros j p progress vm Hvm Hh.
  - intros [= <- <- <-]. exists vm. apply index_Ok in Hvm as [_ Hvm].
    split; [by rewrite list_insert_id|]. split; [apply runs_refl|]. split; [auto|].
    intros [?|?]; [done|lia].
  - cbn [VMListLoop]. rewrite Hvm. simpl.
    pose proof Hvm as Hvm'. apply index_Ok in Hvm' as [Hi Hlk].
    destruct (j <? len (List vm)).
    2:{ intros [= <- <- <-]. exists vm.
        split; [by rewrite list_insert_id|]. split; [apply runs_refl|]. split; [auto|].
        intros [?|?]; [done|lia]. }
    intros E. apply bind_Ok in E as (o & Ho & E).
    destruct (slot_touches i j p o Ho) as (_ & vm0 & vm1 & Hvm0 & Hv1 & HR).
    rewrite Hvm in Hvm0. injection Hvm0 as <-.
    pose proof (slotR_runs j (advanced o) vm vm1 HR) as Hruns.
    destruct o as [p1|p1|p1]; simpl in *.
    + destruct HR as (_ & _ & _ & Hh1 & _).
      pose proof (lookup_lt_Some _ _ _ Hlk) as Hlt.
      assert (Hidx1 : index (VMs p1) i = Ok vm1)
        by (rewrite Hv1; by apply index_insert_eq).
      destruct (IH (j + 1) p1 true vm1 Hidx1 Hh1 E) as (vm' & Hv' & Hr' & Hp').
      destruct Hr' as (R1 & R2 & R3 & R4 & R5).
      exists vm'. split; [by rewrite Hv', Hv1, list_insert_insert_eq|].
      split; [apply runs_trans with vm1; [by apply Hruns|done]|].
      assert (progress' = true) as -> by (apply Hp'; by left).
      split; [|done]. intros _. right. lia.
    + injection E as <- <- <-. exists vm1. split; [done|].
      split; [apply Hruns; done|]. destruct HR as (_ & _ & _ & ->).
      split; [auto|]. intros [?|?]; [done|lia].
    + injection E as <- <- <-. exists vm1. split; [done|].
      split; [apply Hruns; done|]. destruct HR as (_ & _ & _ & ->).
      split; [auto|]. intros [?|?]; [done|lia].
Qed.

(** *** The loop over the federated servers *)

Lemma FedLoop_course (k : nat) (i : nat) (now : Timestamp) p (progress : bool)
    (b : bool) p' :
  FedLoop k (Z.of_nat i) now p progress = Ok (b, p') →
  Forall2 runs (VMs p) (VMs p')
  ∧ (∀ n : nat, (n < i ∨ i + k ≤ n)%nat → VMs p' !! n = VMs p !! n)
  ∧ (b = true ↔ progress = true ∨ moved (VMs p) (VMs p')).
Proof.
  revert i p progress. induction k as [|k IH]; intros i p progress.
  - intros [= <- <-]. split; [apply Forall_Forall2_diag, Forall_forall; intros; apply runs_refl|].
    split; [done|]. split; [auto|]. intros [?|(n & a & c & Ha & Hc & Hlt)]; [done|].
    rewrite Ha in Hc. injection Hc as <-. lia.
  - cbn [FedLoop]. intros E. apply bind_Ok in E as (p1 & H1 & E).
    destruct (enterVM_touches _ _ _ _ H1) as (_ & vm0 & vm1 & Hvm0 & Hv1 & Hq).
    pose proof Hvm0 as Hvm0'. apply index_Ok in Hvm0' as [_ Hlk].
    rewrite Nat2Z.id in Hlk, Hv1.
    assert (Hidx1 : index (VMs p1) (Z.of_nat i) = Ok vm1).
    { apply index_nat. rewrite Hv1. apply list_lookup_insert_eq.
      by eapply lookup_lt_Some. }
    rewrite Hidx1 in E. simpl in E.
    apply bind_Ok in E as ([[e p2] progress2] & H2 & E).
    destruct (VMListLoop_course _ _ _ _ _ _ _ _ vm1 Hidx1 eq_refl H2)
      as (vm2 & Hv2 & Hr2 & Hp2).
    rewrite Nat2Z.id in Hv2. rewrite Hv1, list_insert_insert_eq in Hv2.
    assert (Hr02 : runs vm0 vm2)
      by (eapply runs_trans; [by apply sameQueue_runs|done]).
    assert (Hstep : Forall2 runs (VMs p) (VMs p2)).
    { rewrite Hv2. eapply Forall2_insert_refl; [apply runs_refl|done|done]. }
    assert (Hmoved : moved (VMs p) (VMs p2) ↔ Height vm1 < Height vm2).
    { rewrite Hv2, (moved_insert _ _ vm0) by done.
      destruct Hq as (_ & _ & ->). done. }
    destruct e.
    + replace (Z.of_nat i + 1) with (Z.of_nat (S i)) in E by lia.
      destruct (IH (S i) p2 progress2 E) as (Hall & Hout & Hb).
      split; [by eapply Forall2_runs_trans|]. split.
      * intros n Hn. rewrite Hout by lia. rewrite Hv2.
        apply list_lookup_insert_ne. lia.
      * rewrite Hb, Hp2, (moved_trans _ _ _ Hstep Hall), Hmoved. tauto.
    + injection E as <- <-. split; [done|]. split.
      * intros n Hn. rewrite Hv2. apply list_lookup_insert_ne. lia.
      * rewrite Hp2, Hmoved. tauto.
Qed.

Lemma Process_course p (b : bool) p' :
  Process p = Ok (b, p') →
  Forall2 runs (VMs p) (VMs p')
  ∧ (∀ n : nat, (length (FedServers p) ≤ n)%nat → VMs p' !! n = VMs p !! n)
  ∧ (b = true ↔ DBHeight p ≤ HighestSavedBlk (State_ p) ∨ moved (VMs p) (VMs p')).
Proof.
  unfold Process.
  destruct (Z.leb_spec (DBHeight p) (HighestSavedBlk (State_ p))) as [Hs|Hs].
  - intros [= <- <-].
    split; [apply Forall_Forall2_diag, Forall_forall; intros; apply runs_refl|].
    split; [done|]. split; [auto|done].
  - unfold GetTimestamp. simpl. intros E.
    apply (FedLoop_course _ 0) in E as (Hall & Hout & Hb). simpl in *.
    split; [done|]. split; [intros n Hn; apply Hout; lia|].
    rewrite Hb. split; [intros [?|?]; [done|by right]|].
    intros [?|?]; [lia|by right].
Qed.

(** X18: what [Process] does to the VM queues. If [Process()] returns,
    then in every VM the acks and the length of the list are as before, a
    slot that holds a message held that message before (slots are cleared at
    most), the height has not gone back, and every slot the height has passed
    held a message and an ack; the VMs beyond the federated servers are
    untouched. *)
Theorem Process_runs p (b : bool) p' :
  Process p = Ok (b, p') →
  Forall2 runs (VMs p) (VMs p')
  ∧ ∀ n : nat, (length (FedServers p) ≤ n)%nat → VMs p' !! n = VMs p !! n.
Proof. intros E. apply Process_course in E as (? & ? & _). done. Qed.

(** X19: the result of [Process]. If [Process()] returns, it returns
    [true] exactly when the block of the list is saved already
    ([DBHeight <= HighestSavedBlk]) or the height of some VM has grown. *)
Theorem Process_progress p (b : bool) p' :
  Process p = Ok (b, p') →
  b = true ↔ DBHeight p ≤ HighestSavedBlk (State_ p) ∨ moved (VMs p) (VMs p').
Proof. intros E. apply Process_course in E as (_ & _ & ?). done. Qed.

(** *** What the processor leaves alone *)



(** A step that changes only the VMs, the replay filter, the held messages,
    the counters and the next-height table keeps the rest. *)
Lemma keeps_quiet p p' :
  sameLists p p' → OldMsgs p' = OldMsgs p → OldAcks p' = OldAcks p →
  HighestSavedBlk (State_ p') = HighestSavedBlk (State_ p) →
  HighestAck (State_ p') = HighestAck (State_ p) →
  clock (State_ p') = clock (State_ p) →
  (ticks (State_ p) ≤ ticks (State_ p'))%nat →
  sent (State_ p') = sent (State_ p) →
  electionsQueue (State_ p') = electionsQueue (State_ p) →
  keeps p p'.
Proof.
  intros Hl Hm Ha Hs Hk Hc Ht Hsent Hq.
  split; [done|]. split; [done|]. split; [done|]. split; [done|].
  split; [done|]. split; [done|]. split; [done|]. split.
  - exists []. done.
  - exists []. by rewrite app_nil_r.
Qed.

Lemma Ask_keeps (i h : Z) p p' : Ask i h p = Ok p' → keeps p p'.
Proof.
  unfold Ask, GetTimestamp. simpl. destruct (i <? 0); [done|].
  destruct (index (VMs p) i) as [vm|]; simpl; [|done].
  destruct (_ || _).
  - destruct (_ && _).
    + intros [= <-]. apply keeps_quiet; simpl; (done || lia).
    + intros [= <-]. repeat split; simpl; try done; try lia.
      * eexists [_]. split; [done|]. by repeat constructor.
      * exists []. by rewrite app_nil_r.
  - intros [= <-]. apply keeps_quiet; simpl; (done || lia).
Qed.










(** *** Asking, completion and removal *)

(** X21: [Ask(vmIndex, height)] panics exactly when [vmIndex] is
    negative or not below the number of VMs. When it returns, it has changed
    no VM but [vmIndex], and of that one at most [MMRequests] and
    [MM_AskTime]; it has sent nothing or one missing-message request, the one
    built for this VM; and outside the VMs it has changed nothing that
    [Process] keeps. *)
Theorem Ask_frame (i h : Z) p :
  (Ask i h p = Panic ↔ i < 0 ∨ len (VMs p) ≤ i)
  ∧ ∀ p', Ask i h p = Ok p' →
      keeps p p'
      ∧ ∃ vm vm', index (VMs p) i = Ok vm
          ∧ VMs p' = <[Z.to_nat i := vm']> (VMs p) ∧ sameButAsk vm vm'
          ∧ (sent (State_ p') = sent (State_ p)
             ∨ sent (State_ p')
               = OutMissing (missingMsgRequest i (DBHeight p) vm) :: sent (State_ p)).
Proof.
  split.
  - unfold Ask, GetTimestamp, index, len. simpl.
    destruct (Z.ltb_spec i 0); [split; [by left|done]|].
    destruct (VMs p !! Z.to_nat i) as [vm|] eqn:E; simpl.
    + pose proof (lookup_lt_Some _ _ _ E).
      split; [|lia]. destruct (_ || _); [destruct (_ && _)|]; done.
    + apply lookup_ge_None in E. split; [intros _; right; lia|done].
  - intros p' E. split; [by eapply Ask_keeps|]. revert E.
    unfold Ask, GetTimestamp. simpl. destruct (i <? 0); [done|].
    destruct (index (VMs p) i) as [vm|] eqn:Hvm; simpl; [|done].
    pose proof Hvm as Hvm'. apply index_Ok in Hvm' as [_ Hlk].
    destruct (_ || _).
    + destruct (_ && _).
      * intros [= <-]. exists vm, vm. split; [done|]. simpl.
        split; [by rewrite list_insert_id|]. split; [done|by left].
      * intros [= <-]. eexists vm, _. split; [done|]. simpl.
        split; [by apply alter_insert|]. split; [done|by right].
    + intros [= <-]. exists vm, vm. split; [done|]. simpl.
      split; [by rewrite list_insert_id|]. split; [done|by left].
Qed.

(** *** A complete list *)

Lemma Complete_loop_true p (k : nat) (i : nat) :
  Complete_loop k (Z.of_nat i) p = Ok true →
  ∀ (j : nat) vm, (i ≤ j < i + k)%nat → VMs p !! j = Some vm →
    10 ≤ LeaderMinute vm ∧ len (List vm) ≤ Height vm.
Proof.
  revert i. induction k as [|k IH]; intros i E j vm Hj Hvm; [lia|].
  cbn [Complete_loop] in E. apply bind_Ok in E as (vm0 & Hvm0 & E).
  apply index_Ok in Hvm0 as [_ Hvm0]. rewrite Nat2Z.id in Hvm0.
  destruct (Z.ltb_spec (LeaderMinute vm0) 10); [done|].
  destruct (Z.ltb_spec (Height vm0) (len (List vm0))); [done|].
  destruct (decide (j = i)) as [->|Hne].
  - rewrite Hvm0 in Hvm. injection Hvm as <-. done.
  - replace (Z.of_nat i + 1) with (Z.of_nat (S i)) in E by lia.
    apply (IH (S i) E j vm); [lia|done].
Qed.

Lemma Forall2_sameQueue_refl (l : list VM) : Forall2 sameQueue l l.
Proof. apply Forall_Forall2_diag, Forall_forall. intros. apply sameQueue_refl. Qed.

Lemma Forall2_sameQueue_trans (l1 l2 l3 : list VM) :
  Forall2 sameQueue l1 l2 → Forall2 sameQueue l2 l3 → Forall2 sameQueue l1 l3.
Proof.
  intros H12 H23. apply Forall2_same_length_lookup_2.
  - rewrite (Forall2_length _ _ _ H12). by eapply Forall2_length.
  - intros k a c Ha Hc.
    destruct (Forall2_lookup_l _ _ _ _ _ H12 Ha) as (b & Hb & Hab).
    pose proof (Forall2_lookup_lr _ _ _ _ _ _ H23 Hb Hc) as Hbc.
    by eapply sameQueue_trans.
Qed.

Lemma FedLoop_caught_up (k : nat) (i : nat) (now : Timestamp) p (progress : bool)
    (b : bool) p' :
  (∀ (j : nat) vm, (i ≤ j < i + k)%nat → VMs p !! j = Some vm →
     len (List vm) ≤ Height vm) →
  FedLoop k (Z.of_nat i) now p progress = Ok (b, p') →
  b = progress ∧ Forall2 sameQueue (VMs p) (VMs p').
Proof.
  revert i p progress. induction k as [|k IH]; intros i p progress Hall.
  - intros [= <- <-]. split; [done|apply Forall2_sameQueue_refl].
  - cbn [FedLoop]. intros E. apply bind_Ok in E as (p1 & H1 & E).
    destruct (enterVM_touches _ _ _ _ H1) as (_ & vm0 & vm1 & Hvm0 & Hv1 & Hq).
    apply index_Ok in Hvm0 as [_ Hlk]. rewrite Nat2Z.id in Hlk, Hv1.
    assert (Hidx1 : index (VMs p1) (Z.of_nat i) = Ok vm1).
    { apply index_nat. rewrite Hv1. apply list_lookup_insert_eq.
      by eapply lookup_lt_Some. }
    rewrite Hidx1 in E. simpl in E.
    assert (Hfuel : slotsLeft (Z.of_nat i) (Height vm1) p1 = 0%nat).
    { unfold slotsLeft. rewrite Hidx1. destruct Hq as (-> & _ & ->).
      specialize (Hall i vm0 ltac:(lia) Hlk). lia. }
    rewrite Hfuel in E. simpl in E.
    replace (Z.of_nat i + 1) with (Z.of_nat (S i)) in E by lia.
    assert (Hstep : Forall2 sameQueue (VMs p) (VMs p1)).
    { rewrite Hv1. eapply Forall2_insert_refl; [apply sameQueue_refl|done|done]. }
    destruct (IH (S i) p1 progress) with (2 := E) as [-> Hrest].
    + intros j vm Hj Hvm. rewrite Hv1, list_lookup_insert_ne in Hvm by lia.
      apply (Hall j vm); [lia|done].
    + split; [done|]. by eapply Forall2_sameQueue_trans.
Qed.

(** X22: a complete list is at rest. If [Complete()] is true on a
    list whose block is not saved yet, then [Process()], if it returns,
    returns [false] and leaves the messages, the acks and the height of every
    VM as they are. *)
Theorem Complete_no_progress p (b : bool) p' :
  Complete (Some p) = Ok true → HighestSavedBlk (State_ p) < DBHeight p →
  Process p = Ok (b, p') →
  b = false ∧ Forall2 sameQueue (VMs p) (VMs p').
Proof.
  intros Hc Hs. unfold Complete in Hc. unfold Process.
  destruct (Z.leb_spec (DBHeight p) (HighestSavedBlk (State_ p))); [lia|].
  unfold GetTimestamp. simpl. intros E.
  apply (FedLoop_caught_up _ 0) in E; [done|].
  simpl. intros j vm Hj Hvm.
  by destruct (Complete_loop_true p _ 0 Hc j vm ltac:(lia) Hvm).
Qed.

(** *** Removing a server *)

Lemma indexHash_middle (l pre post : list Server) (s : Server) (id : Hash) :
  l = pre ++ s :: post → ChainID s = id → (id ∉ ids pre) →
  indexHash 0 l id = (true, len pre).
Proof.
  intros -> Hs Hpre. rewrite indexHash_app by done. simpl.
  by rewrite Hs, (proj2 (bytes_Compare_eq id id) eq_refl), Z.add_0_l.
Qed.

(** X23: the removals. [RemoveAuditServerHash(id)] for an id that is not
    an audit server changes nothing, and otherwise removes the first audit
    server with this id, keeps the federated servers and the server map, and
    enqueues [RemoveAuditInternal]. [RemoveFedServerHash(id)] for an id that
    is not a federated server does what [RemoveAuditServerHash(id)] does, and
    otherwise (at most 65 federated servers) removes the first federated
    server with this id, keeps the audit servers, rebuilds the server map and
    enqueues [RemoveLeaderInternal]. *)
Theorem Remove_spec p (id : Hash) :
  ((id ∉ ids (AuditServers p)) → RemoveAuditServerHash id p = p)
  ∧ ((id ∉ ids (FedServers p)) →
     RemoveFedServerHash id p = Ok (RemoveAuditServerHash id p))
  ∧ (∀ pre s post,
       AuditServers p = pre ++ s :: post → ChainID s = id → (id ∉ ids pre) →
       AuditServers (RemoveAuditServerHash id p) = pre ++ post
       ∧ FedServers (RemoveAuditServerHash id p) = FedServers p
       ∧ ServerMap (RemoveAuditServerHash id p) = ServerMap p
       ∧ electionsQueue (State_ (RemoveAuditServerHash id p))
         = electionsQueue (State_ p) ++ [RemoveAuditInternal (DBHeight p) id])
  ∧ (∀ pre s post,
       FedServers p = pre ++ s :: post → ChainID s = id → (id ∉ ids pre) →
       len (FedServers p) ≤ 65 →
       ∃ p', RemoveFedServerHash id p = Ok p'
         ∧ FedServers p' = pre ++ post
         ∧ AuditServers p' = AuditServers p
         ∧ MapFresh p'
         ∧ electionsQueue (State_ p')
           = electionsQueue (State_ p) ++ [RemoveLeaderInternal (DBHeight p) id]).
Proof.
  split; [|split; [|split]].
  - intros Hnin. unfold RemoveAuditServerHash, GetAuditServerIndexHash.
    by rewrite indexHash_absent.
  - intros Hnin. unfold RemoveFedServerHash, GetFedServerIndexHash.
    by rewrite indexHash_absent.
  - intros pre s post Ea Hs Hpre.
    unfold RemoveAuditServerHash, GetAuditServerIndexHash.
    rewrite (indexHash_middle _ pre post s) by done. simpl.
    by rewrite Ea, splice_middle.
  - intros pre s post Ef Hs Hpre Hn.
    unfold RemoveFedServerHash, GetFedServerIndexHash.
    rewrite (indexHash_middle _ pre post s) by done. cbn [negb].
    set (q := set_FedServers _ _).
    assert (Hq : FedServers q = pre ++ post).
    { unfold q. simpl. by rewrite Ef, splice_middle. }
    destruct (MakeMap_Ok q) as [sm Esm].
    { rewrite Hq. rewrite Ef in Hn. unfold len in *. rewrite length_app in *.
      simpl in Hn. lia. }
    rewrite Esm. eexists. split; [reflexivity|]. split; [exact Hq|].
    split; [done|]. split; [|done].
    by apply MakeMap__fresh in Esm as [? _].
Qed.

(** *** Trimming, signatures and construction *)

Implicit Types (s : Signing ReplayT W).

(** *** [TrimVMList] *)

(** X24: [TrimVMList(height, vmIndex)] never shortens a list. On a
    list of fewer than 2^32 slots: a [height] below the length changes
    nothing; a [height] from the length up to the capacity of the slice
    extends the list by what the backing array holds, keeping every slot; and
    a [height] above the capacity panics. *)
Theorem TrimVMList_never_trims (height vmIndex : Z) (spare : list (option Msg)) p vm :
  index (VMs p) vmIndex = Ok vm → len (List vm) < 2 ^ 32 →
  (height < len (List vm) → TrimVMList height vmIndex spare p = Ok p)
  ∧ (len (List vm) ≤ height ≤ len (List vm) + len spare →
     TrimVMList height vmIndex spare p
     = Ok (set_VMs (<[Z.to_nat vmIndex :=
                       set_List (λ l, l ++ take (Z.to_nat (height - len l)) spare) vm]>
                      (VMs p)) p))
  ∧ (len (List vm) + len spare < height →
     TrimVMList height vmIndex spare p = Panic).
Proof.
  intros Hvm Hlen. unfold TrimVMList. rewrite Hvm. simpl.
  assert (Hu : uint32 (len (List vm)) = len (List vm)).
  { unfold uint32. apply Z.mod_small. unfold len in *. lia. }
  rewrite Hu. split; [|split].
  - intros Hh. by destruct (Z.ltb_spec height (len (List vm))); [|lia].
  - intros Hh. destruct (Z.ltb_spec height (len (List vm))); [lia|]. simpl.
    destruct (Z.ltb_spec (len (List vm) + len spare) height); [lia|].
    f_equal. unfold updVM. f_equal.
    apply index_Ok in Hvm as [_ Hlk]. rewrite (alter_insert _ _ _ vm) by done.
    f_equal. unfold set_List. f_equal. unfold len in *.
    rewrite take_app_ge by lia. do 2 f_equal. lia.
  - intros Hh. destruct (Z.ltb_spec height (len (List vm))); [unfold len in *; lia|].
    simpl. by destruct (Z.ltb_spec (len (List vm) + len spare) height); [|lia].
Qed.

(** *** The tally of differing signatures *)

Lemma tally_iter s (k : nat) :
  Z.of_nat k < 2 ^ 63 →
  diffSigTally (Nat.iter k IncrementDiffSigTally (ResetDiffSigTally s)) = Z.of_nat k
  ∧ PL (Nat.iter k IncrementDiffSigTally (ResetDiffSigTally s)) = PL s.
Proof.
  induction k as [|k IH]; intros Hk; [done|].
  destruct IH as [IH1 IH2]; [lia|]. cbn [Nat.iter]. simpl. rewrite IH1, IH2.
  split; [|done]. unfold int64. rewrite Z.mod_small by (pow2; lia). lia.
Qed.

(** X25: the tally of differing signatures. After
    [ResetDiffSigTally()] and [k] calls of [IncrementDiffSigTally()] (fewer
    than 2^63), [CheckDiffSigTally()] is true exactly when [2 * k] is at most
    the number of federated servers: it fails as soon as more than half of
    them differ. *)
Theorem CheckDiffSigTally_majority s (k : nat) :
  Z.of_nat k < 2 ^ 63 →
  CheckDiffSigTally (Nat.iter k IncrementDiffSigTally (ResetDiffSigTally s)) = true
  ↔ 2 * Z.of_nat k ≤ len (FedServers (PL s)).
Proof.
  intros Hk. destruct (tally_iter s k Hk) as [Ht Hp].
  unfold CheckDiffSigTally. rewrite Ht, Hp.
  set (n := len (FedServers (PL s))).
  assert (Hn : 0 ≤ n) by (unfold n, len; lia).
  rewrite Z.quot_div_nonneg by lia.
  pose proof (Z.div_mod n 2 ltac:(lia)) as Hdm.
  pose proof (Z.mod_pos_bound n 2 ltac:(lia)) as Hmb.
  destruct (Z.ltb_spec 0 (Z.of_nat k)), (Z.ltb_spec (n `div` 2) (Z.of_nat k)); simpl;
    split; (done || lia).
Qed.

(** *** [SortDBSigs] sorts *)

Lemma SortDBSigs_inner_bubble (k : nat) (pre l : list DBSig) (done : bool) :
  SortDBSigs_inner k (length pre) (pre ++ l) done
  = (pre ++ (bubbleSigs k l).1, done && (bubbleSigs k l).2).
Proof.
  revert pre l done. induction k as [|k IH]; intros pre l done.
  - simpl. by rewrite andb_true_r.
  - destruct l as [|a [|b t]].
    + simpl. rewrite app_nil_r, lookup_ge_None_2 by lia. by rewrite andb_true_r.
    + simpl. rewrite list_lookup_middle by done.
      rewrite lookup_ge_None_2 by (rewrite length_app; simpl; lia).
      by rewrite andb_true_r.
    + cbn [SortDBSigs_inner bubbleSigs].
      rewrite list_lookup_middle by done.
      replace ((pre ++ a :: b :: t) !! S (length pre)) with (Some b).
      2:{ rewrite (cons_middle a), app_assoc.
          rewrite list_lookup_middle; [done|]. rewrite length_app. simpl. lia. }
      destruct (dbsig_VMIndex b <? dbsig_VMIndex a).
      * replace (<[S (length pre):=a]> (<[length pre:=b]> (pre ++ a :: b :: t)))
          with ((pre ++ [b]) ++ a :: t).
        2:{ rewrite insert_app_r_alt by lia. rewrite Nat.sub_diag. simpl.
            rewrite insert_app_r_alt by lia.
            replace (S (length pre) - length pre)%nat with 1%nat by lia.
            simpl. by rewrite <- app_assoc. }
        replace (S (length pre)) with (length (pre ++ [b]))
          by (rewrite length_app; simpl; lia).
        rewrite IH. simpl. rewrite <- app_assoc. simpl. by rewrite andb_false_r.
      * replace (pre ++ a :: b :: t) with ((pre ++ [a]) ++ b :: t)
          by (by rewrite <- app_assoc).
        replace (S (length pre)) with (length (pre ++ [a]))
          by (rewrite length_app; simpl; lia).
        rewrite IH. simpl. by rewrite <- app_assoc.
Qed.

Lemma bubbleSigs_app (k : nat) (l1 l2 : list DBSig) :
  (k < length l1)%nat →
  bubbleSigs k (l1 ++ l2) = ((bubbleSigs k l1).1 ++ l2, (bubbleSigs k l1).2).
Proof.
  revert l1. induction k as [|k IH]; intros l1 Hk.
  - by destruct l1 as [|? [|? ?]].
  - destruct l1 as [|a [|b t]]; simpl in Hk; try lia.
    cbn [bubbleSigs app]. destruct (dbsig_VMIndex b <? dbsig_VMIndex a).
    + pose proof (IH (a :: t) ltac:(simpl; lia)) as E. cbn [app] in E.
      by rewrite E.
    + pose proof (IH (b :: t) ltac:(simpl; lia)) as E. cbn [app] in E.
      by rewrite E.
Qed.

Lemma bubbleSigs_perm (k : nat) (l : list DBSig) : (bubbleSigs k l).1 ≡ₚ l.
Proof.
  revert l. induction k as [|k IH]; intros l.
  - by destruct l as [|? [|? ?]].
  - destruct l as [|a [|b t]]; try done.
    cbn [bubbleSigs]. destruct (dbsig_VMIndex b <? dbsig_VMIndex a); simpl.
    + rewrite (IH (a :: t)). apply Permutation_swap.
    + by rewrite (IH (b :: t)).
Qed.

Lemma bubbleSigs_full (k : nat) (l : list DBSig) :
  length l = S k →
  ∃ front mx, (bubbleSigs k l).1 = front ++ [mx]
    ∧ Forall (λ x, sigLe x mx) (front ++ [mx])
    ∧ ((bubbleSigs k l).2 = true →
       (bubbleSigs k l).1 = l ∧ StronglySorted sigLe l).
Proof.
  revert l. induction k as [|k IH]; intros l Hl.
  - destruct l as [|a [|? ?]]; try done. exists [], a. simpl.
    split; [done|]. split; [repeat constructor; unfold sigLe; lia|].
    intros _. split; [done|]. by repeat constructor.
  - destruct l as [|a [|b t]]; try done. simpl in Hl.
    cbn [bubbleSigs].
    destruct (Z.ltb_spec (dbsig_VMIndex b) (dbsig_VMIndex a)) as [Hgt|Hle].
    + destruct (IH (a :: t)) as (front & mx & E & Hmax & _); [simpl; lia|].
      exists (b :: front), mx. simpl. rewrite E. split; [done|]. split; [|done].
      constructor; [|done].
      assert (Ha : a ∈ front ++ [mx]).
      { rewrite <- E. rewrite bubbleSigs_perm. by left. }
      rewrite Forall_forall in Hmax. specialize (Hmax a Ha). unfold sigLe in *. lia.
    + destruct (IH (b :: t)) as (front & mx & E & Hmax & Hdone); [simpl; lia|].
      exists (a :: front), mx. simpl. rewrite E. split; [done|]. split.
      * constructor; [|done].
        assert (Hb : b ∈ front ++ [mx]).
        { rewrite <- E. rewrite bubbleSigs_perm. by left. }
        rewrite Forall_forall in Hmax. specialize (Hmax b Hb). unfold sigLe in *. lia.
      * intros Hd. destruct (Hdone Hd) as [E' Hs].
        rewrite <- E, E'. split; [done|].
        constructor; [done|]. apply Forall_forall. intros x Hx.
        apply StronglySorted_inv in Hs as [_ Hs].
        apply elem_of_cons in Hx as [->|Hx]; [done|].
        rewrite Forall_forall in Hs. specialize (Hs x Hx). unfold sigLe in *. lia.
Qed.

Lemma SortDBSigs_outer_spec (n : nat) (front back : list DBSig) :
  length front = S n →
  StronglySorted sigLe back →
  (∀ x y, x ∈ front → y ∈ back → sigLe x y) →
  StronglySorted sigLe (SortDBSigs_outer n (length back) (front ++ back))
  ∧ SortDBSigs_outer n (length back) (front ++ back) ≡ₚ front ++ back.
Proof.
  revert front back. induction n as [|n IH]; intros front back Hlen Hback Hfb.
  - simpl. split; [|done]. destruct front as [|x [|? ?]]; try done.
    apply StronglySorted_app_2; [done| |done]. by repeat constructor.
  - cbn [SortDBSigs_outer].
    replace (length (front ++ back) - 1 - length back)%nat with (S n)
      by (rewrite length_app; lia).
    assert (Hin : SortDBSigs_inner (S n) 0 (front ++ back) true
                  = ((bubbleSigs (S n) (front ++ back)).1,
                     (bubbleSigs (S n) (front ++ back)).2))
      by exact (SortDBSigs_inner_bubble (S n) [] (front ++ back) true).
    rewrite Hin. clear Hin.
    rewrite bubbleSigs_app by lia. cbn [fst snd].
    destruct (bubbleSigs_full (S n) front Hlen) as (fr & mx & E & Hmax & Hdone).
    destruct (bubbleSigs (S n) front).2 eqn:Hd.
    + destruct Hdone as [E' Hs]; [done|]. rewrite E'. split; [|done].
      by apply StronglySorted_app_2.
    + rewrite E, <- app_assoc. simpl.
      assert (Hperm : fr ++ [mx] ≡ₚ front) by (rewrite <- E; apply bubbleSigs_perm).
      assert (Hmx : mx ∈ front).
      { rewrite <- Hperm. apply elem_of_app. right. by left. }
      destruct (IH fr (mx :: back)) as [Hs Hp].
      * apply Permutation_length in Hperm. rewrite length_app in Hperm.
        cbn [length] in Hperm. lia.
      * constructor; [done|]. apply Forall_forall. intros y Hy. by apply Hfb.
      * intros x y Hx Hy. apply elem_of_cons in Hy as [->|Hy].
        -- rewrite Forall_forall in Hmax. apply Hmax. apply elem_of_app. by left.
        -- apply Hfb; [|done]. rewrite <- Hperm. apply elem_of_app. by left.
      * simpl in Hs, Hp. split; [done|]. rewrite Hp, <- Hperm.
        by rewrite <- app_assoc.
Qed.

Lemma SortDBSigs_sorts (l : list DBSig) :
  StronglySorted sigLe (SortDBSigs_outer (length l - 1) 0 l)
  ∧ SortDBSigs_outer (length l - 1) 0 l ≡ₚ l.
Proof.
  destruct l as [|a t]; [split; [constructor|done]|].
  pose proof (SortDBSigs_outer_spec (length t) (a :: t) []) as H'.
  rewrite app_nil_r in H'. cbn [length] in H'.
  replace (length (a :: t) - 1)%nat with (length t) by (simpl; lia).
  apply H'; try done.
  - constructor.
  - intros x y _ Hy. by apply elem_of_nil in Hy.
Qed.

(** *** Adding a signature *)

Lemma ContainsDBSig_spec (serverID : Hash) s :
  ContainsDBSig serverID s = true ↔ serverID ∈ signers (DBSignatures s).
Proof.
  unfold ContainsDBSig, signers. rewrite existsb_exists, list_elem_of_fmap.
  split.
  - intros (d & Hd & E). apply bool_decide_eq_true in E. exists d.
    split; [done|]. by apply list_elem_of_In.
  - intros (d & E & Hd). exists d. split; [by apply list_elem_of_In|].
    by apply bool_decide_eq_true.
Qed.

Lemma AddDBSig_noop (serverID : Hash) (sig : list byte) s :
  (serverID ∉ ids (FedServers (PL s))) ∨ ContainsDBSig serverID s = true →
  AddDBSig serverID sig s = Ok s.
Proof.
  intros Hcase. unfold AddDBSig, GetFedServerIndexHash.
  destruct (indexHash 0 (FedServers (PL s)) serverID) as [found i] eqn:E.
  destruct Hcase as [Hnin| ->].
  - rewrite indexHash_absent in E by done. by injection E as <- <-.
  - by rewrite orb_true_r.
Qed.

Lemma signers_Permutation (l l' : list DBSig) : l ≡ₚ l' → signers l ≡ₚ signers l'.
Proof. apply fmap_Permutation. Qed.

(** X26: [AddDBSig(serverID, sig)] with at most 64 federated servers.
    It returns and keeps the federated servers. For an id that is not a
    federated server or has signed already it changes nothing. For a
    federated server that has not signed, the signatures afterwards are
    ascending by VM index and are the former ones plus one for [serverID]
    with [sig] and the VM [GetVirtualServers(0, serverID)] gives, which is
    below the number of federated servers. Afterwards [ContainsDBSig] is true
    for a federated server, signers stay unique if they were, and a second
    [AddDBSig] for the same id changes nothing. *)
Theorem AddDBSig_spec (serverID : Hash) (sig : list byte) s :
  len (FedServers (PL s)) ≤ 64 →
  ∃ s', AddDBSig serverID sig s = Ok s'
    ∧ FedServers (PL s') = FedServers (PL s)
    ∧ ((serverID ∉ ids (FedServers (PL s))) ∨ serverID ∈ signers (DBSignatures s) →
       s' = s)
    ∧ (serverID ∈ ids (FedServers (PL s)) → (serverID ∉ signers (DBSignatures s)) →
       Sorted sigLe (DBSignatures s')
       ∧ ∃ v p', GetVirtualServers 0 serverID (PL s) = Ok (true, v, p')
           ∧ 0 ≤ v < len (FedServers (PL s))
           ∧ DBSignatures s' ≡ₚ DBSignatures s ++ [mkDBSig serverID sig v])
    ∧ (serverID ∈ ids (FedServers (PL s)) → ContainsDBSig serverID s' = true)
    ∧ (NoDup (signers (DBSignatures s)) → NoDup (signers (DBSignatures s')))
    ∧ ∀ sig2, AddDBSig serverID sig2 s' = Ok s'.
Proof.
  intros Hn.
  destruct (decide (serverID ∈ ids (FedServers (PL s)))) as [Hin|Hnin].
  2:{ exists s. split; [apply AddDBSig_noop; by left|]. split; [done|].
      split; [done|]. split; [done|]. split; [done|]. split; [done|].
      intros sig2. apply AddDBSig_noop. by left. }
  destruct (ContainsDBSig serverID s) eqn:Hc.
  { exists s. split; [apply AddDBSig_noop; by right|]. split; [done|].
    split; [done|]. split.
    { intros _ Hns. exfalso. apply Hns. by apply ContainsDBSig_spec. }
    split; [done|]. split; [done|].
    intros sig2. apply AddDBSig_noop. by right. }
  assert (Hns : serverID ∉ signers (DBSignatures s)).
  { intros Hs. apply ContainsDBSig_spec in Hs. congruence. }
  pose proof (indexHash_spec 0 (FedServers (PL s)) serverID) as Hidx.
  destruct (indexHash 0 (FedServers (PL s)) serverID) as [[|] i] eqn:Eidx.
  2:{ by destruct Hidx as [? _]. }
  destruct Hidx as (pre & x & post & Efed & Hx & Hpre & ->).
  destruct (GetVirtualServers_found (PL s) 0 serverID pre post x)
    as (p' & Emap & E); try done; try lia.
  set (v := (_ - _) `mod` _) in E.
  assert (Hv : 0 ≤ v < len (FedServers (PL s))).
  { apply Z.mod_pos_bound. rewrite Efed. unfold len. rewrite length_app. simpl. lia. }
  apply MakeMap__fresh in Emap as (_ & Hfed & _).
  destruct (SortDBSigs_sorts (DBSignatures s ++ [mkDBSig serverID sig v])) as [Hs Hp].
  set (s' := SortDBSigs (set_DBSignatures
                (DBSignatures s ++ [mkDBSig serverID sig v]) (set_PL p' s))).
  assert (Eadd : AddDBSig serverID sig s = Ok s').
  { unfold AddDBSig, GetFedServerIndexHash. rewrite Eidx, Hc. cbn [negb orb].
    rewrite E. done. }
  assert (Hsigs : DBSignatures s'
            = SortDBSigs_outer (length (DBSignatures s ++ [mkDBSig serverID sig v]) - 1) 0
                (DBSignatures s ++ [mkDBSig serverID sig v])) by done.
  assert (Hpl : PL s' = p') by done.
  clearbody s'. exists s'. split; [exact Eadd|].
  assert (Hin' : serverID ∈ signers (DBSignatures s')).
  { rewrite Hsigs, (signers_Permutation _ _ Hp). unfold signers. rewrite fmap_app.
    apply elem_of_app. right. by left. }
  split; [by rewrite Hpl|]. split; [by intros [?|?]|]. split.
  { intros _ _. rewrite Hsigs. split; [by apply StronglySorted_Sorted|].
    exists v, p'. done. }
  split; [intros _; by apply ContainsDBSig_spec|]. split.
  { intros Hnd. rewrite Hsigs, (signers_Permutation _ _ Hp). unfold signers.
    rewrite fmap_app. apply NoDup_app. split; [done|]. split; [|apply NoDup_singleton].
    intros y Hy [->|?%elem_of_nil]%elem_of_cons; done. }
  intros sig2. apply AddDBSig_noop. right. by apply ContainsDBSig_spec.
Qed.

(** *** The leader's timestamp *)

Lemma GetLeaderTimestamp_loop_skip (T : Z) (pre : list Msg) (rest : list (option Msg)) :
  Forall (λ msg, msg_Type msg ≠ T) pre →
  GetLeaderTimestamp_loop T ((Some <$> pre) ++ rest) = GetLeaderTimestamp_loop T rest.
Proof.
  induction 1 as [|msg pre Hmsg _ IH]; [done|]. simpl.
  by destruct (Z.eqb_spec (msg_Type msg) T).
Qed.

(** X27: [GetLeaderTimestamp()] scans the list of VM 0 for the first
    message of the directory-block-signature type. If every slot holds a
    message and none is of that type, it returns the zero timestamp; if the
    first such message comes after non-nil slots only, it returns the
    timestamp of that message; and if a nil slot comes before any such
    message, it panics. *)
Theorem GetLeaderTimestamp_spec (T : Z) p vm (pre : list Msg) :
  index (VMs p) 0 = Ok vm →
  Forall (λ msg, msg_Type msg ≠ T) pre →
  (List vm = Some <$> pre → GetLeaderTimestamp T p = Ok 0)
  ∧ (∀ msg post, List vm = (Some <$> pre) ++ Some msg :: post → msg_Type msg = T →
       GetLeaderTimestamp T p = Ok (msg_Timestamp msg))
  ∧ (∀ post, List vm = (Some <$> pre) ++ None :: post →
       GetLeaderTimestamp T p = Panic).
Proof.
  intros Hvm Hpre. unfold GetLeaderTimestamp. rewrite Hvm. simpl.
  split; [|split].
  - intros ->. rewrite <- (app_nil_r (Some <$> pre)).
    by rewrite GetLeaderTimestamp_loop_skip.
  - intros msg post -> Ht. rewrite GetLeaderTimestamp_loop_skip by done. simpl.
    by rewrite Ht, Z.eqb_refl.
  - intros post ->. by rewrite GetLeaderTimestamp_loop_skip.
Qed.

(** *** A new process list *)

Lemma HasMessage_loop_fresh p (k : nat) (i : Z) (t : Timestamp) (n : nat) :
  VMs p = replicate n (newVM t) → 0 ≤ i → (Z.to_nat i + k ≤ n)%nat →
  HasMessage_loop k i p = Ok false.
Proof.
  intros Hv. revert i. induction k as [|k IH]; intros i Hi Hk; [done|].
  cbn [HasMessage_loop].
  rewrite (proj2 (index_Ok (VMs p) i (newVM t))).
  2:{ split; [done|]. rewrite Hv. apply lookup_replicate. split; [done|lia]. }
  simpl. apply IH; lia.
Qed.

(** X28: [NewProcessList(state, previous, dbheight)], the block
    accumulators aside. Without a previous list the only federated server is
    the bootstrap identity, announced to the elections by an
    [AddLeaderInternal] for height 0, and there is no audit server. With a
    previous list of at most 64 federated servers, the federated servers are
    those of the previous list, all online and sorted by chain-id; the audit
    servers are those of the previous list in their order, offline except the
    node itself; and nothing is enqueued. In both cases there are 65 empty
    VMs stamped with the time read, the height is [dbheight], the server map
    is up to date, [OldMsgs] and [OldAcks] are empty and [HasMessage()] is
    false. With a previous list of more than 64 federated servers the call
    panics. *)
Theorem NewProcessList_spec (state : State ReplayT W) (dbheight : Z) :
  (∃ p, NewProcessList state None dbheight = Ok p
     ∧ FedServers p = [mkServer (NetworkBootStrapIdentity state) true]
     ∧ AuditServers p = []
     ∧ electionsQueue (State_ p)
       = electionsQueue state ++ [AddLeaderInternal 0 (NetworkBootStrapIdentity state)]
     ∧ VMs p = replicate 65 (newVM (clock state (ticks state)))
     ∧ DBHeight p = dbheight ∧ MapFresh p ∧ OldMsgs p = ∅ ∧ OldAcks p = ∅
     ∧ HasMessage p = Ok false)
  ∧ (∀ prev : ProcessList ReplayT W, len (FedServers prev) ≤ 64 →
     ∃ p, NewProcessList state (Some prev) dbheight = Ok p
       ∧ FedServers p = SortServers ((λ f, mkServer (ChainID f) true) <$> FedServers prev)
       ∧ ascending (FedServers p)
       ∧ ids (FedServers p) ≡ₚ ids (FedServers prev)
       ∧ Forall (λ f, Online f = true) (FedServers p)
       ∧ AuditServers p
         = (λ a, mkServer (ChainID a) (bool_decide (IdentityChainID state = ChainID a)))
             <$> AuditServers prev
       ∧ electionsQueue (State_ p) = electionsQueue state
       ∧ VMs p = replicate 65 (newVM (clock state (ticks state)))
       ∧ DBHeight p = dbheight ∧ MapFresh p ∧ OldMsgs p = ∅ ∧ OldAcks p = ∅
       ∧ HasMessage p = Ok false)
  ∧ (∀ prev : ProcessList ReplayT W, 64 < len (FedServers prev) →
     NewProcessList state (Some prev) dbheight = Panic).
Proof.
  split; [|split].
  - unfold NewProcessList. rewrite AddFedServer_new by (simpl; apply not_elem_of_nil).
    cbn zeta. unfold GetAuditServerIndexHash. cbn [AuditServers SortFedServers
      set_FedServers indexHash fst mbind Result_bind].
    set (q := set_FedServers _ _).
    destruct (MakeMap_Ok q) as [sm Esm]; [unfold q, len; simpl; lia|].
    rewrite Esm. cbn [mbind Result_bind snd]. unfold GetTimestamp. cbn beta iota zeta.
    set (q2 := set_DBHeight _ _).
    destruct (MakeMap_Ok q2) as [sm2 Esm2]; [unfold q2, q, len; simpl; lia|].
    rewrite Esm2. cbn [mbind Result_bind]. eexists. split; [reflexivity|].
    apply MakeMap__fresh in Esm2 as (Hfresh & _).
    split; [done|]. split; [done|]. split; [done|]. split; [done|].
    split; [done|]. split; [exact Hfresh|]. split; [done|]. split; [done|].
    unfold HasMessage.
    apply (HasMessage_loop_fresh _ _ _ (clock state (ticks state)) 65);
      [done|lia|simpl; lia].
  - intros prev Hn. unfold NewProcessList. cbn [mbind Result_bind].
    unfold GetTimestamp. cbn beta iota zeta.
    set (fed := SortServers _).
    set (q2 := set_DBHeight _ _).
    assert (Hfed : FedServers q2 = fed) by done.
    assert (Hlen : length fed = length (FedServers prev)).
    { unfold fed. by rewrite SortServers_length, length_fmap. }
    destruct (MakeMap_Ok q2) as [sm2 Esm2]; [rewrite Hfed; unfold len in *; lia|].
    rewrite Esm2. cbn [mbind Result_bind]. eexists. split; [reflexivity|].
    apply MakeMap__fresh in Esm2 as (Hfresh & _).
    destruct (SortServers_sorts ((λ f, mkServer (ChainID f) true) <$> FedServers prev))
      as [Hs Hp].
    split; [done|]. split; [by apply StronglySorted_Sorted|]. split.
    { simpl. fold fed. unfold fed. rewrite ids_SortServers. unfold ids.
      by rewrite <- list_fmap_compose. }
    split.
    { simpl. fold fed. unfold fed. rewrite Hp. apply Forall_fmap.
      by apply Forall_forall. }
    split; [done|]. split; [done|]. split; [done|]. split; [done|].
    split; [exact Hfresh|]. split; [done|]. split; [done|].
    unfold HasMessage. apply (HasMessage_loop_fresh _ _ _ (clock state (ticks state)) 65);
      [done|lia|]. simpl. fold fed. unfold len in *. lia.
  - intros prev Hn. unfold NewProcessList. cbn [mbind Result_bind].
    unfold GetTimestamp. cbn beta iota zeta.
    set (q2 := set_DBHeight _ _).
    assert (Hlen : len (FedServers q2) = len (FedServers prev)).
    { unfold q2, len. simpl. by rewrite SortServers_length, length_fmap. }
    unfold MakeMap_, MakeMap. rewrite Hlen.
    destruct (Z.ltb_spec 0 (len (FedServers prev))); [|lia].
    by destruct (Z.ltb_spec 64 (len (FedServers prev))); [|lia].
Qed.

End Theory.

(** *** Closed instances *)

Lemma isOk_unOk {A} (d : A) (r : Result A) : isOk r = true → r = Ok (unOk d r).
Proof. by destruct r. Qed.

Lemma progressOf_unOk {A} (d : bool * A) (r : Result (bool * A)) (b : bool) :
  progressOf r = Some b → r = Ok (b, (unOk d r).2).
Proof. destruct r as [[b' a]|]; [|done]. by intros [= ->]. Qed.

Lemma isAdvance_unOk {ReplayT W} (d : @SlotOutcome ReplayT W) (r : Result SlotOutcome) :
  isAdvance r = true → r = Ok (Advance (outcome_list (unOk d r))).
Proof. by destruct r as [[?|?|?]|]. Qed.

Lemma demo_bad_reaches : Reaches demo_bad (AtSlot 0 (0 + 1)) demo_bad_c true.
Proof.
  pose (vm0 := mkVM [Some demo_m0; Some demo_m1] [Some demo_ack0; Some demo_ackBad]
                 0 0 0 true 0 false 0 0 None 0 0).
  assert (Hvm : index (VMs demo_bad_b) 0 = Ok vm0) by reflexivity.
  assert (Hloop : Reaches demo_bad (AtVM 0) demo_bad_a false)
    by exact (reaches_loop demo_bad eq_refl).
  assert (Henter : enterVM 0 (Process_now demo_bad) demo_bad_a = Ok demo_bad_b)
    by (apply isOk_unOk; reflexivity).
  assert (Hlt : (0 < length (FedServers demo_bad_a))%nat) by (vm_compute; lia).
  pose proof (reaches_enter demo_bad 0 demo_bad_a false demo_bad_b vm0
                Hloop Hlt Henter Hvm) as Hslot0.
  apply (reaches_advance demo_bad 0 0 demo_bad_b false vm0 demo_bad_c Hslot0 Hvm).
  - done.
  - apply isAdvance_unOk. reflexivity.
Qed.

Lemma Process_serial_hash_mismatch_witness :
  Process demo_bad = Ok (true, State_Reset demo_bad_c)
  ∧ ResetRequests (State_ (State_Reset demo_bad_c)) = S (ResetRequests (State_ demo_bad_c))
  ∧ VMs (State_Reset demo_bad_c) = VMs demo_bad_c.
Proof.
  apply (Process_serial_hash_mismatch demo_bad 0 (0 + 1) demo_bad_c true
           (mkVM [Some demo_m0; Some demo_m1] [Some demo_ack0; Some demo_ackBad]
              1 0 0 true 0 false 0 0 None 0 4000)
           demo_m1 demo_ackBad demo_ack0 [x11; x21]).
  - exact demo_bad_reaches.
  - reflexivity.
  - reflexivity.
  - lia.
  - reflexivity.
  - reflexivity.
  - reflexivity.
  - reflexivity.
  - discriminate.
Defined.

Lemma demo_p0_new : NewProcessList demo_State None 1 = Ok demo_p0.
Proof. vm_compute. reflexivity. Qed.

Lemma demo_p1_reachable : Reachable demo_p1.
Proof.
  apply (reach_add demo_p0 (Some demo_ack0) demo_m0).
  - exact (reach_new demo_State None 1 demo_p0 demo_p0_new).
  - apply isOk_unOk. reflexivity.
Qed.

Lemma demo_p3_reachable : Reachable demo_p3.
Proof.
  apply (reach_add demo_p2 (Some demo_ack1) demo_m1);
    [|apply isOk_unOk; reflexivity].
  apply (reach_process demo_p1 true); [exact demo_p1_reachable|].
  apply progressOf_unOk. reflexivity.
Qed.

(** C2, the claim as written fails: after a message is staged and processed
    and a different message arrives for its slot, slot 0 of VM 0 is nil in
    [list] but not in [listAck], and lies below the VM's height. *)
Lemma cleared_slot_keeps_ack :
  Reachable demo_p3 ∧ ¬ Forall VMInv_claimed (VMs demo_p3).
Proof.
  split; [exact demo_p3_reachable|]. intros Hall.
  assert (Hvm : VMs demo_p3 !! 0%nat
                = Some (mkVM [None] [Some demo_ack0] 1 0 0 true 0 false 0 0 None 0 3000))
    by reflexivity.
  destruct (Forall_lookup_1 _ _ _ _ Hall Hvm) as (_ & _ & Hiff & _).
  destruct (Hiff 0%nat) as [Hnil _]. simpl in Hnil. by specialize (Hnil eq_refl).
Qed.

Lemma Reachable_VMInv_witness : Forall VMInv (VMs demo_p3).
Proof. apply (Reachable_VMInv demo_p3). exact demo_p3_reachable. Defined.

Lemma AddToProcessList_duplicate_witness :
  ∃ p', AddToProcessList (Some demo_ack0) demo_m0 demo_p1 = Ok p'
        ∧ VMs p' = VMs demo_p1 ∧ stored p' demo_ack0 demo_m0.
Proof.
  apply (AddToProcessList_duplicate demo_p1 demo_ack0 demo_m0 demo_m0).
  - exact demo_p1_reachable.
  - eexists. split; [vm_compute; reflexivity|]. split; reflexivity.
  - reflexivity.
Defined.

(** C5, the claim as written fails: adding [01] to the federated servers
    [02] leaves them as [02; 01], and adding it to the audit servers [03]
    leaves them as [03; 01]. *)
Lemma Add_leaves_unsorted :
  (∃ i p', AddFedServer [x01] demo_members = Ok (i, p')
           ∧ ¬ ascending (FedServers p'))
  ∧ (∃ i p', AddAuditServer [x01] demo_members = Ok (i, p')
             ∧ ¬ ascending (AuditServers p')).
Proof.
  split; eexists _, _; (split; [vm_compute; reflexivity|]); simpl;
    intros Hs; inversion Hs as [|? ? _ Hhd]; subst;
    inversion Hhd as [|? ? Hle]; subst; vm_compute in Hle; by apply Hle.
Qed.

Lemma membership_mutators_witness :
  ∃ i p', AddFedServer [x01] demo_members = Ok (i, p') ∧ MembersOK p'
    ∧ ascending (SortServers (FedServers demo_members))
    ∧ (FedServers p' = SortServers (FedServers demo_members)
       ∨ FedServers p' = SortServers (FedServers demo_members) ++ [mkServer [x01] true])
    ∧ (ascending (AuditServers demo_members) → ascending (AuditServers p')).
Proof.
  apply (membership_mutators demo_members [x01]).
  - unfold MembersOK.
    change (ids (FedServers demo_members)) with [[x02]].
    change (ids (AuditServers demo_members)) with [[x03]].
    split; [apply NoDup_singleton|]. split; [apply NoDup_singleton|].
    intros id Hid%list_elem_of_singleton Hid'%list_elem_of_singleton. congruence.
  - vm_compute. reflexivity.
Defined.

(** C8, the claim as written fails: the slot was asked for three seconds
    ago, yet with a congested inbound queue the call sends nothing. *)
Lemma Ask_congested_sends_nothing :
  ∃ vm p', VMs demo_congested !! 0%nat = Some vm
    ∧ mapget (MMRequests vm) 0 = true
    ∧ 2000 ≤ deltaT (nextNow demo_congested) vm
    ∧ Ask 0 0 demo_congested = Ok p'
    ∧ sent (State_ p') = []
    ∧ MissingRequestAskCnt (State_ p') = 0.
Proof.
  eexists _, _. split; [reflexivity|]. split; [reflexivity|].
  split; [vm_compute; discriminate|]. split; [vm_compute; reflexivity|].
  split; reflexivity.
Qed.

Lemma Ask_throttle_witness :
  ∃ p', Ask 0 0 demo_quiet = Ok p'
    ∧ sent (State_ p') = [OutMissing (mkMissingMsg 0 1 0 [])].
Proof.
  destruct (Ask_throttle demo_quiet 0 0
              (mkVM [] [] 0 0 0 true 0 false 0 0 (Some {[0 := true]}) 0 0))
    as [Hrecorded _]; [lia|reflexivity|].
  destruct Hrecorded as (_ & _ & Hlate); [reflexivity|].
  destruct Hlate as (p' & E & Hs & _);
    [vm_compute; discriminate|vm_compute; discriminate|].
  exists p'. split; [exact E|]. rewrite Hs. reflexivity.
Defined.

(** C3, the claim as written fails: a fresh self-authored ack with the wrong
    salt number, but whose own message hash is nil, is dropped without a
    panic. *)
Lemma AddToProcessList_self_no_hash :
  Response demo_selfNoHash = false
  ∧ LeaderChainID demo_selfNoHash = IdentityChainID (State_ demo_p0)
  ∧ ackAge (nextTime demo_p0) demo_selfNoHash ≤ 120
  ∧ GetSalt (ack_Timestamp demo_selfNoHash) ≠ SaltNumber demo_selfNoHash
  ∧ AddToProcessList (Some demo_selfNoHash) demo_m0 demo_p0 = Ok demo_p0.
Proof.
  split; [reflexivity|]. split; [reflexivity|].
  split; [vm_compute; discriminate|]. split; [vm_compute; discriminate|].
  reflexivity.
Qed.

Lemma AddToProcessList_self_witness :
  AddToProcessList (Some demo_selfBadSalt) demo_m0 demo_p0 = Panic.
Proof.
  apply (proj2 (AddToProcessList_self demo_p0 demo_selfBadSalt demo_m0
                  eq_refl eq_refl ltac:(discriminate))).
  - vm_compute. discriminate.
  - vm_compute. discriminate.
Defined.

Lemma VMIndexFor_spec_witness :
  VMIndexFor demo_p0 [x05; xff] = Ok (byteSum [x05; xff] `mod` len (FedServers demo_p0))
  ∧ 0 ≤ byteSum [x05; xff] `mod` len (FedServers demo_p0) < len (FedServers demo_p0).
Proof.
  apply (proj1 (proj2 (VMIndexFor_spec demo_p0 [x05; xff]))).
  - vm_compute. reflexivity.
  - vm_compute. split; reflexivity.
  - vm_compute. reflexivity.
Defined.

(** C6, the claim as written fails: row 1 of the table for three servers at
    height 0 is not 1,2,0. *)
Lemma MakeMap_3_0_row1_differs :
  ¬ ∃ t, MakeMap 3 0 = Ok t ∧ take 3 <$> t !! 1%nat = Some [1; 2; 0].
Proof. intros (t & [= <-] & Hrow). vm_compute in Hrow. discriminate. Qed.

(** C7, the claim as written fails: a saved block is complete although its
    VM has not closed minute 10. *)
Lemma Complete_saved_not_iff :
  Complete (Some demo_saved) = Ok true
  ∧ ¬ ∀ i vm, (i < length (FedServers demo_saved))%nat → VMs demo_saved !! i = Some vm →
              LeaderMinute vm = 10 ∧ Height vm = len (List vm).
Proof.
  split; [vm_compute; reflexivity|]. intros Hall.
  destruct (Hall 0%nat (newVM 0)) as [Hm _]; [vm_compute; lia|vm_compute; reflexivity|].
  discriminate.
Qed.

Lemma Complete_iff_witness :
  ∃ b, Complete (Some demo_done) = Ok b
       ∧ (b = true ↔
          ∀ i vm, (i < length (FedServers demo_done))%nat → VMs demo_done !! i = Some vm →
                  LeaderMinute vm = 10 ∧ Height vm = len (List vm)).
Proof.
  apply (Complete_iff demo_done).
  - vm_compute. lia.
  - vm_compute. reflexivity.
  - intros [|i] vm Hi; [|vm_compute in Hi; lia].
    intros Hvm. vm_compute in Hvm. injection Hvm as <-. vm_compute. split; discriminate.
Defined.

Lemma Complete_nil_saved_witness : Complete (Some demo_saved) = Ok true.
Proof. apply (proj2 Complete_nil_saved demo_saved). vm_compute. discriminate. Defined.

(** *** Closed instances of the further properties *)

Lemma demo_members_ok : MembersOK demo_members.
Proof.
  unfold MembersOK.
  change (ids (FedServers demo_members)) with [[x02]].
  change (ids (AuditServers demo_members)) with [[x03]].
  split; [apply NoDup_singleton|]. split; [apply NoDup_singleton|].
  intros id Hid%list_elem_of_singleton Hid'%list_elem_of_singleton. congruence.
Qed.

Lemma MakeMap_rotation_witness :
  MakeMap 0 7 = Ok ServerMap_zero ∧ MakeMap 65 7 = Panic
  ∧ ∃ t, MakeMap 3 7 = Ok t
      ∧ ∀ r c, 0 ≤ r < 10 →
          (0 ≤ c < 3 → ServerMap_at t r c = Ok ((uint32 (7 * 131) + r + 1 + c) `mod` 3))
          ∧ (3 ≤ c < 64 → ServerMap_at t r c = Ok 0).
Proof.
  split; [|split].
  - destruct (MakeMap_rotation 0 7) as (H & _). apply H. lia.
  - destruct (MakeMap_rotation 65 7) as (_ & H & _). apply H. lia.
  - destruct (MakeMap_rotation 3 7) as (_ & _ & H). apply H. lia.
Defined.

Lemma MakeMap_minute_bijection_witness :
  ∃ c, 0 ≤ c < 3 ∧ ServerMap_at rotation_3_0 4 c = Ok 0
    ∧ ∀ c', 0 ≤ c' < 3 → ServerMap_at rotation_3_0 4 c' = Ok 0 → c' = c.
Proof.
  apply (MakeMap_minute_bijection 3 0 rotation_3_0 4 0).
  - lia.
  - vm_compute. reflexivity.
  - lia.
  - lia.
Defined.

Lemma FedServerVM_inverse_witness :
  (∀ f, 0 ≤ f < 3 →
     ∃ v, FedServerVM rotation_3_0 3 4 f = Ok v ∧ 0 ≤ v < 3
          ∧ ServerMap_at rotation_3_0 4 v = Ok f)
  ∧ (∀ v, 0 ≤ v < 3 →
     ∃ f, ServerMap_at rotation_3_0 4 v = Ok f ∧ 0 ≤ f < 3
          ∧ FedServerVM rotation_3_0 3 4 f = Ok v)
  ∧ (∀ f, ¬ 0 ≤ f < 3 → FedServerVM rotation_3_0 3 4 f = Ok (-1)).
Proof.
  apply (FedServerVM_inverse 3 0 rotation_3_0 4).
  - lia.
  - vm_compute. reflexivity.
  - lia.
Defined.

Lemma GetVirtualServers_spec_witness :
  GetVirtualServers 3 [x09] demo_members = Ok (false, -1, demo_members)
  ∧ ∃ v p', GetVirtualServers 3 [x02] demo_members = Ok (true, v, p')
      ∧ MakeMap_ demo_members = Ok p'
      ∧ 0 ≤ v < len (FedServers demo_members)
      ∧ ServerMap_at (ServerMap p') 3 v = Ok (len (@nil Server)).
Proof.
  split.
  - destruct (GetVirtualServers_spec demo_members 3 [x09]) as [H _]. apply H.
    change (ids (FedServers demo_members)) with [[x02]].
    intros H9%list_elem_of_singleton. discriminate.
  - destruct (GetVirtualServers_spec demo_members 3 [x02]) as [_ H].
    apply (H [] (mkServer [x02] true) []).
    + reflexivity.
    + reflexivity.
    + apply not_elem_of_nil.
    + vm_compute. discriminate.
    + lia.
Defined.

Lemma FedServerFor_leads_witness :
  ∃ vs s, VMIndexFor demo_p0 [x05; x07] = Ok vs ∧ 0 ≤ vs < len (FedServers demo_p0)
    ∧ FedServerFor 3 [x05; x07] demo_p0 = Ok (Some s) ∧ s ∈ FedServers demo_p0
    ∧ (NoDup (ids (FedServers demo_p0)) →
       GetVirtualServers 3 (ChainID s) demo_p0 = Ok (true, vs, demo_p0)).
Proof.
  apply (FedServerFor_leads demo_p0 3 [x05; x07]).
  - vm_compute. reflexivity.
  - vm_compute. split; [reflexivity|discriminate].
  - lia.
  - vm_compute. reflexivity.
Defined.

Lemma MapFresh_invariant_witness :
  MapFresh demo_p0
  ∧ (∀ i p', AddFedServer [x01] demo_p0 = Ok (i, p') → MapFresh p')
  ∧ (∀ i p', AddAuditServer [x01] demo_p0 = Ok (i, p') → MapFresh p')
  ∧ (∀ p', RemoveFedServerHash [x01] demo_p0 = Ok p' → MapFresh p')
  ∧ MapFresh (RemoveAuditServerHash [x01] demo_p0).
Proof.
  destruct (MapFresh_invariant (ReplayT := list Hash) (W := unit)) as [Hnew Hkeep].
  assert (H0 : MapFresh demo_p0) by exact (Hnew demo_State None 1 demo_p0 demo_p0_new).
  split; [exact H0|]. exact (Hkeep demo_p0 [x01] H0).
Defined.

Lemma GetServerIndexHash_spec_witness :
  (∃ i s, GetFedServerIndexHash demo_members [x02] = (true, i)
     ∧ 0 ≤ i < len (FedServers demo_members)
     ∧ FedServers demo_members !! Z.to_nat i = Some s ∧ ChainID s = [x02]
     ∧ ([x02] ∉ ids (take (Z.to_nat i) (FedServers demo_members))))
  ∧ GetFedServerIndexHash demo_members [x03] = (false, len (FedServers demo_members))
  ∧ (∃ i s, GetAuditServerIndexHash demo_members [x03] = (true, i)
     ∧ 0 ≤ i < len (AuditServers demo_members)
     ∧ AuditServers demo_members !! Z.to_nat i = Some s ∧ ChainID s = [x03]
     ∧ ([x03] ∉ ids (take (Z.to_nat i) (AuditServers demo_members))))
  ∧ GetAuditServerIndexHash demo_members [x02] = (false, len (AuditServers demo_members)).
Proof.
  destruct (GetServerIndexHash_spec demo_members [x02]) as (Hf & _ & _ & Ha).
  destruct (GetServerIndexHash_spec demo_members [x03]) as (_ & Hf' & Ha' & _).
  split; [|split; [|split]].
  - apply Hf. change (ids (FedServers demo_members)) with [[x02]].
    apply list_elem_of_singleton. reflexivity.
  - apply Hf'. change (ids (FedServers demo_members)) with [[x02]].
    intros H%list_elem_of_singleton. discriminate.
  - apply Ha'. change (ids (AuditServers demo_members)) with [[x03]].
    apply list_elem_of_singleton. reflexivity.
  - apply Ha. change (ids (AuditServers demo_members)) with [[x03]].
    intros H%list_elem_of_singleton. discriminate.
Defined.

Lemma SortServers_sorted_permutation_witness :
  ascending (SortServers demo_two) ∧ SortServers demo_two ≡ₚ demo_two
  ∧ length (SortServers demo_two) = length demo_two
  ∧ SortServers [mkServer [x01] false; mkServer [x02] true]
    = [mkServer [x01] false; mkServer [x02] true]
  ∧ SortServers (SortServers demo_two) = SortServers demo_two.
Proof.
  destruct (SortServers_sorted_permutation demo_two) as (Ha & Hp & Hl & _ & Hi).
  destruct (SortServers_sorted_permutation (SortServers demo_two)) as (_ & _ & _ & Hs & _).
  split; [exact Ha|]. split; [exact Hp|]. split; [exact Hl|].
  split; [exact (Hs Ha)|exact Hi].
Defined.

Lemma Add_then_lookup_witness :
  GetFedServerIndexHash demo_added [x01] = (true, 1)
  ∧ GetAuditServerIndexHash demo_added [x01] = (false, len (AuditServers demo_added)).
Proof.
  assert (E : AddFedServer [x01] demo_members = Ok (1, demo_added))
    by (vm_compute; reflexivity).
  destruct (Add_then_lookup demo_members [x01]) as (Hf & _ & Hother).
  split; [exact (Hf 1 demo_added E)|].
  destruct Hother as [Ha _]; [exact demo_members_ok|vm_compute; reflexivity|].
  exact (Ha 1 demo_added E).
Defined.

Lemma AddFedServer_RemoveFedServerHash_witness :
  ∃ p1 p2, AddFedServer [x01] demo_members = Ok (len (FedServers demo_members), p1)
    ∧ RemoveFedServerHash [x01] p1 = Ok p2
    ∧ FedServers p2 = SortServers (FedServers demo_members)
    ∧ AuditServers p2 = AuditServers demo_members
    ∧ MapFresh p2
    ∧ VMs p2 = VMs demo_members
    ∧ electionsQueue (State_ p2)
      = electionsQueue (State_ demo_members)
        ++ [AddLeaderInternal (DBHeight demo_members) [x01];
            RemoveLeaderInternal (DBHeight demo_members) [x01]].
Proof.
  apply (AddFedServer_RemoveFedServerHash demo_members [x01]).
  - change (ids (FedServers demo_members)) with [[x02]].
    intros H%list_elem_of_singleton. discriminate.
  - change (ids (AuditServers demo_members)) with [[x03]].
    intros H%list_elem_of_singleton. discriminate.
  - vm_compute. reflexivity.
Defined.

Lemma promote_demote_witness :
  (∃ p', AddFedServer [x03] demo_members = Ok (len (FedServers demo_members), p')
     ∧ FedServers p' = SortServers (FedServers demo_members) ++ [mkServer [x03] true]
     ∧ AuditServers p' = [] ++ []
     ∧ electionsQueue (State_ p')
       = electionsQueue (State_ demo_members)
         ++ [RemoveAuditInternal (DBHeight demo_members) [x03];
             AddLeaderInternal (DBHeight demo_members) [x03]])
  ∧ (∃ p', AddAuditServer [x02] demo_members = Ok (len (AuditServers demo_members), p')
       ∧ FedServers p' = [] ++ []
       ∧ AuditServers p' = AuditServers demo_members ++ [mkServer [x02] true]
       ∧ MapFresh p'
       ∧ electionsQueue (State_ p')
         = electionsQueue (State_ demo_members)
           ++ [RemoveLeaderInternal (DBHeight demo_members) [x02];
               AddAuditInternal (DBHeight demo_members) [x02]]).
Proof.
  split.
  - destruct (promote_demote demo_members [x03] [] [] (mkServer [x03] true))
      as [H _]; [reflexivity|apply not_elem_of_nil|].
    apply H.
    + reflexivity.
    + change (ids (FedServers demo_members)) with [[x02]].
      intros H3%list_elem_of_singleton. discriminate.
    + vm_compute. reflexivity.
  - destruct (promote_demote demo_members [x02] [] [] (mkServer [x02] true))
      as [_ H]; [reflexivity|apply not_elem_of_nil|].
    apply H.
    + reflexivity.
    + change (ids (AuditServers demo_members)) with [[x03]].
      intros H2%list_elem_of_singleton. discriminate.
    + vm_compute. discriminate.
Defined.

Lemma GetAckAt_processed_witness :
  (∃ a, GetAckAt 0 0 demo_p3 = Ok (Some a)
     ∧ [Some demo_ack0] !! Z.to_nat 0 = Some (Some a))
  ∧ GetAckAt 0 5 demo_p3 = Ok None
  ∧ GetAck 0 demo_p3 = Ok None
  ∧ GetAck 0 demo_p1 = Ok (mjoin ([Some demo_ack0] !! Z.to_nat 0)).
Proof.
  destruct (GetAckAt_processed demo_p3 0 0
              (mkVM [None] [Some demo_ack0] 1 0 0 true 0 false 0 0 None 0 3000))
    as (H0 & _ & Hend & _); [exact demo_p3_reachable|reflexivity|].
  destruct (GetAckAt_processed demo_p3 0 5
              (mkVM [None] [Some demo_ack0] 1 0 0 true 0 false 0 0 None 0 3000))
    as (_ & H5 & _); [exact demo_p3_reachable|reflexivity|].
  destruct (GetAckAt_processed demo_p1 0 0
              (mkVM [Some demo_m0] [Some demo_ack0] 0 0 0 true 0 false 0 0 None 0 0))
    as (_ & _ & _ & Hnext); [exact demo_p1_reachable|reflexivity|].
  split; [apply H0; simpl; lia|]. split; [apply H5; right; unfold len; simpl; lia|].
  split; [apply Hend; reflexivity|]. apply Hnext. unfold len. simpl. lia.
Defined.

Lemma AddToProcessList_stores_witness :
  ∃ p', AddToProcessList (Some demo_ack0) demo_m0 demo_p0 = Ok p'
    ∧ stored p' demo_ack0 demo_m0
    ∧ GetAckAt (VMIndex demo_ack0) (Z.of_nat (ack_Height demo_ack0)) p' = Ok (Some demo_ack0)
    ∧ GetOldMsgs (msg_Hash demo_m0) (Some p') = Some demo_m0
    ∧ sent (State_ p') = OutAck demo_ack0 :: OutMsgOf demo_m0 :: sent (State_ demo_p0).
Proof.
  destruct (AddToProcessList_stores demo_p0 demo_ack0 demo_m0 (newVM 0))
    as (p' & vm' & E & _ & Hst & Hack & Hold & _ & Hsent & _).
  - discriminate.
  - right. discriminate.
  - reflexivity.
  - reflexivity.
  - reflexivity.
  - reflexivity.
  - exists p'. repeat split; assumption.
Defined.

Lemma AddToProcessList_other_height_witness :
  VMs (unOk demo_p1 (AddToProcessList (Some demo_ackOther) demo_m1 demo_p1)) = VMs demo_p1
  ∧ VMs (unOk demo_p1 (AddToProcessList None demo_m1 demo_p1)) = VMs demo_p1.
Proof.
  split.
  - apply (AddToProcessList_other_height demo_p1 (Some demo_ackOther) demo_m1).
    + intros a [= <-]. cbv. discriminate.
    + apply isOk_unOk. reflexivity.
  - apply (AddToProcessList_other_height demo_p1 None demo_m1).
    + intros a [=].
    + apply isOk_unOk. reflexivity.
Defined.

Lemma AddToProcessList_frame_witness :
  sameLists demo_p0 demo_p1
  ∧ IdentityChainID (State_ demo_p1) = IdentityChainID (State_ demo_p0)
  ∧ length (VMs demo_p1) = length (VMs demo_p0)
  ∧ (∀ k : nat, Z.of_nat k ≠ VMIndex demo_ack0 → VMs demo_p1 !! k = VMs demo_p0 !! k)
  ∧ (∀ (k : nat) vm, VMs demo_p0 !! k = Some vm →
       ∃ vm', VMs demo_p1 !! k = Some vm' ∧ admits (ack_Height demo_ack0) vm vm').
Proof.
  apply (AddToProcessList_frame demo_p0 demo_ack0 demo_m0 demo_p1).
  apply isOk_unOk. reflexivity.
Defined.

Lemma AddToProcessList_conflict_witness :
  ∃ p', AddToProcessList (Some demo_ack1) demo_m1 demo_p2 = Ok p'
    ∧ VMs p' = <[Z.to_nat (VMIndex demo_ack1) :=
                   set_List (λ l, <[ack_Height demo_ack1 := None]> l)
                     (mkVM [Some demo_m0] [Some demo_ack0] 1 0 0 true 0 false 0 0 None 0 3000)]>
                 (VMs demo_p2)
    ∧ sent (State_ p') = sent (State_ demo_p2)
    ∧ OldMsgs p' = OldMsgs demo_p2 ∧ OldAcks p' = OldAcks demo_p2
    ∧ Acks (State_ p') = Acks (State_ demo_p2)
    ∧ Holding (State_ p') = Holding (State_ demo_p2).
Proof.
  apply (AddToProcessList_conflict demo_p2 demo_ack1 demo_m1
           (mkVM [Some demo_m0] [Some demo_ack0] 1 0 0 true 0 false 0 0 None 0 3000)
           demo_m0).
  - discriminate.
  - right. discriminate.
  - reflexivity.
  - reflexivity.
  - discriminate.
  - reflexivity.
  - reflexivity.
Defined.

Lemma HasMessage_iff_witness :
  ∃ b, HasMessage demo_p1 = Ok b
    ∧ (b = true ↔ ∃ j vm, (j < length (FedServers demo_p1))%nat
                          ∧ VMs demo_p1 !! j = Some vm ∧ List vm ≠ []).
Proof.
  apply (HasMessage_iff demo_p1).
  change (length (FedServers demo_p1)) with 1%nat.
  change (length (VMs demo_p1)) with 65%nat. lia.
Defined.

Lemma demo_p2_process : Process demo_p1 = Ok (true, demo_p2).
Proof. apply progressOf_unOk. reflexivity. Qed.

Lemma Process_runs_witness :
  Forall2 runs (VMs demo_p1) (VMs demo_p2)
  ∧ ∀ n : nat, (length (FedServers demo_p1) ≤ n)%nat → VMs demo_p2 !! n = VMs demo_p1 !! n.
Proof. exact (Process_runs demo_p1 true demo_p2 demo_p2_process). Defined.

Lemma Process_progress_witness :
  true = true ↔ DBHeight demo_p1 ≤ HighestSavedBlk (State_ demo_p1)
                ∨ moved (VMs demo_p1) (VMs demo_p2).
Proof. exact (Process_progress demo_p1 true demo_p2 demo_p2_process). Defined.


Lemma Ask_frame_witness :
  Ask 1 0 demo_quiet = Panic
  ∧ keeps demo_quiet demo_asked
  ∧ ∃ vm vm', index (VMs demo_quiet) 0 = Ok vm
      ∧ VMs demo_asked = <[Z.to_nat 0 := vm']> (VMs demo_quiet) ∧ sameButAsk vm vm'
      ∧ (sent (State_ demo_asked) = sent (State_ demo_quiet)
         ∨ sent (State_ demo_asked)
           = OutMissing (missingMsgRequest 0 (DBHeight demo_quiet) vm)
               :: sent (State_ demo_quiet)).
Proof.
  split.
  - apply (Ask_frame 1 0 demo_quiet). right. vm_compute. discriminate.
  - apply (Ask_frame 0 0 demo_quiet). apply isOk_unOk. reflexivity.
Defined.

Lemma Complete_no_progress_witness :
  false = false ∧ Forall2 sameQueue (VMs demo_done) (VMs demo_rest).
Proof.
  apply (Complete_no_progress demo_done false demo_rest).
  - vm_compute. reflexivity.
  - vm_compute. reflexivity.
  - apply progressOf_unOk. reflexivity.
Defined.

Lemma Remove_spec_witness :
  RemoveAuditServerHash [x09] demo_members = demo_members
  ∧ RemoveFedServerHash [x03] demo_members
    = Ok (RemoveAuditServerHash [x03] demo_members)
  ∧ (AuditServers (RemoveAuditServerHash [x03] demo_members) = [] ++ []
     ∧ FedServers (RemoveAuditServerHash [x03] demo_members) = FedServers demo_members
     ∧ ServerMap (RemoveAuditServerHash [x03] demo_members) = ServerMap demo_members
     ∧ electionsQueue (State_ (RemoveAuditServerHash [x03] demo_members))
       = electionsQueue (State_ demo_members)
         ++ [RemoveAuditInternal (DBHeight demo_members) [x03]])
  ∧ ∃ p', RemoveFedServerHash [x02] demo_members = Ok p'
      ∧ FedServers p' = [] ++ []
      ∧ AuditServers p' = AuditServers demo_members
      ∧ MapFresh p'
      ∧ electionsQueue (State_ p')
        = electionsQueue (State_ demo_members)
          ++ [RemoveLeaderInternal (DBHeight demo_members) [x02]].
Proof.
  destruct (Remove_spec demo_members [x09]) as (H9 & _).
  destruct (Remove_spec demo_members [x03]) as (_ & H3 & H3' & _).
  destruct (Remove_spec demo_members [x02]) as (_ & _ & _ & H2).
  split; [|split; [|split]].
  - apply H9. change (ids (AuditServers demo_members)) with [[x03]].
    intros H%list_elem_of_singleton. discriminate.
  - apply H3. change (ids (FedServers demo_members)) with [[x02]].
    intros H%list_elem_of_singleton. discriminate.
  - apply (H3' [] (mkServer [x03] true) []);
      [reflexivity|reflexivity|apply not_elem_of_nil].
  - apply (H2 [] (mkServer [x02] true) []);
      [reflexivity|reflexivity|apply not_elem_of_nil|vm_compute; discriminate].
Defined.

Lemma TrimVMList_never_trims_witness :
  TrimVMList 0 0 [None; None] demo_done = Ok demo_done
  ∧ TrimVMList 2 0 [None; None] demo_done
    = Ok (set_VMs [mkVM [Some demo_m0; None] [Some demo_ack0]
                     1 0 10 true 0 false 0 0 None 0 0] demo_done)
  ∧ TrimVMList 4 0 [None; None] demo_done = Panic.
Proof.
  destruct (TrimVMList_never_trims 0 0 [None; None] demo_done
              (mkVM [Some demo_m0] [Some demo_ack0] 1 0 10 true 0 false 0 0 None 0 0))
    as (H0 & _); [reflexivity|vm_compute; reflexivity|].
  destruct (TrimVMList_never_trims 2 0 [None; None] demo_done
              (mkVM [Some demo_m0] [Some demo_ack0] 1 0 10 true 0 false 0 0 None 0 0))
    as (_ & H2 & _); [reflexivity|vm_compute; reflexivity|].
  destruct (TrimVMList_never_trims 4 0 [None; None] demo_done
              (mkVM [Some demo_m0] [Some demo_ack0] 1 0 10 true 0 false 0 0 None 0 0))
    as (_ & _ & H4); [reflexivity|vm_compute; reflexivity|].
  split; [apply H0; vm_compute; reflexivity|].
  split; [|apply H4; vm_compute; reflexivity].
  rewrite H2; [reflexivity|]. vm_compute. split; discriminate.
Defined.

Lemma CheckDiffSigTally_majority_witness :
  (CheckDiffSigTally (Nat.iter 1 IncrementDiffSigTally (ResetDiffSigTally demo_signing))
   = true ↔ 2 * Z.of_nat 1 ≤ len (FedServers (PL demo_signing)))
  ∧ CheckDiffSigTally (Nat.iter 0 IncrementDiffSigTally (ResetDiffSigTally demo_signing))
    = true.
Proof.
  split.
  - apply (CheckDiffSigTally_majority demo_signing 1). vm_compute. reflexivity.
  - apply (CheckDiffSigTally_majority demo_signing 0); vm_compute; [reflexivity|discriminate].
Defined.

Lemma AddDBSig_spec_witness :
  ∃ s', AddDBSig [x02] [x55] demo_signing = Ok s'
    ∧ Sorted sigLe (DBSignatures s')
    ∧ (∃ v p', GetVirtualServers 0 [x02] (PL demo_signing) = Ok (true, v, p')
         ∧ 0 ≤ v < len (FedServers (PL demo_signing))
         ∧ DBSignatures s' ≡ₚ DBSignatures demo_signing ++ [mkDBSig [x02] [x55] v])
    ∧ ContainsDBSig [x02] s' = true
    ∧ AddDBSig [x02] [x66] s' = Ok s'
    ∧ AddDBSig [x09] [x55] demo_signing = Ok demo_signing.
Proof.
  destruct (AddDBSig_spec [x02] [x55] demo_signing)
    as (s' & E & _ & _ & Hnew & Hin & _ & Hagain); [vm_compute; discriminate|].
  destruct (AddDBSig_spec [x09] [x55] demo_signing)
    as (s9 & E9 & _ & Hsame & _); [vm_compute; discriminate|].
  assert (Hfed : [x02] ∈ ids (FedServers (PL demo_signing))).
  { change (ids (FedServers (PL demo_signing))) with [[x02]].
    apply list_elem_of_singleton. reflexivity. }
  destruct Hnew as [Hsorted Hperm]; [exact Hfed|apply not_elem_of_nil|].
  exists s'. split; [exact E|]. split; [exact Hsorted|]. split; [exact Hperm|].
  split; [exact (Hin Hfed)|]. split; [exact (Hagain [x66])|].
  rewrite E9. f_equal. apply Hsame. left.
  change (ids (FedServers (PL demo_signing))) with [[x02]].
  intros H%list_elem_of_singleton. discriminate.
Defined.

Lemma GetLeaderTimestamp_spec_witness :
  GetLeaderTimestamp 7 demo_done = Ok 0
  ∧ GetLeaderTimestamp 1 demo_done = Ok (msg_Timestamp demo_m0)
  ∧ GetLeaderTimestamp 7 demo_p3 = Panic.
Proof.
  destruct (GetLeaderTimestamp_spec 7 demo_done
              (mkVM [Some demo_m0] [Some demo_ack0] 1 0 10 true 0 false 0 0 None 0 0)
              [demo_m0]) as (H7 & _);
    [reflexivity|repeat constructor; discriminate|].
  destruct (GetLeaderTimestamp_spec 1 demo_done
              (mkVM [Some demo_m0] [Some demo_ack0] 1 0 10 true 0 false 0 0 None 0 0)
              []) as (_ & H1 & _); [reflexivity|constructor|].
  destruct (GetLeaderTimestamp_spec 7 demo_p3
              (mkVM [None] [Some demo_ack0] 1 0 0 true 0 false 0 0 None 0 3000)
              []) as (_ & _ & Hnil); [reflexivity|constructor|].
  split; [apply H7; reflexivity|]. split; [|apply (Hnil []); reflexivity].
  apply (H1 demo_m0 []); reflexivity.
Defined.

Lemma NewProcessList_spec_witness :
  (∃ p, NewProcessList demo_State None 1 = Ok p
     ∧ FedServers p = [mkServer [x02] true]
     ∧ electionsQueue (State_ p) = [AddLeaderInternal 0 [x02]]
     ∧ VMs p = replicate 65 (newVM 0)
     ∧ HasMessage p = Ok false)
  ∧ (∃ p, NewProcessList demo_State (Some demo_added) 2 = Ok p
       ∧ ascending (FedServers p)
       ∧ ids (FedServers p) ≡ₚ ids (FedServers demo_added)
       ∧ DBHeight p = 2 ∧ MapFresh p).
Proof.
  destruct (NewProcessList_spec demo_State 1) as (Hnone & _).
  destruct (NewProcessList_spec demo_State 2) as (_ & Hprev & _).
  split.
  - destruct Hnone as (p & E & Hf & _ & Hq & Hv & _ & _ & _ & _ & Hm).
    exists p. repeat split; assumption.
  - destruct (Hprev demo_added) as (p & E & _ & Hasc & Hids & _ & _ & _ & _ & Hh & Hfresh & _).
    + vm_compute. discriminate.
    + exists p. repeat split; assumption.
Defined.
